(** * Item Piles: the mutation coordinator of [scripts/api.js]

    A shallow embedding of the [API] class of [scripts/api.js]: the
    container state machine (open / close / lock / unlock / rattle), the
    pile update with its diff, the item operations (add / remove / transfer),
    the attribute operations and the automatic deletion of emptied piles.

    Conventions of the embedding.
    - A document reference (Token, TokenDocument, Actor) is its uuid, a
      [string]; a reference whose uuid cannot be determined is the empty
      string, so that [!targetUuid] is [uuid = ""].
    - A JavaScript object used as a record of settings (the pile data, a
      diff) is a [gmap string jsval]; a missing key reads as [undefined].
    - Item quantities are integer counts ([Z]).
    - Every [async] method is a computation in the monad [M]: it threads the
      state of the game (documents, registered hook consumers, macros,
      settings) and a log of the observable effects, and ends either with a
      value or with a thrown error.  What was persisted before an error is
      thrown stays persisted.
    - The socket ([executeAsGM], [executeForEveryone]) is a transparent
      dispatch: the handler runs, and the dispatch is logged. *)

From stdpp Require Import base option list gmap strings pretty.
From Stdlib Require Import ZArith Lia.

Local Open Scope string_scope.
Local Open Scope Z_scope.
Local Open Scope list_scope.

(** ** JavaScript values held by settings objects *)

Inductive jsval : Type :=
  | VUndef
  | VBool (b : bool)
  | VNum (z : Z)
  | VStr (s : string).

Global Instance jsval_eq_dec : EqDecision jsval.
Proof. solve_decision. Defined.

(** Truthiness, as used by [if (x)], [!x], [a && b] and [c ? a : b]. *)
Definition truthy (v : jsval) : bool :=
  match v with
  | VUndef => false
  | VBool b => b
  | VNum z => negb (Z.eqb z 0)
  | VStr s => negb (String.eqb s "")
  end.

(** [x === false] *)
Definition is_false (v : jsval) : bool :=
  match v with VBool false => true | _ => false end.

(** [x === true] *)
Definition is_true (v : jsval) : bool :=
  match v with VBool true => true | _ => false end.

Abbreviation PileData := (gmap string jsval).

(** [data.key] and [data?.key]: a missing key is [undefined]. *)
Definition prop (data : PileData) (key : string) : jsval :=
  default VUndef (data !! key).

(** [foundry.utils.mergeObject(original, other)] on flat objects: every key
    of [other] is written over [original]. *)
Definition mergeObject (original other : PileData) : PileData :=
  other ∪ original.

(** [foundry.utils.diffObject(original, other)] on flat objects: the keys of
    [other] whose value is not the one [original] has. *)
Definition diffObject (original other : PileData) : PileData :=
  merge (λ o n, match n with
                | Some v => if decide (o = Some v) then None else Some v
                | None => None
                end) original other.

(** [foundry.utils.isObjectEmpty(obj)] *)
Definition isObjectEmpty (obj : PileData) : bool := bool_decide (obj = ∅).

(** ** Documents and the game *)

Inductive DocumentKind : Type := TokenDocument | Actor.

Global Instance DocumentKind_eq_dec : EqDecision DocumentKind.
Proof. solve_decision. Defined.

(** One inventory line: an embedded Item document reduced to what the
    coordinator reads and writes ([_id], [name], the item type attribute and
    the item quantity attribute). *)
Record Item : Type := mkItem {
  item_id : string;
  item_name : string;
  item_type : string;
  item_quantity : Z
}.

Global Instance Item_eq_dec : EqDecision Item.
Proof. solve_decision. Defined.

(** A document with the pile data flagged on it and the data of its actor:
    the embedded items in collection order and the numeric attributes by
    dotted path.  A number read off the actor is an [option Z]: [None] is
    [NaN]. *)
Record Document : Type := mkDocument {
  kind : DocumentKind;
  flags : PileData;
  items : list Item;
  attributes : gmap string (option Z)
}.

Inductive HOOKS : Type :=
  | PRE_TRANSFER_EVERYTHING | TRANSFER_EVERYTHING
  | PILE_PRE_CREATE | PILE_PRE_TURN_INTO | PILE_TURN_INTO
  | PILE_PRE_REVERT_FROM | PILE_REVERT_FROM
  | PILE_PRE_OPEN | PILE_OPEN | PILE_PRE_CLOSE | PILE_CLOSE
  | PILE_PRE_LOCK | PILE_LOCK | PILE_PRE_UNLOCK | PILE_UNLOCK
  | PILE_PRE_RATTLE | PILE_RATTLE
  | PILE_PRE_UPDATE | PILE_UPDATE | PILE_PRE_DELETE
  | ITEM_PRE_DROP_DETERMINED | ITEM_PRE_DROP | ITEM_DROP
  | ITEM_PRE_TRANSFER | ITEM_TRANSFER | ITEM_PRE_ADD | ITEM_ADD
  | ITEM_PRE_REMOVE | ITEM_REMOVE | ITEM_PRE_TRANSFER_ALL | ITEM_TRANSFER_ALL
  | ATTRIBUTE_PRE_TRANSFER | ATTRIBUTE_TRANSFER | ATTRIBUTE_PRE_ADD
  | ATTRIBUTE_ADD | ATTRIBUTE_PRE_REMOVE | ATTRIBUTE_REMOVE
  | ATTRIBUTE_PRE_TRANSFER_ALL | ATTRIBUTE_TRANSFER_ALL.

Global Instance HOOKS_eq_dec : EqDecision HOOKS.
Proof. solve_decision. Defined.

Inductive SOCKET_HANDLERS : Type :=
  | CREATE_PILE | TURN_INTO_PILE | REVERT_FROM_PILE | UPDATE_PILE
  | UPDATED_PILE | DELETE_PILE | REFRESH_PILE | OPEN_INVENTORY
  | ADD_ITEMS | REMOVE_ITEMS | TRANSFER_ITEMS | TRANSFER_ALL_ITEMS
  | ADD_ATTRIBUTE | REMOVE_ATTRIBUTES | TRANSFER_ATTRIBUTES
  | TRANSFER_ALL_ATTRIBUTES | TRANSFER_EVERYTHING_HANDLER | DROP_ITEMS
  | RERENDER_PILE_INVENTORY | RERENDER_TOKEN_HUD | CALL_HOOK.

Global Instance SOCKET_HANDLERS_eq_dec : EqDecision SOCKET_HANDLERS.
Proof. solve_decision. Defined.

(** The observable effects, in the order they happen. *)
Inductive Event : Type :=
  | EHooksCall (hook : HOOKS)                 (* Hooks.call: cancelable *)
  | EHooksCallAll (hook : HOOKS)              (* Hooks.callAll *)
  | EPlay (src : jsval)                        (* AudioHelper.play({src}) *)
  | EExecuteAsGM (handler : SOCKET_HANDLERS)
  | EExecuteForEveryone (handler : SOCKET_HANDLERS)
  | ECallHook (hook : HOOKS)                  (* executeForEveryone(CALL_HOOK, hook, ...) *)
  | EUpdatedPile (targetUuid : string) (diff : PileData)
  | EMacroExecute (macro : string) (action : string)
  | ERerender (pileUuid : string) (deleted : bool)
  | EWarning (message : string)
  | EShowInventory (pileUuid : string) (interactingToken : option string).

Global Instance Event_eq_dec : EqDecision Event.
Proof. solve_decision. Defined.

(** A token on the canvas as the click handler sees it: its document, whether
    the user owns it, and its distance to the clicked pile in grid units. *)
Record Token : Type := mkToken {
  token_document : string;
  token_owner : bool;
  token_grids : Z
}.

Global Instance Token_eq_dec : EqDecision Token.
Proof. solve_decision. Defined.

Record Game : Type := mkGame {
  docs : gmap string Document;         (* fromUuid *)
  ids_made : nat;                      (* how many ids the host handed out *)
  consumers : HOOKS → list jsval;      (* per hook: what each registered
                                          consumer returns, in order *)
  macros : list string;                (* game.macros, by name *)
  deleteEmptyPiles : bool;             (* setting "deleteEmptyPiles" *)
  ITEM_TYPE_FILTERS : list string;     (* setting "itemTypeFilters" *)
  isGM : bool;                         (* game.user.isGM *)
  gmConnected : bool;                  (* lib.isGMConnected() *)
  controlled : list Token;             (* canvas.tokens.controlled *)
  placeables : list Token;             (* canvas.tokens.placeables *)
  _token : option Token;               (* the ambient current token *)
  log : list Event
}.

Definition set_docs (f : gmap string Document → gmap string Document) (g : Game) : Game :=
  mkGame (f (docs g)) (ids_made g) (consumers g) (macros g)
         (deleteEmptyPiles g) (ITEM_TYPE_FILTERS g) (isGM g) (gmConnected g)
         (controlled g) (placeables g) (_token g) (log g).

Definition set_ids_made (n : nat) (g : Game) : Game :=
  mkGame (docs g) n (consumers g) (macros g)
         (deleteEmptyPiles g) (ITEM_TYPE_FILTERS g) (isGM g) (gmConnected g)
         (controlled g) (placeables g) (_token g) (log g).

Definition add_log (e : Event) (g : Game) : Game :=
  mkGame (docs g) (ids_made g) (consumers g) (macros g)
         (deleteEmptyPiles g) (ITEM_TYPE_FILTERS g) (isGM g) (gmConnected g)
         (controlled g) (placeables g) (_token g) (log g ++ [e]).

(** The game with more effects logged and nothing else changed. *)
Definition logged (g : Game) (trace : list Event) : Game :=
  mkGame (docs g) (ids_made g) (consumers g) (macros g)
         (deleteEmptyPiles g) (ITEM_TYPE_FILTERS g) (isGM g) (gmConnected g)
         (controlled g) (placeables g) (_token g) (log g ++ trace).

(** ** The monad of the coordinator *)

Inductive result (A : Type) : Type :=
  | Ok (a : A)
  | Throw (message : string).
Arguments Ok {A} a.
Arguments Throw {A} message.

Definition M (A : Type) : Type := Game → Game * result A.

Definition ret {A} (a : A) : M A := λ g, (g, Ok a).

Definition bind {A B} (m : M A) (k : A → M B) : M B :=
  λ g, match m g with
       | (g', Ok a) => k a g'
       | (g', Throw e) => (g', Throw e)
       end.

Definition throw {A} (message : string) : M A := λ g, (g, Throw message).

Definition gets {A} (f : Game → A) : M A := λ g, (g, Ok (f g)).

Definition modify (f : Game → Game) : M unit := λ g, (f g, Ok tt).

Definition emit (e : Event) : M unit := modify (add_log e).

(** A call of an [async] method that is not awaited: its effects happen, its
    result and a thrown error are dropped. *)
Definition detached {A} (m : M A) : M unit :=
  λ g, (fst (m g), Ok tt).

Declare Scope M_scope.
Delimit Scope M_scope with M.
Notation "'let*' x ':=' m 'in' k" := (bind m (λ x, k))
  (at level 10, x name, m at level 100, k at level 200) : M_scope.
Notation "'do' m 'then' k" := (bind m (λ _, k))
  (at level 10, m at level 100, k at level 200) : M_scope.
Local Open Scope M_scope.

(** ** Collaborators: hooks, sound, socket *)

(** [Hooks.call(hook, ...)]: the consumers run in registration order, the
    first that returns [false] stops the call, which then returns [false]. *)
Definition Hooks_passes (g : Game) (hook : HOOKS) : bool :=
  forallb (λ v, negb (is_false v)) (consumers g hook).

Definition Hooks_call (hook : HOOKS) : M bool :=
  do emit (EHooksCall hook) then gets (λ g, Hooks_passes g hook).

Definition Hooks_callAll (hook : HOOKS) : M unit := emit (EHooksCallAll hook).

Definition AudioHelper_play (src : jsval) : M unit := emit (EPlay src).

Definition executeAsGM {A} (handler : SOCKET_HANDLERS) (run : M A) : M A :=
  do emit (EExecuteAsGM handler) then run.

Definition executeForEveryone {A} (handler : SOCKET_HANDLERS) (run : M A) : M A :=
  do emit (EExecuteForEveryone handler) then run.

(** [executeForEveryone(SOCKET_HANDLERS.CALL_HOOK, hook, ...)] *)
Definition call_hook_for_everyone (hook : HOOKS) : M unit :=
  emit (ECallHook hook).

(** ** [lib]: the helpers of [scripts/lib/lib.js] *)

(** Modelled from the spec: [lib.getItemPileData], which is not among the
    sources; it reads the pile configuration flagged on the document, and an
    unresolved document has none. *)
Definition getItemPileData (target : string) : M PileData :=
  gets (λ g, match docs g !! target with
             | Some d => flags d
             | None => ∅
             end).

(** Modelled from the spec: [lib.isValidItemPile], which is not among the
    sources; a valid pile is a resolved document whose pile data is enabled. *)
Definition isValidItemPile (target : string) : M bool :=
  gets (λ g, match docs g !! target with
             | Some d => truthy (prop (flags d) "enabled")
             | None => false
             end).

(** Modelled from the spec: [lib.updateItemPile], which is not among the
    sources; it persists the merged pile data on the document (the token
    image and scale overrides are display only and left out). *)
Definition lib_updateItemPile (target : string) (data : PileData) : M unit :=
  λ g, match docs g !! target with
       | Some d =>
           (set_docs (insert target (mkDocument (kind d) data (items d) (attributes d))) g,
            Ok tt)
       | None => (g, Throw "Cannot read properties of null")
       end.

(** [fromUuid(uuid)] *)
Definition fromUuid (uuid : string) : M (option Document) :=
  gets (λ g, docs g !! uuid).

(** ** Macros *)

(** [API._executeItemPileMacro(targetUuid, macroData)]; of [macroData] the
    action is kept. *)
Definition _executeItemPileMacro (targetUuid : string) (action : string) : M unit :=
  let* valid := isValidItemPile targetUuid in
  if negb valid then ret tt else
  let* pileData := getItemPileData targetUuid in
  if negb (truthy (prop pileData "macro")) then ret tt else
  let* known := gets macros in
  match prop pileData "macro" with
  | VStr name =>
      if bool_decide (name ∈ known)
      then emit (EMacroExecute name action)
      else throw "Could not find macro"
  | _ => throw "Could not find macro"
  end.

(** ** Updating a pile *)

(** [API._updatedItemPile(targetUuid, diffData, interactingTokenUuid)], run by
    every client on the UPDATED_PILE broadcast. *)
Definition _updatedItemPile (targetUuid : string) (diffData : PileData) : M unit :=
  do emit (EUpdatedPile targetUuid diffData) then
  if isObjectEmpty diffData then ret tt else
  let* data := getItemPileData targetUuid in
  do Hooks_callAll PILE_UPDATE then
  if truthy (prop data "enabled") && truthy (prop data "isContainer") then
    do (if is_true (prop diffData "closed") then Hooks_callAll PILE_CLOSE else ret tt) then
    do (if is_true (prop diffData "locked") then Hooks_callAll PILE_LOCK else ret tt) then
    do (if is_false (prop diffData "locked") then Hooks_callAll PILE_UNLOCK else ret tt) then
    (if is_false (prop diffData "closed") then Hooks_callAll PILE_OPEN else ret tt)
  else ret tt.

(** [API._updateItemPile(targetUuid, newData, {interactingTokenUuid})], the
    UPDATE_PILE handler.  The diff is taken between the data read before the
    write and the merged data; the macros are started without being awaited. *)
Definition _updateItemPile (targetUuid : string) (newData : PileData) : M jsval :=
  let* oldData := getItemPileData targetUuid in
  let data := mergeObject oldData newData in
  let diff := diffObject oldData data in
  do lib_updateItemPile targetUuid data then
  do (if truthy (prop data "enabled") && truthy (prop data "isContainer") then
        do (if is_true (prop diff "closed")
            then detached (_executeItemPileMacro targetUuid "closeItemPile") else ret tt) then
        do (if is_true (prop diff "locked")
            then detached (_executeItemPileMacro targetUuid "lockItemPile") else ret tt) then
        do (if is_false (prop diff "locked")
            then detached (_executeItemPileMacro targetUuid "unlockItemPile") else ret tt) then
        (if is_false (prop diff "closed")
         then detached (_executeItemPileMacro targetUuid "openItemPile") else ret tt)
      else ret tt) then
  do executeForEveryone UPDATED_PILE (_updatedItemPile targetUuid diff) then
  ret VUndef.

(** [API.updateItemPile(target, newData, {interactingToken})] *)
Definition updateItemPile (target : string) (newData : PileData)
    (interactingToken : option string) : M jsval :=
  let targetUuid := target in
  if bool_decide (targetUuid = "") then
    throw "updateItemPile | Could not determine the UUID, please provide a valid target"
  else if bool_decide (interactingToken = Some "") then
    throw "updateItemPile | Could not determine the UUID, please provide a valid target"
  else
  let* hookResult := Hooks_call PILE_PRE_UPDATE in
  if negb hookResult then ret VUndef else
  executeAsGM UPDATE_PILE (_updateItemPile targetUuid newData).

(** ** The container state machine *)

(** [API.openItemPile(target, interactingToken)] *)
Definition openItemPile (target : string) (interactingToken : option string) : M jsval :=
  let* data := getItemPileData target in
  if negb (truthy (prop data "enabled")) || negb (truthy (prop data "isContainer"))
  then ret (VBool false) else
  let wasLocked := prop data "locked" in
  let wasClosed := prop data "closed" in
  let data := <["closed" := VBool false]> data in
  let data := <["locked" := VBool false]> data in
  let* hookResult := (if truthy wasLocked then Hooks_call PILE_PRE_UNLOCK else ret true) in
  if negb hookResult then ret VUndef else
  let* hookResult := Hooks_call PILE_PRE_OPEN in
  if negb hookResult then ret VUndef else
  do (if truthy wasClosed && truthy (prop data "openSound")
      then AudioHelper_play (prop data "openSound") else ret tt) then
  updateItemPile target data interactingToken.

(** [API.closeItemPile(target, interactingToken)] *)
Definition closeItemPile (target : string) (interactingToken : option string) : M jsval :=
  let* data := getItemPileData target in
  if negb (truthy (prop data "enabled")) || negb (truthy (prop data "isContainer"))
  then ret (VBool false) else
  let wasClosed := prop data "closed" in
  let data := <["closed" := VBool true]> data in
  let* hookResult := Hooks_call PILE_PRE_CLOSE in
  if negb hookResult then ret VUndef else
  do (if negb (truthy wasClosed) && truthy (prop data "closeSound")
      then AudioHelper_play (prop data "closeSound") else ret tt) then
  updateItemPile target data interactingToken.

(** [API.lockItemPile(target, interactingToken)] *)
Definition lockItemPile (target : string) (interactingToken : option string) : M jsval :=
  let* data := getItemPileData target in
  if negb (truthy (prop data "enabled")) || negb (truthy (prop data "isContainer"))
  then ret (VBool false) else
  let wasClosed := prop data "closed" in
  let data := <["closed" := VBool true]> data in
  let data := <["locked" := VBool true]> data in
  let* hookResult := (if negb (truthy wasClosed) then Hooks_call PILE_PRE_CLOSE else ret true) in
  if negb hookResult then ret VUndef else
  let* hookResult := Hooks_call PILE_PRE_LOCK in
  if negb hookResult then ret VUndef else
  do (if negb (truthy wasClosed) && truthy (prop data "closeSound")
      then AudioHelper_play (prop data "closeSound") else ret tt) then
  updateItemPile target data interactingToken.

(** [API.unlockItemPile(target, interactingToken)]: the result of the
    PRE_UNLOCK call is not looked at. *)
Definition unlockItemPile (target : string) (interactingToken : option string) : M jsval :=
  let* data := getItemPileData target in
  if negb (truthy (prop data "enabled")) || negb (truthy (prop data "isContainer"))
  then ret (VBool false) else
  let data := <["locked" := VBool false]> data in
  let* _ := Hooks_call PILE_PRE_UNLOCK in
  updateItemPile target data interactingToken.

(** [API.rattleItemPile(target, interactingToken)] *)
Definition rattleItemPile (target : string) (interactingToken : option string) : M jsval :=
  let* data := getItemPileData target in
  if negb (truthy (prop data "enabled")) || negb (truthy (prop data "isContainer"))
     || negb (truthy (prop data "locked"))
  then ret (VBool false) else
  let* _ := Hooks_call PILE_PRE_RATTLE in
  do (if truthy (prop data "lockedSound")
      then AudioHelper_play (prop data "lockedSound") else ret tt) then
  do call_hook_for_everyone PILE_RATTLE then
  ret (VBool true).

(** [API.isItemPileLocked(target)] *)
Definition isItemPileLocked (g : Game) (target : string) : jsval :=
  let data := match docs g !! target with Some d => flags d | None => ∅ end in
  if negb (truthy (prop data "enabled")) || negb (truthy (prop data "isContainer"))
  then VBool false else prop data "locked".

(** [API.isItemPileClosed(target)] *)
Definition isItemPileClosed (g : Game) (target : string) : jsval :=
  let data := match docs g !! target with Some d => flags d | None => ∅ end in
  if negb (truthy (prop data "enabled")) || negb (truthy (prop data "isContainer"))
  then VBool false else prop data "closed".


(** ** Inventory lines and the host's embedded collection *)

Definition set_quantity (quantity : Z) (item : Item) : Item :=
  mkItem (item_id item) (item_name item) (item_type item) quantity.

Definition set_id (id : string) (item : Item) : Item :=
  mkItem id (item_name item) (item_type item) (item_quantity item).

(** The n-th id the host hands out to a created document; ids never repeat. *)
Definition randomID (n : nat) : string := pretty n.

(** [actor.items.get(id)] *)
Definition items_get (actorItems : list Item) (id : string) : option Item :=
  List.find (λ item, bool_decide (item_id item = id)) actorItems.

(** [actor.updateEmbeddedDocuments("Item", updates)]: each update writes the
    quantity of the line of that id. *)
Definition updateEmbeddedDocuments (updates : list (string * Z))
    (actorItems : list Item) : list Item :=
  foldl (λ lines update,
           map (λ item, if bool_decide (item_id item = update.1)
                        then set_quantity update.2 item else item) lines)
        actorItems updates.

(** [actor.deleteEmbeddedDocuments("Item", ids)] *)
Definition deleteEmbeddedDocuments (ids : list string)
    (actorItems : list Item) : list Item :=
  List.filter (λ item, negb (bool_decide (item_id item ∈ ids))) actorItems.

(** The documents [actor.createEmbeddedDocuments("Item", data)] makes: one per
    entry, in order, each under a new id. *)
Definition created_documents (made : nat) (data : list Item) : list Item :=
  imap (λ i item, set_id (randomID (made + i)) item) data.

(** ** Transfer records and requests *)

(** [{item, quantity, deleted}]; the records of an addition carry no
    [deleted]. *)
Record TransferRecord : Type := mkRecord {
  record_item : Item;
  record_quantity : Z;
  record_deleted : option bool
}.

Global Instance TransferRecord_eq_dec : EqDecision TransferRecord.
Proof. solve_decision. Defined.

(** An entry of the [items] array of the ADD_ITEMS handler:
    [{item, quantity}], the quantity being optional. *)
Record ItemData : Type := mkItemData {
  data_item : Item;
  data_quantity : option Z
}.

(** An entry of the [items] array of the REMOVE_ITEMS handler:
    [{_id, quantity}]. *)
Record ItemRequest : Type := mkRequest {
  request_id : string;
  request_quantity : Z
}.

(** An entry of the [items] array of the public item methods: a string id,
    an object with an [_id], or an object with an [item]. *)
Inductive ItemArgument : Type :=
  | ArgString (id : string)
  | ArgId (id : string) (quantity : option Z)
  | ArgItem (item : Item) (quantity : option Z).


(** A removal record handed to the ADD_ITEMS handler. *)
Definition record_as_data (record : TransferRecord) : ItemData :=
  mkItemData (record_item record) (Some (record_quantity record)).

(** Modelled from the spec: [lib.getSimilarItem], which is not among the
    sources; a line matches on the same id, or on the same name and the same
    item type, and the first match in collection order wins. *)
Definition getSimilarItem (actorItems : list Item)
    (itemId itemName itemType : string) : option Item :=
  List.find (λ item, bool_decide (item_id item = itemId)
                     || (bool_decide (item_name item = itemName)
                         && bool_decide (item_type item = itemType)))
            actorItems.

(** Modelled from the spec: [lib.getDocumentItems], which is not among the
    sources; the lines of the document that the item type filters do not
    exclude. *)
Definition getDocumentItems (itemTypeFilters : list string)
    (actorItems : list Item) : list Item :=
  List.filter (λ item, negb (bool_decide (item_type item ∈ itemTypeFilters)))
              actorItems.

(** [value > 0] on a number that may be [NaN] *)
Definition is_positive (value : option Z) : Prop :=
  match value with Some z => 0 < z | None => False end.

Global Instance is_positive_dec value : Decision (is_positive value).
Proof. destruct value; apply _. Defined.

(** Modelled from the spec: [lib.isItemPileEmpty], which is not among the
    sources; a pile is empty when it holds no item and no attribute with a
    positive value. *)
Definition isItemPileEmpty (d : Document) : bool :=
  bool_decide (items d = [])
  && bool_decide (map_Forall (λ _ value, ¬ is_positive value) (attributes d)).

(** [API.getItemPileItems(target)] *)
Definition getItemPileItems (target : string) : M (list Item) :=
  gets (λ g, match docs g !! target with
             | Some d => getDocumentItems (ITEM_TYPE_FILTERS g) (items d)
             | None => []
             end).

(** Writing the embedded items of the actor of a document. *)
Definition set_items (targetUuid : string) (f : list Item → list Item) : M unit :=
  modify (set_docs (λ ds,
    match ds !! targetUuid with
    | Some d => <[targetUuid := mkDocument (kind d) (flags d) (f (items d)) (attributes d)]> ds
    | None => ds
    end)).

(** [actor.createEmbeddedDocuments("Item", data)] on the actor of a document:
    the created documents are added to the collection and returned. *)
Definition createEmbeddedDocuments (targetUuid : string) (data : list Item) : M (list Item) :=
  let* made := gets ids_made in
  let created := created_documents made data in
  do modify (set_ids_made (made + length data)) then
  do set_items targetUuid (λ lines, lines ++ created) then
  ret created.

(** ** Deleting a pile *)

(** [API._deleteItemPile(targetUuid)] *)
Definition _deleteItemPile (targetUuid : string) : M unit :=
  let* target := fromUuid targetUuid in
  match target with
  | None => throw "Cannot read properties of null"
  | Some _ => modify (set_docs (delete targetUuid))
  end.

(** The property names every object literal inherits from
    [Object.prototype] (ECMAScript, Annex B included): each holds a
    function, and ["__proto__"] the prototype object itself. *)
Definition Object_prototype_keys : list string :=
  ["constructor"; "hasOwnProperty"; "isPrototypeOf"; "propertyIsEnumerable";
   "toLocaleString"; "toString"; "valueOf"; "__proto__";
   "__defineGetter__"; "__defineSetter__"; "__lookupGetter__"; "__lookupSetter__"].

(** What indexing an object literal yields: the value of an own key
    ([undefined] when the key is nowhere), or a member inherited from
    [Object.prototype]. *)
Inductive Member : Type :=
  | Own (value : jsval)
  | Inherited (key : string).

(** Truthiness of a looked-up member: functions and objects are truthy. *)
Definition member_truthy (member : Member) : bool :=
  match member with
  | Own value => truthy value
  | Inherited _ => true
  end.

(** The lookup [{default: ..., true: true, false: false}[deleteWhenEmpty ?? "default"]]
    of [_checkItemPileShouldBeDeleted]: the key is turned into a string, the
    string of a number is no key of the object, and a string that is none of
    the three own keys still finds what the literal inherits. *)
Definition shouldDelete (default_setting : bool) (deleteWhenEmpty : jsval) : Member :=
  match deleteWhenEmpty with
  | VUndef => Own (VBool default_setting)
  | VBool true => Own (VBool true)
  | VBool false => Own (VBool false)
  | VNum _ => Own VUndef
  | VStr key =>
      if String.eqb key "default" then Own (VBool default_setting)
      else if String.eqb key "true" then Own (VBool true)
      else if String.eqb key "false" then Own (VBool false)
      else if bool_decide (key ∈ Object_prototype_keys) then Inherited key
      else Own VUndef
  end.

(** [API._checkItemPileShouldBeDeleted(targetUuid)] *)
Definition _checkItemPileShouldBeDeleted (targetUuid : string) : M bool :=
  let* target := fromUuid targetUuid in
  match target with
  | None => ret false
  | Some d =>
      if negb (bool_decide (kind d = TokenDocument)) then ret false else
      let pileData := flags d in
      let* default_setting := gets deleteEmptyPiles in
      ret (truthy (prop pileData "enabled")
           && member_truthy (shouldDelete default_setting (prop pileData "deleteWhenEmpty"))
           && isItemPileEmpty d)
  end.

(** [API.rerenderItemPileInventoryApplication(inPileUuid, deleted)] *)
Definition rerenderItemPileInventoryApplication (inPileUuid : string) (deleted : bool) : M unit :=
  executeForEveryone RERENDER_PILE_INVENTORY (emit (ERerender inPileUuid deleted)).

(** ** Adding items *)

(** One turn of the loop of [_addItems]: the record, the creation or the
    update that the entry queues, matched against the lines the actor had
    when the call started. *)
Definition add_step (targetActorItems : list Item) (itemData : ItemData)
    : list TransferRecord * list Item * list (string * Z) :=
  let item := data_item itemData in
  let foundItem := getSimilarItem targetActorItems
                     (item_id item) (item_name item) (item_type item) in
  let incomingQuantity := default 1 (data_quantity itemData) in
  match foundItem with
  | Some found =>
      let currentQuantity := item_quantity found in
      let newQuantity := currentQuantity + incomingQuantity in
      ([mkRecord (set_quantity newQuantity found) incomingQuantity None],
       [], [(item_id found, newQuantity)])
  | None =>
      ([], [set_quantity incomingQuantity item], [])
  end.

(** The loop of [_addItems]: [(itemsAdded, itemsToCreate, itemsToUpdate)]. *)
Fixpoint add_loop (targetActorItems : list Item) (entries : list ItemData)
    : list TransferRecord * list Item * list (string * Z) :=
  match entries with
  | [] => ([], [], [])
  | itemData :: rest =>
      let '(added, toCreate, toUpdate) := add_step targetActorItems itemData in
      let '(added', toCreate', toUpdate') := add_loop targetActorItems rest in
      (added ++ added', toCreate ++ toCreate', toUpdate ++ toUpdate')
  end.

(** [API._addItems(targetUuid, items, userId, {interactionId, isTransfer})] *)
Definition _addItems (targetUuid : string) (entries : list ItemData)
    (isTransfer : bool) : M (list TransferRecord) :=
  let* target := fromUuid targetUuid in
  match target with
  | None => throw "Cannot read properties of null"
  | Some targetActor =>
      let targetActorItems := items targetActor in
      let '(itemsAdded, itemsToCreate, itemsToUpdate) :=
        add_loop targetActorItems entries in
      let* itemsCreated := createEmbeddedDocuments targetUuid itemsToCreate in
      do set_items targetUuid (updateEmbeddedDocuments itemsToUpdate) then
      let itemsAdded :=
        itemsAdded ++ map (λ item, mkRecord item (item_quantity item) None) itemsCreated in
      do call_hook_for_everyone ITEM_ADD then
      do (if negb isTransfer then
            do _executeItemPileMacro targetUuid "addItems" then
            rerenderItemPileInventoryApplication targetUuid false
          else ret tt) then
      ret itemsAdded
  end.

(** [API.addItems(target, items, {interactionId})]; an entry is
    [{item, quantity}].  For an entry without a quantity the code reads the
    quantity path off [item.data], the data below the item, where the path,
    which starts at the item, finds nothing: the entry reaches the handler
    without a quantity, and the handler takes 1. *)
Definition addItems (target : string) (entries : list ItemData)
    : M (option (list TransferRecord)) :=
  let* hookResult := Hooks_call ITEM_PRE_ADD in
  if negb hookResult then ret None else
  let targetUuid := target in
  if bool_decide (targetUuid = "") then
    throw "AddItems | Could not determine the UUID, please provide a valid target"
  else
  let entries := map (λ itemData,
                        mkItemData (data_item itemData)
                          (match data_quantity itemData with
                           | Some quantity => Some quantity
                           | None => None
                           end))
                     entries in
  let* itemsAdded := executeAsGM ADD_ITEMS (_addItems targetUuid entries false) in
  ret (Some itemsAdded).

(** ** Removing items *)

(** One turn of the loop of [_removeItems]; [None] when the actor has no line
    of the requested id. *)
Definition remove_step (actorItems : list Item) (itemData : ItemRequest)
    : option (TransferRecord * list (string * Z) * list string) :=
  match items_get actorItems (request_id itemData) with
  | None => None
  | Some item =>
      let currentQuantity := item_quantity item in
      let quantityToRemove := request_quantity itemData in
      let newQuantity := Z.max 0 (currentQuantity - quantityToRemove) in
      if 1 <=? newQuantity then
        Some (mkRecord (set_quantity quantityToRemove item) quantityToRemove (Some false),
              [(item_id item, newQuantity)], [])
      else
        Some (mkRecord (set_quantity currentQuantity item) currentQuantity (Some true),
              [], [item_id item])
  end.

(** The loop of [_removeItems]: [(itemsRemoved, itemsToUpdate, itemsToDelete)]. *)
Fixpoint remove_loop (actorItems : list Item) (requests : list ItemRequest)
    : option (list TransferRecord * list (string * Z) * list string) :=
  match requests with
  | [] => Some ([], [], [])
  | itemData :: rest =>
      match remove_step actorItems itemData, remove_loop actorItems rest with
      | Some (record, toUpdate, toDelete), Some (removed, toUpdate', toDelete') =>
          Some (record :: removed, toUpdate ++ toUpdate', toDelete ++ toDelete')
      | _, _ => None
      end
  end.

(** [API._removeItems(targetUuid, items, userId, {interactionId, isTransfer})] *)
Definition _removeItems (targetUuid : string) (requests : list ItemRequest)
    (isTransfer : bool) : M (list TransferRecord) :=
  let* target := fromUuid targetUuid in
  match target with
  | None => throw "Cannot read properties of null"
  | Some targetActor =>
      match remove_loop (items targetActor) requests with
      | None => throw "Cannot read properties of undefined"
      | Some (itemsRemoved, itemsToUpdate, itemsToDelete) =>
          do set_items targetUuid (updateEmbeddedDocuments itemsToUpdate) then
          do set_items targetUuid (deleteEmbeddedDocuments itemsToDelete) then
          do call_hook_for_everyone ITEM_REMOVE then
          do (if negb isTransfer then
                do _executeItemPileMacro targetUuid "removeItems" then
                let* shouldBeDeleted := _checkItemPileShouldBeDeleted targetUuid in
                do rerenderItemPileInventoryApplication targetUuid shouldBeDeleted then
                if shouldBeDeleted then _deleteItemPile targetUuid else ret tt
              else ret tt) then
          ret itemsRemoved
      end
  end.

(** ** Transferring items *)

(** [API._transferItems(sourceUuid, targetUuid, items, userId, {interactionId, isEverything})] *)
Definition _transferItems (sourceUuid targetUuid : string)
    (requests : list ItemRequest) (isEverything : bool) : M (list TransferRecord) :=
  let* itemsRemoved := _removeItems sourceUuid requests true in
  let* itemsAdded := _addItems targetUuid (map record_as_data itemsRemoved) true in
  do (if negb isEverything then
        do call_hook_for_everyone ITEM_TRANSFER then
        do _executeItemPileMacro sourceUuid "transferItems" then
        do _executeItemPileMacro targetUuid "transferItems" then
        let* shouldBeDeleted := _checkItemPileShouldBeDeleted sourceUuid in
        do rerenderItemPileInventoryApplication sourceUuid shouldBeDeleted then
        do rerenderItemPileInventoryApplication targetUuid false then
        if shouldBeDeleted then _deleteItemPile sourceUuid else ret tt
      else ret tt) then
  ret itemsAdded.

(** The [items.map(...)] of [transferItems]; the quantity is
    [Math.max((itemData?.quantity ?? 0) ?? ...)], that is the given quantity,
    or 0 without one. *)
Definition transferItems_entry (sourceActorItems : list Item) (itemData : ItemArgument)
    : option ItemRequest :=
  let found (id : string) (quantity : option Z) :=
    match items_get sourceActorItems id with
    | None => None
    | Some foundActorItem => Some (mkRequest id (default 0 quantity))
    end in
  match itemData with
  | ArgString id => found id None
  | ArgId id quantity =>
      if bool_decide (id = "") then None else found id quantity
  | ArgItem item quantity => found (item_id item) quantity
  end.

(** [API.transferItems(source, target, items, {interactionId})] *)
Definition transferItems (source target : string) (entries : list ItemArgument)
    : M (option (list TransferRecord)) :=
  let* hookResult := Hooks_call ITEM_PRE_TRANSFER in
  if negb hookResult then ret None else
  let sourceUuid := source in
  if bool_decide (sourceUuid = "") then
    throw "TransferItems | Could not determine the UUID, please provide a valid source"
  else
  let* sourceActorItems := getItemPileItems source in
  match mapM (transferItems_entry sourceActorItems) entries with
  | None => throw "TransferItems | Could not find item on target"
  | Some requests =>
      let targetUuid := target in
      if bool_decide (targetUuid = "") then
        throw "TransferItems | Could not determine the UUID, please provide a valid target"
      else
      let* itemsAdded :=
        executeAsGM TRANSFER_ITEMS (_transferItems sourceUuid targetUuid requests false) in
      ret (Some itemsAdded)
  end.

(** ** Attributes *)

(** [Number(getProperty(actor.data, path))]: a missing path reads as [NaN]. *)
Definition attribute_number (d : Document) (path : string) : option Z :=
  default None (attributes d !! path).

(** [a + b], [a - b] and [Math.max(0, a)] on numbers that may be [NaN]. *)
Definition number_add (a b : option Z) : option Z :=
  match a, b with Some x, Some y => Some (x + y) | _, _ => None end.

Definition number_sub (a b : option Z) : option Z :=
  match a, b with Some x, Some y => Some (x - y) | _, _ => None end.

Definition number_max0 (a : option Z) : option Z :=
  match a with Some x => Some (Z.max 0 x) | None => None end.

(** Truthiness of a number: neither [0] nor [NaN]. *)
Definition number_truthy (a : option Z) : bool :=
  match a with Some x => negb (x =? 0) | None => false end.

(** Modelled from the spec: [lib.is_real_number], which is not among the
    sources; it holds of a value of type number.  The quantities of the
    embedding are numbers. *)
Definition is_real_number (quantity : Z) : bool := true.

(** [actor.update(updates)] on the actor of a document. *)
Definition update_attributes (targetUuid : string) (updates : gmap string (option Z)) : M unit :=
  modify (set_docs (λ ds,
    match ds !! targetUuid with
    | Some d => <[targetUuid := mkDocument (kind d) (flags d) (items d) (updates ∪ attributes d)]> ds
    | None => ds
    end)).

(** [API._addAttributes(targetUuid, attributes, userId, {interactionId, isTransfer})];
    the macro runs when [isTransfer] is set. *)
Definition _addAttributes (targetUuid : string) (attributes_ : gmap string (option Z))
    (isTransfer : bool) : M (gmap string (option Z)) :=
  let* target := fromUuid targetUuid in
  match target with
  | None => throw "Cannot read properties of null"
  | Some targetActor =>
      let updates :=
        map_imap (λ attribute quantityToAdd,
                    let currentQuantity := attribute_number targetActor attribute in
                    Some (number_add currentQuantity quantityToAdd)) attributes_ in
      let attributesAdded := updates in
      do update_attributes targetUuid updates then
      do call_hook_for_everyone ATTRIBUTE_ADD then
      do (if isTransfer then
            do _executeItemPileMacro targetUuid "addAttributes" then
            rerenderItemPileInventoryApplication targetUuid false
          else ret tt) then
      ret attributesAdded
  end.

(** [API.addAttributes(target, attributes, {interactionId})] *)
Definition addAttributes (target : string) (attributes_ : gmap string Z)
    : M (option (gmap string (option Z))) :=
  let* hookResult := Hooks_call ATTRIBUTE_PRE_ADD in
  if negb hookResult then ret None else
  let targetUuid := target in
  if bool_decide (targetUuid = "") then
    throw "AddAttributes | Could not determine the UUID, please provide a valid target"
  else
  let* targetActor := fromUuid target in
  match targetActor with
  | None => throw "Cannot read properties of null"
  | Some targetActor =>
      if negb (bool_decide (map_Forall (λ attribute _, is_Some (attributes targetActor !! attribute))
                                       attributes_)) then
        throw "AddAttributes | Could not find attribute on target's actor"
      else if negb (bool_decide (map_Forall (λ _ quantity,
                                   (negb (is_real_number quantity) && (0 <? quantity)) = false)
                                            attributes_)) then
        throw "AddAttributes | Attribute must be of type number and greater than 0"
      else
      let* attributesAdded :=
        executeAsGM ADD_ATTRIBUTE (_addAttributes targetUuid (Some <$> attributes_) false) in
      ret (Some attributesAdded)
  end.

(** The [attributes] of the removal: an array of paths, or an object from
    path to quantity. *)
Inductive AttributesArgument : Type :=
  | AttributesArray (paths : list string)
  | AttributesObject (quantities : gmap string Z).

(** The same after the socket, where the quantities are read as numbers. *)
Inductive AttributesData : Type :=
  | DataArray (paths : list string)
  | DataObject (quantities : gmap string (option Z)).

(** [API._removeAttributes(targetUuid, attributes, userId, {interactionId, isTransfer})] *)
Definition _removeAttributes (targetUuid : string) (attributes_ : AttributesData)
    (isTransfer : bool) : M (gmap string (option Z)) :=
  let* target := fromUuid targetUuid in
  match target with
  | None => throw "Cannot read properties of null"
  | Some targetActor =>
      let attributes_ :=
        match attributes_ with
        | DataArray paths =>
            list_to_map (reverse (map (λ attribute, (attribute, attribute_number targetActor attribute))
                                      paths))
        | DataObject quantities => quantities
        end in
      let newQuantity attribute quantityToRemove :=
        number_max0 (number_sub (attribute_number targetActor attribute) quantityToRemove) in
      let updates :=
        map_imap (λ attribute quantityToRemove,
                    Some (newQuantity attribute quantityToRemove)) attributes_ in
      let attributesRemoved :=
        map_imap (λ attribute quantityToRemove,
                    Some (if number_truthy (newQuantity attribute quantityToRemove)
                          then quantityToRemove
                          else attribute_number targetActor attribute)) attributes_ in
      do update_attributes targetUuid updates then
      do call_hook_for_everyone ATTRIBUTE_REMOVE then
      do (if negb isTransfer then
            do _executeItemPileMacro targetUuid "removeAttributes" then
            let* shouldBeDeleted := _checkItemPileShouldBeDeleted targetUuid in
            do rerenderItemPileInventoryApplication targetUuid shouldBeDeleted then
            if shouldBeDeleted then _deleteItemPile targetUuid else ret tt
          else ret tt) then
      ret attributesRemoved
  end.

(** [API.removeAttributes(target, attributes, {interactionId})] *)
Definition removeAttributes (target : string) (attributes_ : AttributesArgument)
    : M (option (gmap string (option Z))) :=
  let* hookResult := Hooks_call ATTRIBUTE_PRE_REMOVE in
  if negb hookResult then ret None else
  let targetUuid := target in
  if bool_decide (targetUuid = "") then
    throw "RemoveAttributes | Could not determine the UUID, please provide a valid target"
  else
  let* targetActor := fromUuid target in
  match targetActor with
  | None => throw "Cannot read properties of null"
  | Some targetActor =>
      match attributes_ with
      | AttributesArray paths =>
          if negb (forallb (λ attribute, bool_decide (is_Some (attributes targetActor !! attribute)))
                           paths) then
            throw "RemoveAttributes | Could not find attribute on target's actor"
          else
          let* attributesRemoved :=
            executeAsGM REMOVE_ATTRIBUTES (_removeAttributes targetUuid (DataArray paths) false) in
          ret (Some attributesRemoved)
      | AttributesObject quantities =>
          if negb (bool_decide (map_Forall (λ attribute _, is_Some (attributes targetActor !! attribute))
                                           quantities)) then
            throw "RemoveAttributes | Could not find attribute on target's actor"
          else if negb (bool_decide (map_Forall (λ _ quantity,
                                       (negb (is_real_number quantity) && (0 <? quantity)) = false)
                                                quantities)) then
            throw "RemoveAttributes | Attribute must be of type number and greater than 0"
          else
          let* attributesRemoved :=
            executeAsGM REMOVE_ATTRIBUTES
              (_removeAttributes targetUuid (DataObject (Some <$> quantities)) false) in
          ret (Some attributesRemoved)
      end
  end.

(** ** Clicking a pile *)

(** [data.distance ? data.distance : Infinity] *)
Inductive Distance : Type :=
  | Infinity
  | Finite (distance : jsval).

(** Modelled from the spec: [lib.tokens_close_enough], which is not among the
    sources; the distance from the token to the pile is compared against the
    maximum distance of the pile, a number or unbounded. *)
Definition tokens_close_enough (token : Token) (maxDistance : Distance) : bool :=
  match maxDistance with
  | Infinity => true
  | Finite (VNum distance) => token_grids token <=? distance
  | Finite _ => false
  end.

(** [validTokens.sort((a, b) => grids(a) - grids(b))]: a stable sort by the
    distance to the pile. *)
Fixpoint sort_insert (token : Token) (sorted : list Token) : list Token :=
  match sorted with
  | [] => [token]
  | other :: rest =>
      if token_grids token <=? token_grids other
      then token :: other :: rest
      else other :: sort_insert token rest
  end.

Definition sort_by_grids (tokens : list Token) : list Token :=
  foldr sort_insert [] tokens.

(** [API._itemPileClicked(pileDocument)] *)
Definition _itemPileClicked (pileDocument : string) : M jsval :=
  let* valid := isValidItemPile pileDocument in
  if negb valid then ret VUndef else
  let* connected := gets gmConnected in
  if negb connected then
    do emit (EWarning "Item Piles requires a GM to be connected for players to be able to loot item piles.") then
    ret VUndef
  else
  let* data := getItemPileData pileDocument in
  let maxDistance :=
    if truthy (prop data "distance") then Finite (prop data "distance") else Infinity in
  let* controlled_ := gets controlled in
  let* placeables_ := gets placeables in
  let* current := gets _token in
  let* gm := gets isGM in
  let validTokens :=
    if bool_decide (0 < length controlled_)%nat then controlled_
    else match current with
         | Some token => token :: placeables_
         | None => placeables_
         end in
  let validTokens :=
    List.filter (λ token, tokens_close_enough token maxDistance || gm) validTokens in
  let validTokens :=
    List.filter (λ token, token_owner token
                          && negb (bool_decide (token_document token = pileDocument)))
                validTokens in
  if bool_decide (validTokens = []) && negb gm then
    do emit (EWarning "ITEM-PILES.Errors.PileTooFar") then
    ret VUndef
  else
  let interactingToken :=
    if bool_decide (validTokens = []) then None
    else if bool_decide (current ∈ map Some validTokens)
         then token_document <$> current
         else token_document <$> head (sort_by_grids validTokens) in
  let show := do emit (EShowInventory pileDocument interactingToken) then ret VUndef in
  if truthy (prop data "isContainer") && bool_decide (is_Some interactingToken) then
    if truthy (prop data "locked") && negb gm then
      rattleItemPile pileDocument interactingToken
    else
      do (if truthy (prop data "closed")
          then do openItemPile pileDocument interactingToken then ret tt
          else ret tt) then
      show
  else show.

(** ** Reading the log *)

Definition is_sound (e : Event) : bool :=
  match e with EPlay _ => true | _ => false end.

Definition is_macro (e : Event) : bool :=
  match e with EMacroExecute _ _ => true | _ => false end.

(** The notifications that follow a change: the hooks fired with
    [Hooks.callAll] on the UPDATED_PILE broadcast. *)
Definition is_post_hook (e : Event) : bool :=
  match e with EHooksCallAll _ => true | _ => false end.


(** The tokens the click handler chooses from. *)
Definition click_candidates (g : Game) : list Token :=
  if bool_decide (0 < length (controlled g))%nat then controlled g
  else match _token g with
       | Some token => token :: placeables g
       | None => placeables g
       end.

(** The maximum distance the click handler reads off the pile data. *)
Definition max_distance (data : PileData) : Distance :=
  if truthy (prop data "distance") then Finite (prop data "distance") else Infinity.


(** The game after a pile took new data. *)
Definition with_pile_data (target : string) (d : Document) (data : PileData)
    (g : Game) : Game :=
  set_docs (insert target (mkDocument (kind d) data (items d) (attributes d))) g.


(** A computation that only logs: it leaves the documents, the settings and
    the id counter of every game as they are. *)
Definition only_logs {A} (m : M A) : Prop :=
  ∀ g, ∃ trace, fst (m g) = logged g trace.


(** A computation that only logs and always returns. *)
Definition logs_and_returns {A} (m : M A) : Prop :=
  ∀ g, ∃ trace a, m g = (logged g trace, Ok a).


(** The game after the actor of a document took new lines. *)
Definition with_items (target : string) (d : Document) (lines : list Item)
    (g : Game) : Game :=
  set_docs (insert target (mkDocument (kind d) (flags d) lines (attributes d))) g.

(** The line of a given id on the actor of a document, if the document and
    the line exist. *)
Definition document_line (g : Game) (uuid id : string) : option Item :=
  match docs g !! uuid with
  | Some d => items_get (items d) id
  | None => None
  end.

(** What the updates of one call make of a line: they are applied in order. *)
Definition apply_updates (updates : list (string * Z)) (item : Item) : Item :=
  foldl (λ line update, if bool_decide (item_id line = update.1)
                        then set_quantity update.2 line else line)
        item updates.

(** The quantity left of a line after a removal of [quantityToRemove]. *)
Definition quantity_left (item : Item) (quantityToRemove : Z) : Z :=
  Z.max 0 (item_quantity item - quantityToRemove).

(** The request of a call that names a line. *)
Definition request_for (requests : list ItemRequest) (id : string) : option ItemRequest :=
  List.find (λ request, bool_decide (request_id request = id)) requests.

(** What a removal makes of a line when the requests have distinct ids. *)
Definition line_after_removal (requests : list ItemRequest) (item : Item) : option Item :=
  match request_for requests (item_id item) with
  | None => Some item
  | Some request =>
      let left := quantity_left item (request_quantity request) in
      if 1 <=? left then Some (set_quantity left item) else None
  end.

(** The macro of a pile can run: the pile is not valid, has no macro, or the
    macro it names exists. *)
Definition macro_available (g : Game) (uuid : string) : bool :=
  match docs g !! uuid with
  | Some d =>
      negb (truthy (prop (flags d) "enabled"))
      || negb (truthy (prop (flags d) "macro"))
      || match prop (flags d) "macro" with
         | VStr name => bool_decide (name ∈ macros g)
         | _ => false
         end
  | None => true
  end.





(** The record a removal reports for a request that names [item]. *)
Definition removal_record (item : Item) (request : ItemRequest) : TransferRecord :=
  if 1 <=? quantity_left item (request_quantity request)
  then mkRecord (set_quantity (request_quantity request) item)
                (request_quantity request) (Some false)
  else mkRecord (set_quantity (item_quantity item) item)
                (item_quantity item) (Some true).

(** The test of [_checkItemPileShouldBeDeleted] on a resolved document. *)
Definition should_be_deleted (default_setting : bool) (d : Document) : bool :=
  bool_decide (kind d = TokenDocument)
  && (truthy (prop (flags d) "enabled")
      && member_truthy (shouldDelete default_setting (prop (flags d) "deleteWhenEmpty"))
      && isItemPileEmpty d).

(** A document with other lines. *)
Definition doc_with_items (d : Document) (lines : list Item) : Document :=
  mkDocument (kind d) (flags d) lines (attributes d).

(** A document with other attributes. *)
Definition doc_with_attributes (d : Document) (values : gmap string (option Z)) : Document :=
  mkDocument (kind d) (flags d) (items d) values.

(** The game after the host handed out ids and an actor took new lines. *)
Definition with_created (target : string) (d : Document) (lines : list Item)
    (made : nat) (g : Game) : Game :=
  set_ids_made made (with_items target d lines g).

(** The records [_addItems] returns for the documents it created. *)
Definition created_records (created : list Item) : list TransferRecord :=
  map (λ item, mkRecord item (item_quantity item) None) created.

(** The quantities [_removeAttributes] works on: those given, or for an array
    of paths the whole of each attribute. *)
Definition removal_quantities (d : Document) (data : AttributesData) : gmap string (option Z) :=
  match data with
  | DataArray paths =>
      list_to_map (reverse (map (λ attribute, (attribute, attribute_number d attribute)) paths))
  | DataObject quantities => quantities
  end.

(** The attributes of a document after [_removeAttributes]. *)
Definition attributes_after_removal (d : Document) (data : AttributesData) : gmap string (option Z) :=
  map_imap (λ attribute quantityToRemove,
              Some (number_max0 (number_sub (attribute_number d attribute) quantityToRemove)))
           (removal_quantities d data)
  ∪ attributes d.



(** ** The identity and the quantities of lines *)







(** The loop of [_addItems], entry by entry. *)
Definition similar_to (lines : list Item) (itemData : ItemData) : option Item :=
  getSimilarItem lines (item_id (data_item itemData))
    (item_name (data_item itemData)) (item_type (data_item itemData)).

Definition incoming (itemData : ItemData) : Z := default 1 (data_quantity itemData).


Definition create_of (lines : list Item) (itemData : ItemData) : option Item :=
  match similar_to lines itemData with
  | Some _ => None
  | None => Some (set_quantity (incoming itemData) (data_item itemData))
  end.

Definition change_of (lines : list Item) (itemData : ItemData) : option (string * Z) :=
  match similar_to lines itemData with
  | Some found => Some (item_id found, item_quantity found + incoming itemData)
  | None => None
  end.


(** Every id was handed out by the host before it made [made] ids. *)
Definition ids_generated (made : nat) (lines : list Item) : Prop :=
  ∀ line, line ∈ lines → ∃ k, (k < made)%nat ∧ item_id line = randomID k.











(** ** Concrete games used by the examples *)

Definition no_consumers : HOOKS → list jsval := λ _, [].

(** A locked chest with its three sounds. *)
Definition chest_data : PileData :=
  list_to_map [("enabled", VBool true); ("isContainer", VBool true);
               ("closed", VBool true); ("locked", VBool true);
               ("openSound", VStr "open.ogg"); ("closeSound", VStr "close.ogg");
               ("lockedSound", VStr "locked.ogg"); ("distance", VNum 2)].

Definition chest : Document := mkDocument TokenDocument chest_data [] ∅.

Definition chest_game : Game :=
  mkGame {["Scene.a.Token.chest" := chest]} 0 no_consumers [] true [] false true
         [] [] None [].

(** The same game where a consumer of PRE_UNLOCK returns [false]. *)
Definition veto_unlock : HOOKS → list jsval :=
  λ hook, match hook with PILE_PRE_UNLOCK => [VBool false] | _ => [] end.

Definition veto_unlock_game : Game :=
  mkGame {["Scene.a.Token.chest" := chest]} 0 veto_unlock [] true [] false true
         [] [] None [].

(** An open crate. *)
Definition crate_data : PileData :=
  list_to_map [("enabled", VBool true); ("isContainer", VBool true);
               ("closed", VBool false); ("locked", VBool false);
               ("closeSound", VStr "close.ogg")].

Definition crate : Document := mkDocument TokenDocument crate_data [] ∅.

Definition crate_game : Game :=
  mkGame {["Scene.a.Token.crate" := crate]} 0 no_consumers [] true [] false true
         [] [] None [].



(** A hero who carries a sword and potions, next to a loot pile that deletes
    itself when emptied and one that does not. *)
Definition sword : Item := mkItem "0" "Sword" "weapon" 5.
Definition potion : Item := mkItem "1" "Potion" "consumable" 3.
Definition gem : Item := mkItem "2" "Gem" "loot" 1.

Definition hero : Document := mkDocument Actor ∅ [sword; potion] ∅.

Definition loot_data (deleteWhenEmpty : jsval) : PileData :=
  list_to_map [("enabled", VBool true); ("deleteWhenEmpty", deleteWhenEmpty)].

Definition loot (deleteWhenEmpty : jsval) : Document :=
  mkDocument TokenDocument (loot_data deleteWhenEmpty) [gem] ∅.

Definition empty_pile : Document :=
  mkDocument TokenDocument (loot_data (VBool false)) [] ∅.

Definition loot_game : Game :=
  mkGame (list_to_map [("Actor.hero", hero);
                       ("Scene.a.Token.loot", loot (VBool true));
                       ("Scene.a.Token.keep", loot (VBool false));
                       ("Scene.a.Token.empty", empty_pile)])
         3 no_consumers [] true [] false true [] [] None [].

(** An actor with five pieces of gold. *)
Definition rich : Document :=
  mkDocument Actor ∅ [] {["currency.gold" := Some 5]}.

Definition rich_game : Game :=
  mkGame {["Actor.rich" := rich]} 0 no_consumers [] true [] false true
         [] [] None [].






(** ** More of the container state machine *)

(** [API.isItemPileContainer(target)]: [data?.enabled && data?.isContainer],
    the first operand when it is falsy, the second otherwise. *)
Definition isItemPileContainer (g : Game) (target : string) : jsval :=
  let data := match docs g !! target with Some d => flags d | None => ∅ end in
  if truthy (prop data "enabled") then prop data "isContainer" else prop data "enabled".

(** [API.toggleItemPileClosed(target, interactingToken)]: the answer is
    [!data.closed] of the data read before the pile was opened or closed. *)
Definition toggleItemPileClosed (target : string) (interactingToken : option string)
    : M jsval :=
  let* data := getItemPileData target in
  if negb (truthy (prop data "enabled")) || negb (truthy (prop data "isContainer"))
  then ret (VBool false) else
  do (if truthy (prop data "closed")
      then openItemPile target interactingToken
      else closeItemPile target interactingToken) then
  ret (VBool (negb (truthy (prop data "closed")))).

(** [API.toggleItemPileLocked(target, interactingToken)] *)
Definition toggleItemPileLocked (target : string) (interactingToken : option string)
    : M jsval :=
  let* data := getItemPileData target in
  if negb (truthy (prop data "enabled")) || negb (truthy (prop data "isContainer"))
  then ret (VBool false) else
  if truthy (prop data "locked")
  then unlockItemPile target interactingToken
  else lockItemPile target interactingToken.

(** ** Deleting a pile, from the API *)

(** [haystack.includes(needle)] *)
Definition includes (haystack needle : string) : bool :=
  match String.index 0 needle haystack with
  | Some _ => true
  | None => false
  end.

(** [API.deleteItemPile(target)].  For a target that is not a valid pile the
    method reads [targetUuid] above the [const] that declares it, which is a
    ReferenceError whatever the target; a call that went through answers
    [Some tt], a vetoed one [None] ([undefined]). *)
Definition deleteItemPile (target : string) : M (option unit) :=
  let* valid := isValidItemPile target in
  if negb valid then
    throw "Cannot access 'targetUuid' before initialization"
  else
  let targetUuid := target in
  if bool_decide (targetUuid = "") then
    throw "deleteItemPile | Could not determine the UUID, please provide a valid target"
  else if negb (includes targetUuid "Token") then
    throw "deleteItemPile | Please provide a Token or TokenDocument"
  else
  let* hookResult := Hooks_call PILE_PRE_DELETE in
  if negb hookResult then ret None else
  do executeAsGM DELETE_PILE (_deleteItemPile targetUuid) then
  ret (Some tt).

(** ** Transferring attributes *)

(** [API._transferAttributes(sourceUuid, targetUuid, attributes, userId,
    {interactionId, isEverything})]: what the removal reports is what the
    addition is given, and what the method returns. *)
Definition _transferAttributes (sourceUuid targetUuid : string)
    (attributes_ : AttributesData) (isEverything : bool)
    : M (gmap string (option Z)) :=
  let* attributesRemoved := _removeAttributes sourceUuid attributes_ true in
  do _addAttributes targetUuid attributesRemoved true then
  do (if negb isEverything then
        do call_hook_for_everyone ATTRIBUTE_TRANSFER then
        do _executeItemPileMacro sourceUuid "transferAttributes" then
        do _executeItemPileMacro targetUuid "transferAttributes" then
        let* shouldBeDeleted := _checkItemPileShouldBeDeleted sourceUuid in
        do rerenderItemPileInventoryApplication sourceUuid shouldBeDeleted then
        do rerenderItemPileInventoryApplication targetUuid false then
        if shouldBeDeleted then _deleteItemPile sourceUuid else ret tt
      else ret tt) then
  ret attributesRemoved.

(** The checks [transferAttributes] makes on one attribute path: the source
    must have it, then the target; the error that is thrown, if any. *)
Definition transfer_path_check (sourceActor targetActor : Document)
    (attribute : string) : option string :=
  if negb (bool_decide (is_Some (attributes sourceActor !! attribute))) then
    Some "TransferAttributes | Could not find attribute on source's actor"
  else if negb (bool_decide (is_Some (attributes targetActor !! attribute))) then
    Some "TransferAttributes | Could not find attribute on target's actor"
  else None.

(** The same on an entry of the object form, where the quantity is tested
    last. *)
Definition transfer_entry_check (sourceActor targetActor : Document)
    (entry : string * Z) : option string :=
  match transfer_path_check sourceActor targetActor entry.1 with
  | Some message => Some message
  | None =>
      if negb (is_real_number entry.2) && (0 <? entry.2) then
        Some "TransferAttributes | Attribute must be of type number and greater than 0"
      else None
  end.

(** [API.transferAttributes(source, target, attributes, {interactionId})].
    The entries are checked one after the other and the first failure is
    thrown; for the object form the embedding visits them in the order of
    its map, which is the order of the object when at most one kind of
    failure occurs. *)
Definition transferAttributes (source target : string) (attributes_ : AttributesArgument)
    : M (option (gmap string (option Z))) :=
  let* hookResult := Hooks_call ATTRIBUTE_PRE_TRANSFER in
  if negb hookResult then ret None else
  let sourceUuid := source in
  if bool_decide (sourceUuid = "") then
    throw "TransferAttributes | Could not determine the UUID, please provide a valid source"
  else
  let targetUuid := target in
  if bool_decide (targetUuid = "") then
    throw "TransferAttributes | Could not determine the UUID, please provide a valid target"
  else
  let* sourceActor := fromUuid source in
  let* targetActor := fromUuid target in
  match sourceActor, targetActor with
  | Some sourceActor, Some targetActor =>
      let failure :=
        match attributes_ with
        | AttributesArray paths =>
            head (omap (transfer_path_check sourceActor targetActor) paths)
        | AttributesObject quantities =>
            head (omap (transfer_entry_check sourceActor targetActor)
                       (map_to_list quantities))
        end in
      match failure with
      | Some message => throw message
      | None =>
          let data :=
            match attributes_ with
            | AttributesArray paths => DataArray paths
            | AttributesObject quantities => DataObject (Some <$> quantities)
            end in
          let* attributesRemoved :=
            executeAsGM TRANSFER_ATTRIBUTES
              (_transferAttributes sourceUuid targetUuid data false) in
          ret (Some attributesRemoved)
      end
  | _, _ => throw "Cannot read properties of null"
  end.

(** ** Observers of the container operations *)

(** The operations of the container state machine. *)
Inductive ContainerOperation : Type :=
  | DoOpen | DoClose | DoLock | DoUnlock | DoToggleClosed | DoToggleLocked.

Definition run_operation (operation : ContainerOperation)
    (target : string) (interactingToken : option string) : M jsval :=
  match operation with
  | DoOpen => openItemPile target interactingToken
  | DoClose => closeItemPile target interactingToken
  | DoLock => lockItemPile target interactingToken
  | DoUnlock => unlockItemPile target interactingToken
  | DoToggleClosed => toggleItemPileClosed target interactingToken
  | DoToggleLocked => toggleItemPileLocked target interactingToken
  end.

(** A pile that reads as locked reads as closed. *)
Definition locked_implies_closed (g : Game) (uuid : string) : Prop :=
  truthy (isItemPileLocked g uuid) = true → truthy (isItemPileClosed g uuid) = true.

(** What an operation writes over the data of the pile. *)
Definition data_after (operation : ContainerOperation) (data : PileData) : PileData :=
  match operation with
  | DoOpen => <["locked" := VBool false]> (<["closed" := VBool false]> data)
  | DoClose => <["closed" := VBool true]> data
  | DoLock => <["locked" := VBool true]> (<["closed" := VBool true]> data)
  | DoUnlock => <["locked" := VBool false]> data
  | DoToggleClosed =>
      if truthy (prop data "closed")
      then <["locked" := VBool false]> (<["closed" := VBool false]> data)
      else <["closed" := VBool true]> data
  | DoToggleLocked =>
      if truthy (prop data "locked")
      then <["locked" := VBool false]> data
      else <["locked" := VBool true]> (<["closed" := VBool true]> data)
  end.

(** The two ways an operation on [target] can leave the game: with more
    logged and nothing written, or with the data of the enabled container
    [target] written over by the operation. *)
Definition left_or_written (operation : ContainerOperation) (g : Game)
    (target : string) (g' : Game) : Prop :=
  (∃ trace, g' = logged g trace)
  ∨ (∃ d trace,
       docs g !! target = Some d
       ∧ truthy (prop (flags d) "enabled") = true
       ∧ truthy (prop (flags d) "isContainer") = true
       ∧ g' = logged (with_pile_data target d (data_after operation (flags d)) g) trace).

(** No consumer of any hook vetoes. *)
Definition nothing_vetoed (g : Game) : Prop :=
  ∀ hook, Hooks_passes g hook = true.

(** ** More examples *)

(** A closed trunk that is not locked, and a game where it names a macro
    that does not exist. *)
Definition trunk_data : PileData :=
  list_to_map [("enabled", VBool true); ("isContainer", VBool true);
               ("closed", VBool true); ("locked", VBool false)].

Definition cursed_trunk : Document :=
  mkDocument TokenDocument (<["macro" := VStr "curse"]> trunk_data) [gem] ∅.

Definition cursed_game : Game :=
  mkGame {["Scene.a.Token.trunk" := cursed_trunk]} 3 no_consumers [] true [] false true
         [] [] None [].

(** The tokens among the candidates that the click handler accepts: close
    enough to the pile or those of a GM, owned, and not the pile itself. *)
Definition click_tokens (g : Game) (pileDocument : string) (data : PileData)
    : list Token :=
  List.filter (λ token, token_owner token
                        && negb (bool_decide (token_document token = pileDocument)))
    (List.filter (λ token, tokens_close_enough token (max_distance data) || isGM g)
       (click_candidates g)).

(** The GM, with a token of their own five grid units from the locked chest,
    further than the chest lets tokens act on it. *)
Definition gm_token : Token := mkToken "Scene.a.Token.gm" true 5.

Definition gm_game : Game :=
  mkGame {["Scene.a.Token.chest" := chest]} 0 no_consumers [] true [] true true
         [gm_token] [gm_token] None [].

(** A player whose only token is five grid units from the chest, which lets
    tokens within two act on it. *)
Definition far_token : Token := mkToken "Scene.a.Token.scout" true 5.

Definition far_game : Game :=
  mkGame {["Scene.a.Token.chest" := chest]} 0 no_consumers [] true [] false true
         [] [far_token] None [].

(** ** Observers of the items of the game *)

(** The lines of the actor of a document, none when it does not resolve. *)
Definition items_of (g : Game) (uuid : string) : list Item :=
  match docs g !! uuid with
  | Some d => items d
  | None => []
  end.

(** The number of items the lines hold together. *)
Definition total_quantity (lines : list Item) : Z :=
  foldr (λ line total, item_quantity line + total) 0 lines.

(** The sum of a list of quantities. *)
Definition sum_of (quantities : list Z) : Z := foldr Z.add 0 quantities.

(** ** Observers of the attributes *)

(** What [_addAttributes] writes and reports. *)
Definition attributes_added (d : Document) (quantities : gmap string (option Z))
    : gmap string (option Z) :=
  map_imap (λ attribute quantityToAdd,
              Some (number_add (attribute_number d attribute) quantityToAdd))
           quantities.

(** What [_removeAttributes] reports. *)
Definition attributes_removed (d : Document) (data : AttributesData)
    : gmap string (option Z) :=
  map_imap (λ attribute quantityToRemove,
              Some (if number_truthy
                         (number_max0 (number_sub (attribute_number d attribute)
                                                  quantityToRemove))
                    then quantityToRemove
                    else attribute_number d attribute))
           (removal_quantities d data).

(** The quantity a removal of [r] takes off an attribute that holds [c]. *)
Definition taken (c r : Z) : Z := if r <? c then r else c.

(** Two purses: a loot pile with gold and silver that deletes itself when
    emptied, and a carrier with some gold. *)
Definition purse : Document :=
  mkDocument TokenDocument (loot_data (VBool true)) []
    (list_to_map [("currency.gold", Some 5); ("currency.silver", Some 2)]).

Definition carrier : Document :=
  mkDocument Actor ∅ [] (list_to_map [("currency.gold", Some 10)]).

Definition purse_game : Game :=
  mkGame (list_to_map [("Scene.a.Token.purse", purse); ("Actor.carrier", carrier)])
         0 no_consumers [] true [] false true [] [] None [].

(** ** Observers of the deletion *)

(** The document resolves and its pile data is enabled. *)
Definition valid_pile (g : Game) (uuid : string) : bool :=
  match docs g !! uuid with
  | Some d => truthy (prop (flags d) "enabled")
  | None => false
  end.

(** The same games where a consumer of PRE_DELETE returns [false]. *)
Definition veto_delete : HOOKS → list jsval :=
  λ hook, match hook with PILE_PRE_DELETE => [VBool false] | _ => [] end.

Definition veto_delete_game : Game :=
  mkGame {["Scene.a.Token.chest" := chest]} 0 veto_delete [] true [] false true
         [] [] None [].

(** ** Observers of the vetoes *)

(** A call that stopped: the game is as it was up to the log, nothing was
    dispatched to the GM, and the call returned [undefined]. *)
Definition stopped {A} (run : Game * result A) (g : Game) (undefined : A) : Prop :=
  ∃ trace,
    run = (logged g trace, Ok undefined)
    ∧ ∀ handler, EExecuteAsGM handler ∉ trace.

(** A game where the consumers of every hook return [false]. *)
Definition veto_all_game : Game :=
  mkGame (list_to_map [("Scene.a.Token.chest", chest); ("Actor.rich", rich)])
         0 (λ _, [VBool false]) [] true [] false true [] [] None [].



(** ** Facts about settings objects *)

Lemma prop_insert_eq (data : PileData) key v : prop (<[key := v]> data) key = v.
Proof. unfold prop. by rewrite lookup_insert_eq. Qed.

Lemma prop_insert_ne (data : PileData) key key' v :
  key ≠ key' → prop (<[key := v]> data) key' = prop data key'.
Proof. intros. unfold prop. by rewrite lookup_insert_ne. Qed.

Lemma prop_empty key : prop ∅ key = VUndef.
Proof. unfold prop. by rewrite lookup_empty. Qed.

Lemma isObjectEmpty_empty : isObjectEmpty ∅ = true.
Proof. unfold isObjectEmpty. by apply bool_decide_eq_true_2. Qed.

Lemma mergeObject_same (data : PileData) : mergeObject data data = data.
Proof. unfold mergeObject. apply (idemp_L (∪)). Qed.

Lemma mergeObject_insert (data : PileData) key v :
  mergeObject data (<[key := v]> data) = <[key := v]> data.
Proof.
  unfold mergeObject. apply map_eq. intros i.
  rewrite lookup_union. destruct (decide (key = i)) as [->|].
  - rewrite lookup_insert_eq. by destruct (data !! i).
  - rewrite lookup_insert_ne by done. by destruct (data !! i).
Qed.

Lemma lookup_diffObject (original other : PileData) key :
  diffObject original other !! key =
  match other !! key with
  | Some v => if decide (original !! key = Some v) then None else Some v
  | None => None
  end.
Proof.
  unfold diffObject. rewrite lookup_merge. unfold diag_None.
  by destruct (original !! key), (other !! key).
Qed.

Lemma diffObject_same (data : PileData) : diffObject data data = ∅.
Proof.
  apply map_eq. intros i. rewrite lookup_diffObject, lookup_empty.
  destruct (data !! i); [by rewrite decide_True|done].
Qed.

Lemma add_log_logged g trace e :
  add_log e (logged g trace) = logged g (trace ++ [e]).
Proof. unfold add_log, logged. simpl. by rewrite app_assoc. Qed.

Lemma add_log_first g e : add_log e g = logged g [e].
Proof. done. Qed.

Lemma Hooks_passes_logged g trace hook :
  Hooks_passes (logged g trace) hook = Hooks_passes g hook.
Proof. done. Qed.

Lemma logged_nil g : logged g [] = g.
Proof. destruct g. unfold logged. simpl. by rewrite app_nil_r. Qed.

Lemma logged_logged g trace trace' :
  logged (logged g trace) trace' = logged g (trace ++ trace').
Proof. unfold logged. simpl. by rewrite app_assoc. Qed.

Lemma set_docs_logged f g trace :
  set_docs f (logged g trace) = logged (set_docs f g) trace.
Proof. done. Qed.

Lemma only_logs_ret {A} (a : A) : only_logs (ret a).
Proof. intros g. exists []. by rewrite logged_nil. Qed.

Lemma only_logs_throw {A} e : only_logs (@throw A e).
Proof. intros g. exists []. by rewrite logged_nil. Qed.

Lemma only_logs_gets {A} (f : Game → A) : only_logs (gets f).
Proof. intros g. exists []. by rewrite logged_nil. Qed.

Lemma only_logs_emit e : only_logs (emit e).
Proof. intros g. by exists [e]. Qed.

Lemma only_logs_bind {A B} (m : M A) (k : A → M B) :
  only_logs m → (∀ a, only_logs (k a)) → only_logs (bind m k).
Proof.
  intros Hm Hk g. unfold bind. destruct (Hm g) as [trace Htrace].
  destruct (m g) as [g' [a|e]]; simpl in *; subst.
  - destruct (Hk a (logged g trace)) as [trace' ->].
    exists (trace ++ trace'). apply logged_logged.
  - by exists trace.
Qed.

Lemma only_logs_detached {A} (m : M A) : only_logs m → only_logs (detached m).
Proof. intros Hm g. apply Hm. Qed.

Lemma only_logs_if {A} (b : bool) (m1 m2 : M A) :
  only_logs m1 → only_logs m2 → only_logs (if b then m1 else m2).
Proof. by destruct b. Qed.

Ltac only_logs :=
  repeat match goal with
    | |- only_logs (ret _) => apply only_logs_ret
    | |- only_logs (throw _) => apply only_logs_throw
    | |- only_logs (gets _) => apply only_logs_gets
    | |- only_logs (emit _) => apply only_logs_emit
    | |- only_logs (detached _) => apply only_logs_detached
    | |- only_logs (bind _ _) => apply only_logs_bind; [|intros ?]
    | |- only_logs (if _ then _ else _) => apply only_logs_if
    end.

Lemma only_logs_Hooks_call hook : only_logs (Hooks_call hook).
Proof. unfold Hooks_call. only_logs. Qed.

Lemma only_logs_macro targetUuid action :
  only_logs (_executeItemPileMacro targetUuid action).
Proof.
  unfold _executeItemPileMacro, isValidItemPile, getItemPileData. only_logs.
  match goal with |- only_logs (match ?v with _ => _ end) => destruct v end;
    only_logs.
Qed.

Lemma only_logs_updated targetUuid diff :
  only_logs (_updatedItemPile targetUuid diff).
Proof.
  unfold _updatedItemPile, getItemPileData, Hooks_callAll. only_logs.
Qed.

Lemma only_logs_rerender uuid deleted :
  only_logs (rerenderItemPileInventoryApplication uuid deleted).
Proof.
  unfold rerenderItemPileInventoryApplication, executeForEveryone. only_logs.
Qed.

Lemma only_logs_call_hook hook : only_logs (call_hook_for_everyone hook).
Proof. unfold call_hook_for_everyone. only_logs. Qed.

(** What a computation that only logs leaves alone. *)
Lemma only_logs_docs {A} (m : M A) g : only_logs m → docs (fst (m g)) = docs g.
Proof. intros Hm. by destruct (Hm g) as [trace ->]. Qed.

(** Unfolding of the monad and of the collaborators. *)
Ltac unfold_M :=
  cbv beta iota delta
    [bind ret gets emit modify throw detached Hooks_call Hooks_callAll
     AudioHelper_play executeAsGM executeForEveryone call_hook_for_everyone
     getItemPileData isValidItemPile fromUuid].


Lemma logs_and_returns_ret {A} (a : A) : logs_and_returns (ret a).
Proof. intros g. exists [], a. by rewrite logged_nil. Qed.

Lemma logs_and_returns_gets {A} (f : Game → A) : logs_and_returns (gets f).
Proof. intros g. exists [], (f g). by rewrite logged_nil. Qed.

Lemma logs_and_returns_emit e : logs_and_returns (emit e).
Proof. intros g. by exists [e], tt. Qed.

Lemma logs_and_returns_bind {A B} (m : M A) (k : A → M B) :
  logs_and_returns m → (∀ a, logs_and_returns (k a)) → logs_and_returns (bind m k).
Proof.
  intros Hm Hk g. unfold bind. destruct (Hm g) as (trace & a & ->).
  destruct (Hk a (logged g trace)) as (trace' & b & ->).
  exists (trace ++ trace'), b. by rewrite logged_logged.
Qed.

Lemma logs_and_returns_detached {A} (m : M A) :
  only_logs m → logs_and_returns (detached m).
Proof.
  intros Hm g. destruct (Hm g) as [trace Htrace].
  exists trace, tt. unfold detached. by rewrite Htrace.
Qed.

Lemma logs_and_returns_if {A} (b : bool) (m1 m2 : M A) :
  logs_and_returns m1 → logs_and_returns m2 →
  logs_and_returns (if b then m1 else m2).
Proof. by destruct b. Qed.

Ltac logs_and_returns :=
  repeat match goal with
    | |- logs_and_returns (ret _) => apply logs_and_returns_ret
    | |- logs_and_returns (gets _) => apply logs_and_returns_gets
    | |- logs_and_returns (emit _) => apply logs_and_returns_emit
    | |- logs_and_returns (detached _) => apply logs_and_returns_detached
    | |- logs_and_returns (bind _ _) => apply logs_and_returns_bind; [|intros ?]
    | |- logs_and_returns (if _ then _ else _) => apply logs_and_returns_if
    end.

(** ** Running the steps of the coordinator *)

Lemma bind_Ok {A B} (m : M A) (k : A → M B) g g' a :
  m g = (g', Ok a) → bind m k g = k a g'.
Proof. intros H. unfold bind. by rewrite H. Qed.

Lemma bind_Throw {A B} (m : M A) (k : A → M B) g g' e :
  m g = (g', Throw e) → bind m k g = (g', Throw e).
Proof. intros H. unfold bind. by rewrite H. Qed.

Lemma bind_ret {A B} (a : A) (k : A → M B) g : bind (ret a) k g = k a g.
Proof. done. Qed.

Lemma bind_assoc {A B C} (m : M A) (k1 : A → M B) (k2 : B → M C) g :
  bind (bind m k1) k2 g = bind m (λ a, bind (k1 a) k2) g.
Proof. unfold bind. by destruct (m g) as [g' [a|e]]. Qed.

Lemma bind_emit {B} e (k : unit → M B) g :
  bind (emit e) k g = k tt (logged g [e]).
Proof. done. Qed.

Lemma bind_gets {A B} (f : Game → A) (k : A → M B) g :
  bind (gets f) k g = k (f g) g.
Proof. done. Qed.

Lemma Hooks_call_run hook g :
  Hooks_call hook g = (logged g [EHooksCall hook], Ok (Hooks_passes g hook)).
Proof. done. Qed.

Lemma getItemPileData_run target g d :
  docs g !! target = Some d → getItemPileData target g = (g, Ok (flags d)).
Proof. intros H. unfold getItemPileData, gets. by rewrite H. Qed.

Lemma docs_logged g trace : docs (logged g trace) = docs g.
Proof. done. Qed.

(** The UPDATE_PILE handler on a resolved document: the merged data is
    persisted and the handler returns. *)
Lemma _updateItemPile_run g target newData d :
  docs g !! target = Some d →
  ∃ trace,
    _updateItemPile target newData g =
      (logged (set_docs (insert target
                 (mkDocument (kind d) (mergeObject (flags d) newData)
                             (items d) (attributes d))) g) trace,
       Ok VUndef).
Proof.
  intros Hdoc. unfold _updateItemPile.
  rewrite (bind_Ok _ _ _ _ _ (getItemPileData_run _ _ _ Hdoc)).
  assert (Hwrite : lib_updateItemPile target (mergeObject (flags d) newData) g =
    (set_docs (insert target (mkDocument (kind d) (mergeObject (flags d) newData)
                                         (items d) (attributes d))) g, Ok tt)).
  { unfold lib_updateItemPile. by rewrite Hdoc. }
  rewrite (bind_Ok _ _ _ _ _ Hwrite).
  match goal with |- ∃ trace, bind ?m _ ?g1 = _ =>
    assert (Hmacros : logs_and_returns m)
  end.
  { logs_and_returns; apply only_logs_macro. }
  match goal with |- ∃ trace, bind ?m _ ?g1 = _ =>
    destruct (Hmacros g1) as (trace & [] & Hrun)
  end.
  rewrite (bind_Ok _ _ _ _ _ Hrun).
  match goal with |- ∃ trace, bind ?m _ ?g1 = _ =>
    assert (Hbroadcast : logs_and_returns m)
  end.
  { unfold executeForEveryone. logs_and_returns.
    unfold _updatedItemPile, getItemPileData, Hooks_callAll. logs_and_returns. }
  match goal with |- ∃ trace, bind ?m _ ?g1 = _ =>
    destruct (Hbroadcast g1) as (trace' & [] & Hrun')
  end.
  rewrite (bind_Ok _ _ _ _ _ Hrun'). unfold ret.
  exists (trace ++ trace'). by rewrite logged_logged.
Qed.

Lemma updateItemPile_run g target newData interactingToken d :
  target ≠ "" →
  interactingToken ≠ Some "" →
  docs g !! target = Some d →
  Hooks_passes g PILE_PRE_UPDATE = true →
  ∃ trace,
    updateItemPile target newData interactingToken g =
      (logged (with_pile_data target d (mergeObject (flags d) newData) g) trace,
       Ok VUndef).
Proof.
  intros Htarget Htoken Hdoc Hpass. unfold updateItemPile.
  rewrite (bool_decide_eq_false_2 _ Htarget), (bool_decide_eq_false_2 _ Htoken).
  rewrite (bind_Ok _ _ _ _ _ (Hooks_call_run _ _)), Hpass. simpl.
  unfold executeAsGM, emit, modify. unfold bind at 1.
  destruct (_updateItemPile_run (add_log (EExecuteAsGM UPDATE_PILE)
              (logged g [EHooksCall PILE_PRE_UPDATE])) target newData d Hdoc)
    as [trace ->].
  eexists. unfold with_pile_data. rewrite add_log_logged, set_docs_logged, logged_logged.
  reflexivity.
Qed.

Lemma updateItemPile_veto g target newData interactingToken :
  target ≠ "" →
  interactingToken ≠ Some "" →
  Hooks_passes g PILE_PRE_UPDATE = false →
  updateItemPile target newData interactingToken g =
    (logged g [EHooksCall PILE_PRE_UPDATE], Ok VUndef).
Proof.
  intros Htarget Htoken Hpass. unfold updateItemPile.
  rewrite (bool_decide_eq_false_2 _ Htarget), (bool_decide_eq_false_2 _ Htoken).
  by rewrite (bind_Ok _ _ _ _ _ (Hooks_call_run _ _)), Hpass.
Qed.

Lemma isItemPileClosed_with_pile_data target d data g :
  truthy (prop data "enabled") = true →
  truthy (prop data "isContainer") = true →
  isItemPileClosed (with_pile_data target d data g) target = prop data "closed".
Proof.
  intros He Hc. unfold isItemPileClosed, with_pile_data. simpl.
  rewrite lookup_insert_eq. simpl. by rewrite He, Hc.
Qed.

Lemma isItemPileLocked_with_pile_data target d data g :
  truthy (prop data "enabled") = true →
  truthy (prop data "isContainer") = true →
  isItemPileLocked (with_pile_data target d data g) target = prop data "locked".
Proof.
  intros He Hc. unfold isItemPileLocked, with_pile_data. simpl.
  rewrite lookup_insert_eq. simpl. by rewrite He, Hc.
Qed.

Lemma isItemPileClosed_logged g trace target :
  isItemPileClosed (logged g trace) target = isItemPileClosed g target.
Proof. done. Qed.

Lemma isItemPileLocked_logged g trace target :
  isItemPileLocked (logged g trace) target = isItemPileLocked g target.
Proof. done. Qed.

(** C4.  A lock of an enabled container that no consumer of PRE_CLOSE,
    PRE_LOCK or PRE_UPDATE vetoes runs to its end, and afterwards the pile
    is both closed and locked, whatever its state was before. *)
Theorem lockItemPile_closes (g : Game) (target : string)
    (interactingToken : option string) (d : Document) :
  target ≠ "" →
  interactingToken ≠ Some "" →
  docs g !! target = Some d →
  truthy (prop (flags d) "enabled") = true →
  truthy (prop (flags d) "isContainer") = true →
  Hooks_passes g PILE_PRE_CLOSE = true →
  Hooks_passes g PILE_PRE_LOCK = true →
  Hooks_passes g PILE_PRE_UPDATE = true →
  ∃ g', lockItemPile target interactingToken g = (g', Ok VUndef)
        ∧ isItemPileClosed g' target = VBool true
        ∧ isItemPileLocked g' target = VBool true.
Proof.
  intros Htarget Htoken Hdoc Henabled Hcontainer Hclose Hlock Hupdate.
  unfold lockItemPile.
  rewrite (bind_Ok _ _ _ _ _ (getItemPileData_run _ _ _ Hdoc)).
  rewrite Henabled, Hcontainer. simpl.
  set (data := <["locked" := VBool true]> (<["closed" := VBool true]> (flags d))).
  assert (Hmerge : mergeObject (flags d) data = data).
  { unfold data, mergeObject. apply map_eq. intros key.
    rewrite lookup_union.
    destruct (decide ("locked" = key)) as [<-|];
      [rewrite lookup_insert_eq; by destruct (flags d !! "locked")|].
    rewrite lookup_insert_ne by done.
    destruct (decide ("closed" = key)) as [<-|];
      [rewrite lookup_insert_eq; by destruct (flags d !! "closed")|].
    rewrite lookup_insert_ne by done. by destruct (flags d !! key). }
  assert (Hdata_enabled : truthy (prop data "enabled") = true).
  { unfold data. by rewrite !prop_insert_ne. }
  assert (Hdata_container : truthy (prop data "isContainer") = true).
  { unfold data. by rewrite !prop_insert_ne. }
  assert (Hend : ∀ g0 trace0, g0 = logged g trace0 →
    ∃ g', updateItemPile target data interactingToken g0 = (g', Ok VUndef)
          ∧ isItemPileClosed g' target = VBool true
          ∧ isItemPileLocked g' target = VBool true).
  { intros g0 trace0 ->.
    destruct (updateItemPile_run (logged g trace0) target data interactingToken d)
      as [trace ->]; try done.
    eexists. split; [done|].
    rewrite Hmerge, isItemPileClosed_logged, isItemPileLocked_logged.
    rewrite isItemPileClosed_with_pile_data, isItemPileLocked_with_pile_data by done.
    unfold data. rewrite prop_insert_eq, prop_insert_ne, prop_insert_eq by done.
    done. }
  destruct (truthy (prop (flags d) "closed")) eqn:Hwas; cbn [negb andb].
  - rewrite bind_ret. cbn [negb].
    rewrite (bind_Ok _ _ _ _ _ (Hooks_call_run _ _)), Hlock. cbn [negb].
    rewrite bind_ret.
    by apply (Hend _ [EHooksCall PILE_PRE_LOCK]).
  - rewrite (bind_Ok _ _ _ _ _ (Hooks_call_run _ _)), Hclose. cbn [negb].
    rewrite (bind_Ok _ _ _ _ _ (Hooks_call_run _ _)), Hooks_passes_logged, Hlock.
    cbn [negb]. rewrite logged_logged.
    destruct (truthy (prop data "closeSound")).
    + unfold AudioHelper_play. rewrite bind_emit, logged_logged. by eapply Hend.
    + rewrite bind_ret. by eapply Hend.
Qed.

Lemma lockItemPile_closes_witness :
  ∃ g', lockItemPile "Scene.a.Token.crate" None crate_game = (g', Ok VUndef)
        ∧ isItemPileClosed g' "Scene.a.Token.crate" = VBool true
        ∧ isItemPileLocked g' "Scene.a.Token.crate" = VBool true.
Proof.
  apply (lockItemPile_closes crate_game "Scene.a.Token.crate" None crate);
    try done; vm_compute; reflexivity.
Defined.

(** ** Opening a locked pile *)


Lemma sort_insert_not_nil token sorted : sort_insert token sorted ≠ [].
Proof. destruct sorted; simpl; [done|]. by case_match. Qed.

Lemma sort_by_grids_not_nil tokens : tokens ≠ [] → sort_by_grids tokens ≠ [].
Proof.
  destruct tokens as [|token rest]; [done|]. intros _. simpl.
  apply sort_insert_not_nil.
Qed.




(** ** The vetoes of the pre-operation hooks *)

(** The siblings of [unlockItemPile] stop at a veto: nothing but the call of
    the hook is logged and the call returns [undefined]. *)
Lemma closeItemPile_veto g target interactingToken d :
  docs g !! target = Some d →
  truthy (prop (flags d) "enabled") = true →
  truthy (prop (flags d) "isContainer") = true →
  Hooks_passes g PILE_PRE_CLOSE = false →
  closeItemPile target interactingToken g =
    (logged g [EHooksCall PILE_PRE_CLOSE], Ok VUndef).
Proof.
  intros Hdoc Henabled Hcontainer Hveto. unfold closeItemPile.
  rewrite (bind_Ok _ _ _ _ _ (getItemPileData_run _ _ _ Hdoc)).
  rewrite Henabled, Hcontainer. cbn [negb orb].
  by rewrite (bind_Ok _ _ _ _ _ (Hooks_call_run _ _)), Hveto.
Qed.

Lemma openItemPile_veto_unlock g target interactingToken d :
  docs g !! target = Some d →
  truthy (prop (flags d) "enabled") = true →
  truthy (prop (flags d) "isContainer") = true →
  truthy (prop (flags d) "locked") = true →
  Hooks_passes g PILE_PRE_UNLOCK = false →
  openItemPile target interactingToken g =
    (logged g [EHooksCall PILE_PRE_UNLOCK], Ok VUndef).
Proof.
  intros Hdoc Henabled Hcontainer Hlocked Hveto. unfold openItemPile.
  rewrite (bind_Ok _ _ _ _ _ (getItemPileData_run _ _ _ Hdoc)).
  rewrite Henabled, Hcontainer, Hlocked. cbn [negb orb].
  by rewrite (bind_Ok _ _ _ _ _ (Hooks_call_run _ _)), Hveto.
Qed.

Lemma lockItemPile_veto g target interactingToken d :
  docs g !! target = Some d →
  truthy (prop (flags d) "enabled") = true →
  truthy (prop (flags d) "isContainer") = true →
  truthy (prop (flags d) "closed") = true →
  Hooks_passes g PILE_PRE_LOCK = false →
  lockItemPile target interactingToken g =
    (logged g [EHooksCall PILE_PRE_LOCK], Ok VUndef).
Proof.
  intros Hdoc Henabled Hcontainer Hclosed Hveto. unfold lockItemPile.
  rewrite (bind_Ok _ _ _ _ _ (getItemPileData_run _ _ _ Hdoc)).
  rewrite Henabled, Hcontainer, Hclosed. cbn [negb orb].
  rewrite bind_ret. cbn [negb].
  by rewrite (bind_Ok _ _ _ _ _ (Hooks_call_run _ _)), Hveto.
Qed.

Lemma addItems_veto g target entries :
  Hooks_passes g ITEM_PRE_ADD = false →
  addItems target entries g = (logged g [EHooksCall ITEM_PRE_ADD], Ok None).
Proof.
  intros Hveto. unfold addItems.
  by rewrite (bind_Ok _ _ _ _ _ (Hooks_call_run _ _)), Hveto.
Qed.

Lemma transferItems_veto g source target entries :
  Hooks_passes g ITEM_PRE_TRANSFER = false →
  transferItems source target entries g =
    (logged g [EHooksCall ITEM_PRE_TRANSFER], Ok None).
Proof.
  intros Hveto. unfold transferItems.
  by rewrite (bind_Ok _ _ _ _ _ (Hooks_call_run _ _)), Hveto.
Qed.

(** C6, at the input where the code departs from it.  A consumer of
    PRE_UNLOCK returns [false], and [unlockItemPile] on the locked chest goes
    on all the same: the update is dispatched to the GM, the chest is
    persisted unlocked and the UNLOCK notification fires. *)
Theorem unlockItemPile_ignores_veto :
  Hooks_passes veto_unlock_game PILE_PRE_UNLOCK = false
  ∧ isItemPileLocked veto_unlock_game "Scene.a.Token.chest" = VBool true
  ∧ let run := unlockItemPile "Scene.a.Token.chest" None veto_unlock_game in
    snd run = Ok VUndef
    ∧ isItemPileLocked (fst run) "Scene.a.Token.chest" = VBool false
    ∧ log (fst run) =
        [EHooksCall PILE_PRE_UNLOCK; EHooksCall PILE_PRE_UPDATE;
         EExecuteAsGM UPDATE_PILE; EExecuteForEveryone UPDATED_PILE;
         EUpdatedPile "Scene.a.Token.chest" {["locked" := VBool false]};
         EHooksCallAll PILE_UPDATE; EHooksCallAll PILE_UNLOCK].
Proof. vm_compute. repeat split. Qed.

(** C7.  Closing an enabled container that is already closed: the diff of the
    pile data before the write against the merged data is empty, the stored
    documents are unchanged, and the effects of the call are at most the two
    cancelable pre-hooks, the dispatch to the GM and the broadcast of the
    empty diff: no sound is played, no macro runs and no post-hook fires. *)
Theorem closeItemPile_already_closed (g : Game) (target : string)
    (interactingToken : option string) (d : Document) :
  target ≠ "" →
  interactingToken ≠ Some "" →
  docs g !! target = Some d →
  truthy (prop (flags d) "enabled") = true →
  truthy (prop (flags d) "isContainer") = true →
  flags d !! "closed" = Some (VBool true) →
  diffObject (flags d)
    (mergeObject (flags d) (<["closed" := VBool true]> (flags d))) = ∅
  ∧ ∃ trace,
      closeItemPile target interactingToken g = (logged g trace, Ok VUndef)
      ∧ (∀ e, e ∈ trace →
           is_sound e = false ∧ is_macro e = false ∧ is_post_hook e = false)
      ∧ (∀ diff, EUpdatedPile target diff ∈ trace → diff = ∅).
Proof.
  intros Htarget Htoken Hdoc Henabled Hcontainer Hclosed.
  assert (Hid : <["closed" := VBool true]> (flags d) = flags d)
    by (by apply insert_id).
  split.
  { by rewrite mergeObject_insert, Hid, diffObject_same. }
  unfold_M; unfold closeItemPile; unfold_M.
  rewrite Hdoc, Henabled, Hcontainer. simpl.
  rewrite add_log_first, Hooks_passes_logged.
  destruct (Hooks_passes g PILE_PRE_CLOSE) eqn:Hpre; simpl.
  2: { eexists. split; [done|]. split; intros ? Hin.
       - apply list_elem_of_singleton in Hin as ->. done.
       - by apply list_elem_of_singleton in Hin. }
  assert (Hwas : truthy (prop (flags d) "closed") = true)
    by (unfold prop; by rewrite Hclosed).
  rewrite Hwas, Hid. simpl.
  unfold updateItemPile; unfold_M.
  rewrite (bool_decide_eq_false_2 _ Htarget), (bool_decide_eq_false_2 _ Htoken).
  rewrite add_log_logged, Hooks_passes_logged.
  destruct (Hooks_passes g PILE_PRE_UPDATE) eqn:Hupd; simpl.
  2: { eexists. split; [done|]. split; intros ? Hin.
       - apply elem_of_cons in Hin as [->|Hin]; [done|].
         apply list_elem_of_singleton in Hin as ->. done.
       - apply elem_of_cons in Hin as [?|Hin]; [done|].
         by apply list_elem_of_singleton in Hin. }
  unfold _updateItemPile; unfold_M.
  simpl. rewrite Hdoc, mergeObject_same, diffObject_same.
  unfold lib_updateItemPile. simpl. rewrite Hdoc.
  rewrite Henabled, Hcontainer. simpl.
  unfold _updatedItemPile; unfold_M.
  rewrite !prop_empty, isObjectEmpty_empty. simpl.
  assert (Hdocs : <[target := mkDocument (kind d) (flags d) (items d) (attributes d)]> (docs g) = docs g).
  { apply insert_id. rewrite Hdoc. by destruct d. }
  unfold set_docs, add_log, logged. simpl. rewrite Hdocs.
  eexists. split.
  { rewrite <- !app_assoc. simpl. reflexivity. }
  split; intros ? Hin.
  - repeat (apply elem_of_cons in Hin as [->|Hin]; [done|]).
    by apply elem_of_nil in Hin.
  - repeat (apply elem_of_cons in Hin as [Heq|Hin]; [try done; by inversion Heq|]).
    by apply elem_of_nil in Hin.
Qed.

Lemma closeItemPile_already_closed_witness :
  diffObject chest_data
    (mergeObject chest_data (<["closed" := VBool true]> chest_data)) = ∅
  ∧ ∃ trace,
      closeItemPile "Scene.a.Token.chest" None chest_game
        = (logged chest_game trace, Ok VUndef)
      ∧ (∀ e, e ∈ trace →
           is_sound e = false ∧ is_macro e = false ∧ is_post_hook e = false)
      ∧ (∀ diff, EUpdatedPile "Scene.a.Token.chest" diff ∈ trace → diff = ∅).
Proof.
  apply (closeItemPile_already_closed chest_game "Scene.a.Token.chest" None chest);
    try done; vm_compute; reflexivity.
Defined.

(** ** The embedded collection *)

Lemma item_id_set_quantity q item : item_id (set_quantity q item) = item_id item.
Proof. done. Qed.

Lemma item_id_apply_updates updates item :
  item_id (apply_updates updates item) = item_id item.
Proof.
  revert item. induction updates as [|u updates IH]; intros item; [done|].
  simpl. rewrite IH. by case_bool_decide.
Qed.

Lemma updateEmbeddedDocuments_map updates lines :
  updateEmbeddedDocuments updates lines = map (apply_updates updates) lines.
Proof.
  unfold updateEmbeddedDocuments. revert lines.
  induction updates as [|u updates IH]; intros lines; simpl.
  - by rewrite map_id.
  - rewrite IH, map_map. done.
Qed.

Lemma apply_updates_not_in updates item :
  item_id item ∉ map fst updates → apply_updates updates item = item.
Proof.
  revert item. induction updates as [|u updates IH]; intros item Hnot; [done|].
  simpl in *. apply not_elem_of_cons in Hnot as [Hne Hnot].
  rewrite bool_decide_eq_false_2 by done. by apply IH.
Qed.

Lemma apply_updates_in updates item q :
  NoDup (map fst updates) → (item_id item, q) ∈ updates →
  apply_updates updates item = set_quantity q item.
Proof.
  revert item. induction updates as [|u updates IH]; intros item Hnodup Hin.
  { by apply elem_of_nil in Hin. }
  simpl in *. apply NoDup_cons in Hnodup as [Hfresh Hnodup].
  apply elem_of_cons in Hin as [<-|Hin].
  - simpl. rewrite bool_decide_eq_true_2 by done.
    by apply apply_updates_not_in.
  - assert (Hne : item_id item ≠ u.1).
    { intros Heq. apply Hfresh. rewrite <- Heq.
      apply list_elem_of_fmap. by exists (item_id item, q). }
    rewrite bool_decide_eq_false_2 by done. by apply IH.
Qed.

Lemma items_get_Some lines id item :
  items_get lines id = Some item → item ∈ lines ∧ item_id item = id.
Proof.
  unfold items_get. intros H. apply find_some in H as [Hin Heq].
  apply bool_decide_eq_true_1 in Heq. by rewrite list_elem_of_In.
Qed.

Lemma items_get_None lines id :
  items_get lines id = None ↔ id ∉ map item_id lines.
Proof.
  unfold items_get. induction lines as [|line lines IH]; simpl.
  - split; [intros _; apply not_elem_of_nil|done].
  - case_bool_decide as Heq.
    + split; [done|]. intros Hnot. exfalso. apply Hnot. rewrite Heq. left.
    + rewrite IH. rewrite not_elem_of_cons. intuition congruence.
Qed.

Lemma items_get_in lines item :
  NoDup (map item_id lines) → item ∈ lines →
  items_get lines (item_id item) = Some item.
Proof.
  unfold items_get. induction lines as [|line lines IH]; intros Hnodup Hin.
  { by apply elem_of_nil in Hin. }
  simpl in *. apply NoDup_cons in Hnodup as [Hfresh Hnodup].
  apply elem_of_cons in Hin as [<-|Hin].
  - by rewrite bool_decide_eq_true_2.
  - rewrite bool_decide_eq_false_2; [by apply IH|].
    intros Heq. apply Hfresh. rewrite Heq. by apply list_elem_of_fmap_2.
Qed.

(** ** The loop of the removal *)

Lemma request_for_Some requests id request :
  request_for requests id = Some request →
  request ∈ requests ∧ request_id request = id.
Proof.
  unfold request_for. intros H. apply find_some in H as [Hin Heq].
  apply bool_decide_eq_true_1 in Heq. by rewrite list_elem_of_In.
Qed.

Lemma request_for_None requests id :
  request_for requests id = None ↔ id ∉ map request_id requests.
Proof.
  unfold request_for. induction requests as [|r requests IH]; simpl.
  - split; [intros _; apply not_elem_of_nil|done].
  - case_bool_decide as Heq.
    + split; [done|]. intros Hnot. exfalso. apply Hnot. rewrite Heq. left.
    + rewrite IH. rewrite not_elem_of_cons. intuition congruence.
Qed.

Lemma request_for_in requests request :
  NoDup (map request_id requests) → request ∈ requests →
  request_for requests (request_id request) = Some request.
Proof.
  unfold request_for. induction requests as [|r requests IH]; intros Hnodup Hin.
  { by apply elem_of_nil in Hin. }
  simpl in *. apply NoDup_cons in Hnodup as [Hfresh Hnodup].
  apply elem_of_cons in Hin as [<-|Hin].
  - by rewrite bool_decide_eq_true_2.
  - rewrite bool_decide_eq_false_2; [by apply IH|].
    intros Heq. apply Hfresh. rewrite Heq. by apply list_elem_of_fmap_2.
Qed.

(** The loop succeeds exactly when every requested id names a line. *)
Lemma remove_loop_is_Some lines requests :
  (∀ request, request ∈ requests →
     is_Some (items_get lines (request_id request))) →
  is_Some (remove_loop lines requests).
Proof.
  induction requests as [|r requests IH]; intros Hall; simpl; [by eexists|].
  destruct (Hall r) as [item Hitem]; [left|].
  destruct IH as [[[removed up] del] ->].
  { intros request Hin. apply Hall. by right. }
  unfold remove_step. rewrite Hitem. by destruct (1 <=? _); eexists.
Qed.

(** The updates and the deletions the loop queues, seen from a line. *)
Lemma remove_loop_untouched lines requests removed updates deletes id :
  remove_loop lines requests = Some (removed, updates, deletes) →
  id ∉ map request_id requests →
  (id ∉ map fst updates) ∧ (id ∉ deletes).
Proof.
  revert removed updates deletes.
  induction requests as [|r requests IH]; intros removed updates deletes Hloop Hnot.
  { simpl in Hloop. simplify_eq. split; apply not_elem_of_nil. }
  simpl in Hloop, Hnot. apply not_elem_of_cons in Hnot as [Hne Hnot].
  destruct (remove_step lines r) as [[[record up] del]|] eqn:Hstep; [|done].
  destruct (remove_loop lines requests) as [[[removed' up'] del']|]; [|done].
  simplify_eq. destruct (IH _ _ _ eq_refl Hnot) as [Hup Hdel].
  unfold remove_step in Hstep.
  destruct (items_get lines (request_id r)) as [item|] eqn:Hitem; [|done].
  apply items_get_Some in Hitem as [_ Hid].
  case_match; simplify_eq; simpl.
  - split; [|done]. rewrite not_elem_of_cons. by rewrite Hid.
  - split; [done|]. rewrite not_elem_of_cons. by rewrite Hid.
Qed.

Lemma remove_loop_touched lines requests removed updates deletes request item :
  NoDup (map request_id requests) →
  remove_loop lines requests = Some (removed, updates, deletes) →
  request ∈ requests →
  items_get lines (request_id request) = Some item →
  let left := quantity_left item (request_quantity request) in
  if 1 <=? left
  then ((item_id item, left) ∈ updates) ∧ (item_id item ∉ deletes)
  else (item_id item ∉ map fst updates) ∧ (item_id item ∈ deletes).
Proof.
  intros Hnodup Hloop Hin Hitem. revert removed updates deletes Hloop Hnodup Hin.
  induction requests as [|r requests IH];
    intros removed updates deletes Hloop Hnodup Hin.
  { by apply elem_of_nil in Hin. }
  simpl in Hloop, Hnodup. apply NoDup_cons in Hnodup as [Hfresh Hnodup].
  destruct (remove_step lines r) as [[[record up] del]|] eqn:Hstep; [|done].
  destruct (remove_loop lines requests) as [[[removed' up'] del']|] eqn:Hrest;
    [|done].
  simplify_eq. pose proof (items_get_Some _ _ _ Hitem) as [_ Hid].
  apply elem_of_cons in Hin as [->|Hin].
  - destruct (remove_loop_untouched _ _ _ _ _ _ Hrest Hfresh) as [Hup Hdel].
    unfold remove_step in Hstep. rewrite Hitem in Hstep.
    fold (quantity_left item (request_quantity r)) in Hstep.
    simpl. rewrite Hid.
    destruct (1 <=? quantity_left item (request_quantity r)); simplify_eq; simpl.
    + rewrite Hid. split; [left|done].
    + rewrite Hid. split; [done|left].
  - specialize (IH _ _ _ eq_refl Hnodup Hin). simpl in IH.
    assert (Hne : request_id r ≠ request_id request).
    { intros Heq. apply Hfresh. rewrite Heq. by apply list_elem_of_fmap_2. }
    unfold remove_step in Hstep.
    destruct (items_get lines (request_id r)) as [item'|] eqn:Hitem'; [|done].
    apply items_get_Some in Hitem' as [_ Hid'].
    simpl.
    destruct (1 <=? 0 `max` (item_quantity item' - request_quantity r));
      simplify_eq; simpl;
      destruct (1 <=? quantity_left item (request_quantity request));
      destruct IH as [IH1 IH2];
      rewrite ?not_elem_of_cons, ?elem_of_cons; rewrite ?Hid, ?Hid' in *;
      intuition (auto; congruence).
Qed.

Lemma remove_loop_updates_NoDup lines requests removed updates deletes :
  NoDup (map request_id requests) →
  remove_loop lines requests = Some (removed, updates, deletes) →
  NoDup (map fst updates).
Proof.
  revert removed updates deletes.
  induction requests as [|r requests IH]; intros removed updates deletes Hnodup Hloop.
  { simpl in Hloop. simplify_eq. constructor. }
  simpl in Hloop, Hnodup. apply NoDup_cons in Hnodup as [Hfresh Hnodup].
  destruct (remove_step lines r) as [[[record up] del]|] eqn:Hstep; [|done].
  destruct (remove_loop lines requests) as [[[removed' up'] del']|] eqn:Hrest;
    [|done].
  simplify_eq. specialize (IH _ _ _ Hnodup eq_refl).
  destruct (remove_loop_untouched _ _ _ _ _ _ Hrest Hfresh) as [Hup _].
  unfold remove_step in Hstep.
  destruct (items_get lines (request_id r)) as [item|] eqn:Hitem; [|done].
  apply items_get_Some in Hitem as [_ Hid].
  case_match; simplify_eq; simpl; [|done].
  apply NoDup_cons. by rewrite Hid.
Qed.

(** The lines a removal leaves, when the lines and the requests have distinct
    ids: each line fares as [line_after_removal] says. *)
Lemma remove_loop_lines lines requests removed updates deletes :
  NoDup (map item_id lines) →
  NoDup (map request_id requests) →
  remove_loop lines requests = Some (removed, updates, deletes) →
  deleteEmbeddedDocuments deletes (updateEmbeddedDocuments updates lines)
  = omap (line_after_removal requests) lines.
Proof.
  intros Hlines Hrequests Hloop.
  rewrite updateEmbeddedDocuments_map. unfold deleteEmbeddedDocuments.
  assert (Hpoint : ∀ item, item ∈ lines →
    (if negb (bool_decide (item_id (apply_updates updates item) ∈ deletes))
     then Some (apply_updates updates item) else None)
    = line_after_removal requests item).
  { intros item Hin. rewrite item_id_apply_updates. unfold line_after_removal.
    destruct (request_for requests (item_id item)) as [request|] eqn:Hreq.
    - apply request_for_Some in Hreq as [Hreq Hid].
      assert (Hget : items_get lines (request_id request) = Some item)
        by (rewrite Hid; by apply items_get_in).
      pose proof (remove_loop_touched _ _ _ _ _ _ _ Hrequests Hloop Hreq Hget) as H.
      simpl in H. destruct (1 <=? quantity_left item (request_quantity request)).
      + destruct H as [Hup Hdel]. rewrite bool_decide_eq_false_2 by done. simpl.
        f_equal. apply apply_updates_in; [|done].
        by eapply remove_loop_updates_NoDup.
      + destruct H as [Hup Hdel]. by rewrite bool_decide_eq_true_2.
    - apply request_for_None in Hreq.
      destruct (remove_loop_untouched _ _ _ _ _ _ Hloop Hreq) as [Hup Hdel].
      rewrite bool_decide_eq_false_2 by done. simpl. f_equal.
      by apply apply_updates_not_in. }
  clear Hlines Hloop. induction lines as [|line lines IH]; [done|].
  simpl. rewrite <- (Hpoint line) by left.
  rewrite IH by (intros; apply Hpoint; by right).
  by destruct (negb _).
Qed.

(** ** Running the item handlers *)

Lemma set_items_run g target d f :
  docs g !! target = Some d →
  set_items target f g = (with_items target d (f (items d)) g, Ok tt).
Proof. intros H. unfold set_items, modify, set_docs, with_items. by rewrite H. Qed.

Lemma docs_with_items target d lines g :
  docs (with_items target d lines g) = <[target := doc_with_items d lines]> (docs g).
Proof. done. Qed.

Lemma lookup_with_items target d lines g :
  docs (with_items target d lines g) !! target = Some (doc_with_items d lines).
Proof. rewrite docs_with_items. apply lookup_insert_eq. Qed.

Lemma with_items_twice target d lines lines' g :
  with_items target (doc_with_items d lines) lines' (with_items target d lines g)
  = with_items target d lines' g.
Proof.
  unfold with_items, set_docs. simpl. by rewrite insert_insert_eq.
Qed.

Lemma with_items_logged target d lines g trace :
  with_items target d lines (logged g trace) = logged (with_items target d lines g) trace.
Proof. done. Qed.



Lemma fromUuid_run g uuid : fromUuid uuid g = (g, Ok (docs g !! uuid)).
Proof. done. Qed.

Lemma macro_available_logged g trace uuid :
  macro_available (logged g trace) uuid = macro_available g uuid.
Proof. done. Qed.

Lemma macro_available_with_items g target d lines uuid :
  docs g !! target = Some d →
  macro_available (with_items target d lines g) uuid = macro_available g uuid.
Proof.
  intros Hdoc. unfold macro_available. rewrite docs_with_items.
  destruct (decide (target = uuid)) as [->|Hne].
  - by rewrite lookup_insert_eq, Hdoc.
  - by rewrite lookup_insert_ne.
Qed.

(** A macro that can run returns; it logs at most its execution. *)
Lemma _executeItemPileMacro_run g uuid action :
  macro_available g uuid = true →
  ∃ trace, _executeItemPileMacro uuid action g = (logged g trace, Ok tt).
Proof.
  intros Havailable. unfold _executeItemPileMacro, macro_available in *.
  unfold isValidItemPile, getItemPileData, gets. unfold bind at 1.
  destruct (docs g !! uuid) as [d|] eqn:Hdoc.
  2: { exists []. by rewrite logged_nil. }
  destruct (truthy (prop (flags d) "enabled")); simpl in *.
  2: { exists []. by rewrite logged_nil. }
  unfold bind at 1. rewrite Hdoc.
  destruct (truthy (prop (flags d) "macro")); simpl in *.
  2: { exists []. by rewrite logged_nil. }
  unfold bind at 1.
  destruct (prop (flags d) "macro"); try done.
  rewrite Havailable. by exists [EMacroExecute s action].
Qed.

Lemma _checkItemPileShouldBeDeleted_run g uuid d :
  docs g !! uuid = Some d →
  _checkItemPileShouldBeDeleted uuid g =
    (g, Ok (should_be_deleted (deleteEmptyPiles g) d)).
Proof.
  intros Hdoc. unfold _checkItemPileShouldBeDeleted, should_be_deleted.
  rewrite (bind_Ok _ _ _ _ _ (fromUuid_run _ _)), Hdoc.
  by destruct (bool_decide (kind d = TokenDocument)).
Qed.

Lemma rerender_run g uuid deleted :
  rerenderItemPileInventoryApplication uuid deleted g =
    (logged g [EExecuteForEveryone RERENDER_PILE_INVENTORY; ERerender uuid deleted],
     Ok tt).
Proof.
  unfold rerenderItemPileInventoryApplication, executeForEveryone.
  rewrite bind_emit. unfold emit, modify. by rewrite add_log_logged.
Qed.

Lemma _deleteItemPile_run g uuid d :
  docs g !! uuid = Some d →
  _deleteItemPile uuid g = (set_docs (delete uuid) g, Ok tt).
Proof.
  intros Hdoc. unfold _deleteItemPile.
  by rewrite (bind_Ok _ _ _ _ _ (fromUuid_run _ _)), Hdoc.
Qed.



(** What the tail of a removal that is not a step of a transfer does: the
    macro, the test, the re-rendering and the deletion. *)
Lemma removal_tail_run g uuid d action :
  docs g !! uuid = Some d →
  macro_available g uuid = true →
  ∃ trace,
    (do _executeItemPileMacro uuid action then
     let* shouldBeDeleted := _checkItemPileShouldBeDeleted uuid in
     do rerenderItemPileInventoryApplication uuid shouldBeDeleted then
     if shouldBeDeleted then _deleteItemPile uuid else ret tt) g
    = (logged (if should_be_deleted (deleteEmptyPiles g) d
               then set_docs (delete uuid) g else g) trace,
       Ok tt).
Proof.
  intros Hdoc Havailable.
  destruct (_executeItemPileMacro_run g uuid action Havailable) as [trace Hmacro].
  rewrite (bind_Ok _ _ _ _ _ Hmacro).
  rewrite (bind_Ok _ _ _ _ _
             (_checkItemPileShouldBeDeleted_run (logged g trace) _ d Hdoc)).
  rewrite (bind_Ok _ _ _ _ _ (rerender_run _ _ _)).
  change (deleteEmptyPiles (logged g trace)) with (deleteEmptyPiles g).
  rewrite logged_logged.
  destruct (should_be_deleted (deleteEmptyPiles g) d).
  - rewrite (_deleteItemPile_run (logged g _) _ d Hdoc). eexists.
    rewrite set_docs_logged. reflexivity.
  - eexists. unfold ret. reflexivity.
Qed.

(** The REMOVE_ITEMS handler as a step of a transfer. *)
Lemma _removeItems_transfer_run g target d requests removed updates deletes :
  docs g !! target = Some d →
  remove_loop (items d) requests = Some (removed, updates, deletes) →
  _removeItems target requests true g =
    (logged (with_items target d
               (deleteEmbeddedDocuments deletes
                  (updateEmbeddedDocuments updates (items d))) g)
            [ECallHook ITEM_REMOVE],
     Ok removed).
Proof.
  intros Hdoc Hloop. unfold _removeItems.
  rewrite (bind_Ok _ _ _ _ _ (fromUuid_run _ _)), Hdoc, Hloop.
  rewrite (bind_Ok _ _ _ _ _ (set_items_run _ _ d _ Hdoc)).
  rewrite (bind_Ok _ _ _ _ _ (set_items_run _ _ _ _ (lookup_with_items _ _ _ _))).
  simpl items. rewrite with_items_twice.
  unfold call_hook_for_everyone. rewrite bind_emit. cbn [negb].
  by rewrite bind_ret.
Qed.

(** The REMOVE_ITEMS handler called for itself. *)
Lemma _removeItems_run g target d requests removed updates deletes :
  docs g !! target = Some d →
  remove_loop (items d) requests = Some (removed, updates, deletes) →
  macro_available g target = true →
  let d' := doc_with_items d
              (deleteEmbeddedDocuments deletes
                 (updateEmbeddedDocuments updates (items d))) in
  ∃ trace,
    _removeItems target requests false g =
      (logged (if should_be_deleted (deleteEmptyPiles g) d'
               then set_docs (delete target) g
               else with_items target d (items d') g) trace,
       Ok removed).
Proof.
  intros Hdoc Hloop Havailable d'. unfold _removeItems.
  rewrite (bind_Ok _ _ _ _ _ (fromUuid_run _ _)), Hdoc, Hloop.
  rewrite (bind_Ok _ _ _ _ _ (set_items_run _ _ d _ Hdoc)).
  rewrite (bind_Ok _ _ _ _ _ (set_items_run _ _ _ _ (lookup_with_items _ _ _ _))).
  simpl items. rewrite with_items_twice.
  unfold call_hook_for_everyone. rewrite bind_emit. cbn [negb].
  match goal with |- ∃ trace, bind _ _ ?g1 = _ =>
    destruct (removal_tail_run g1 target d' "removeItems") as [trace Htail]
  end.
  { apply lookup_with_items. }
  { by rewrite macro_available_logged, macro_available_with_items. }
  rewrite (bind_Ok _ _ _ _ _ Htail). unfold ret. simpl deleteEmptyPiles.
  exists ([ECallHook ITEM_REMOVE] ++ trace).
  destruct (should_be_deleted (deleteEmptyPiles g) d').
  - rewrite set_docs_logged, logged_logged. f_equal. f_equal.
    unfold with_items, set_docs. simpl. by rewrite delete_insert_eq.
  - by rewrite logged_logged.
Qed.

(** ** The lines and the records of a removal *)

Lemma remove_loop_records lines requests removed updates deletes i request item :
  remove_loop lines requests = Some (removed, updates, deletes) →
  requests !! i = Some request →
  items_get lines (request_id request) = Some item →
  removed !! i = Some (removal_record item request).
Proof.
  revert removed updates deletes i.
  induction requests as [|r requests IH];
    intros removed updates deletes i Hloop Hi Hitem; [done|].
  simpl in Hloop.
  destruct (remove_step lines r) as [[[record up] del]|] eqn:Hstep; [|done].
  destruct (remove_loop lines requests) as [[[removed' up'] del']|] eqn:Hrest;
    [|done].
  simplify_eq. destruct i as [|i]; simpl in *.
  - simplify_eq. unfold remove_step in Hstep. rewrite Hitem in Hstep.
    unfold removal_record, quantity_left. by case_match; simplify_eq.
  - by eapply IH.
Qed.

Lemma line_after_removal_id requests item item' :
  line_after_removal requests item = Some item' → item_id item' = item_id item.
Proof.
  unfold line_after_removal. intros H.
  repeat case_match; by simplify_eq.
Qed.

Lemma items_get_after_removal requests lines item :
  NoDup (map item_id lines) → item ∈ lines →
  items_get (omap (line_after_removal requests) lines) (item_id item)
  = line_after_removal requests item.
Proof.
  induction lines as [|line lines IH]; intros Hnodup Hin.
  { by apply elem_of_nil in Hin. }
  simpl in Hnodup. apply NoDup_cons in Hnodup as [Hfresh Hnodup].
  assert (Hrest : ∀ id, id ∉ map item_id lines →
            items_get (omap (line_after_removal requests) lines) id = None).
  { intros id Hid. apply items_get_None. intros Hmem. apply Hid.
    apply list_elem_of_fmap in Hmem as (line' & -> & Hmem).
    apply list_elem_of_omap in Hmem as (line0 & Hmem & Hline0).
    apply line_after_removal_id in Hline0 as ->. by apply list_elem_of_fmap_2. }
  simpl. apply elem_of_cons in Hin as [->|Hin].
  - destruct (line_after_removal requests line) as [line'|] eqn:Hline.
    + unfold items_get. simpl.
      by rewrite (line_after_removal_id _ _ _ Hline), bool_decide_eq_true_2.
    + by apply Hrest.
  - assert (Hne : item_id line ≠ item_id item).
    { intros Heq. apply Hfresh. rewrite Heq. by apply list_elem_of_fmap_2. }
    destruct (line_after_removal requests line) as [line'|] eqn:Hline.
    + unfold items_get. simpl.
      rewrite (line_after_removal_id _ _ _ Hline), bool_decide_eq_false_2 by done.
      by apply IH.
    + by apply IH.
Qed.

(** C1, amended.  A removal of [r] from a line that holds [c] leaves
    [max(0, c - r)] on the line.  When that is 0 the line is gone and the record reports the [c]
    that were there, with [deleted] set; otherwise the line holds
    [max(0, c - r)] and the record reports [r], with [deleted] unset.  This
    holds of every request of a call whose requests name distinct lines. *)
Theorem _removeItems_line (g : Game) (targetUuid : string) (d : Document)
    (requests : list ItemRequest) (isTransfer : bool)
    (i : nat) (request : ItemRequest) (item : Item) :
  docs g !! targetUuid = Some d →
  NoDup (map item_id (items d)) →
  NoDup (map request_id requests) →
  (∀ other, other ∈ requests →
     is_Some (items_get (items d) (request_id other))) →
  (isTransfer = false → macro_available g targetUuid = true) →
  requests !! i = Some request →
  items_get (items d) (request_id request) = Some item →
  let c := item_quantity item in
  let r := request_quantity request in
  ∃ g' itemsRemoved,
    _removeItems targetUuid requests isTransfer g = (g', Ok itemsRemoved)
    ∧ if bool_decide (Z.max 0 (c - r) = 0)
      then document_line g' targetUuid (request_id request) = None
           ∧ itemsRemoved !! i = Some (mkRecord (set_quantity c item) c (Some true))
      else document_line g' targetUuid (request_id request)
             = Some (set_quantity (Z.max 0 (c - r)) item)
           ∧ itemsRemoved !! i = Some (mkRecord (set_quantity r item) r (Some false)).
Proof.
  intros Hdoc Hlines Hrequests Hall Hmacro Hi Hitem c r.
  destruct (remove_loop_is_Some _ _ Hall) as [[[removed updates] deletes] Hloop].
  pose proof (remove_loop_records _ _ _ _ _ _ _ _ Hloop Hi Hitem) as Hrecord.
  pose proof (remove_loop_lines _ _ _ _ _ Hlines Hrequests Hloop) as Hleft.
  pose proof (items_get_Some _ _ _ Hitem) as [Hin Hid].
  assert (Hreq : request_for requests (item_id item) = Some request).
  { rewrite Hid. apply request_for_in; [done|]. by eapply list_elem_of_lookup_2. }
  assert (Hline : items_get (omap (line_after_removal requests) (items d))
                    (request_id request)
                  = if 1 <=? Z.max 0 (c - r)
                    then Some (set_quantity (Z.max 0 (c - r)) item) else None).
  { rewrite <- Hid, items_get_after_removal by done.
    unfold line_after_removal. by rewrite Hreq. }
  assert (Hcase : (1 <=? Z.max 0 (c - r)) = negb (bool_decide (Z.max 0 (c - r) = 0))).
  { case_bool_decide; simpl; lia. }
  destruct isTransfer.
  - rewrite (_removeItems_transfer_run _ _ _ _ _ _ _ Hdoc Hloop).
    eexists _, _. split; [done|].
    unfold document_line. simpl docs. rewrite lookup_insert_eq. simpl items.
    rewrite Hleft, Hline, Hrecord. unfold removal_record, quantity_left.
    fold c r. rewrite Hcase. by case_bool_decide.
  - destruct (_removeItems_run _ _ _ _ _ _ _ Hdoc Hloop (Hmacro eq_refl))
      as [trace ->].
    eexists _, _. split; [done|].
    rewrite Hrecord. unfold removal_record, quantity_left. fold c r.
    rewrite Hcase. unfold document_line.
    destruct (should_be_deleted _ _) eqn:Hdeleted.
    + simpl docs. rewrite lookup_delete_eq.
      assert (Hempty : omap (line_after_removal requests) (items d) = []).
      { unfold should_be_deleted, isItemPileEmpty in Hdeleted.
        rewrite !andb_true_iff, !bool_decide_eq_true in Hdeleted.
        simpl in Hdeleted. rewrite Hleft in Hdeleted. tauto. }
      rewrite Hempty in Hline. unfold items_get in Hline. simpl in Hline.
      rewrite Hcase in Hline. by case_bool_decide.
    + simpl docs. rewrite lookup_insert_eq. simpl items.
      rewrite Hleft, Hline, Hcase. by case_bool_decide.
Qed.

Lemma _removeItems_line_witness :
  ∃ g' itemsRemoved,
    _removeItems "Actor.hero" [mkRequest "0" 2; mkRequest "1" 7] false loot_game
      = (g', Ok itemsRemoved)
    ∧ document_line g' "Actor.hero" "1" = None
    ∧ itemsRemoved !! 1%nat = Some (mkRecord potion 3 (Some true)).
Proof.
  apply (_removeItems_line loot_game "Actor.hero" hero
           [mkRequest "0" 2; mkRequest "1" 7] false 1 (mkRequest "1" 7) potion);
    try (vm_compute; reflexivity).
  - apply (bool_decide_unpack _). vm_compute. exact I.
  - apply (bool_decide_unpack _). vm_compute. exact I.
  - intros other Hin. apply list_elem_of_In in Hin.
    destruct Hin as [<-|[<-|[]]]; vm_compute; eexists; reflexivity.
Defined.

(** C1, with a line requested twice.  Every request is computed on the line
    as it was before the call and the writes come after the loop: asked for
    2 and then for 7 of a line that holds 5, the call reports 2 with
    [deleted] unset and then 5 with [deleted] set, 7 in all, and the line,
    which the first record says holds 3, is gone. *)
Theorem _removeItems_repeated_request :
  items_get (items hero) "0" = Some sword
  ∧ item_quantity sword = 5
  ∧ ∃ g',
      _removeItems "Actor.hero" [mkRequest "0" 2; mkRequest "0" 7] false loot_game
      = (g', Ok [mkRecord (set_quantity 2 sword) 2 (Some false);
                 mkRecord (set_quantity 5 sword) 5 (Some true)])
      ∧ document_line g' "Actor.hero" "0" = None.
Proof.
  split; [reflexivity|]. split; [reflexivity|].
  eexists. split; vm_compute; reflexivity.
Qed.

(** ** Running the ADD_ITEMS handler *)

Lemma macro_available_with_created g target d lines made uuid :
  docs g !! target = Some d →
  macro_available (with_created target d lines made g) uuid = macro_available g uuid.
Proof. intros Hdoc. by apply macro_available_with_items. Qed.

(** The state and the records of [_addItems]: the creations come first, the
    updates second, and the records of the matches precede those of the
    creations. *)
Lemma _addItems_run g target d entries isTransfer added toCreate toUpdate :
  docs g !! target = Some d →
  add_loop (items d) entries = (added, toCreate, toUpdate) →
  (isTransfer = false → macro_available g target = true) →
  let created := created_documents (ids_made g) toCreate in
  ∃ trace,
    _addItems target entries isTransfer g =
      (logged (with_created target d
                 (updateEmbeddedDocuments toUpdate (items d ++ created))
                 (ids_made g + length toCreate) g) trace,
       Ok (added ++ created_records created)).
Proof.
  intros Hdoc Hloop Hmacro created. unfold _addItems.
  rewrite (bind_Ok _ _ _ _ _ (fromUuid_run _ _)), Hdoc, Hloop.
  unfold createEmbeddedDocuments.
  unfold gets at 1, modify at 1. unfold bind at 1 2 3 4.
  assert (Hcreate : set_items target (λ lines : list Item, lines ++ created)
                      (set_ids_made (ids_made g + length toCreate) g)
                    = (with_items target d (items d ++ created)
                         (set_ids_made (ids_made g + length toCreate) g), Ok tt)).
  { by apply set_items_run. }
  fold created. rewrite Hcreate. unfold ret at 1.
  rewrite (bind_Ok _ _ _ _ _ (set_items_run _ _ _ _ (lookup_with_items _ _ _ _))).
  simpl items. rewrite with_items_twice.
  unfold call_hook_for_everyone. rewrite bind_emit.
  change (with_items target d ?l (set_ids_made ?n g)) with (with_created target d l n g).
  destruct isTransfer; cbn [negb].
  - rewrite bind_ret. by eexists.
  - match goal with |- ∃ trace, bind (bind _ _) _ ?g1 = _ =>
      destruct (_executeItemPileMacro_run g1 target "addItems") as [trace Hrun]
    end.
    { rewrite macro_available_logged, macro_available_with_created by done. auto. }
    unfold bind at 1. unfold bind at 1. rewrite Hrun.
    rewrite rerender_run. unfold ret. eexists. by rewrite !logged_logged.
Qed.

Lemma created_documents_cons made item data :
  created_documents made (item :: data)
  = set_id (randomID made) item :: created_documents (S made) data.
Proof.
  unfold created_documents. simpl. rewrite Nat.add_0_r. f_equal.
  apply imap_ext. intros i x _. simpl. f_equal. f_equal. lia.
Qed.

(** C3.  Adding [n] of an item to a pile that has no line, then [m] of an item
    of the same id, name and type: both calls return, and the pile then
    holds one line, of that name and type, with quantity [n + m]. *)
Theorem _addItems_twice_merges (g : Game) (targetUuid : string) (d : Document)
    (id name type : string) (q1 q2 n m : Z) :
  docs g !! targetUuid = Some d →
  items d = [] →
  macro_available g targetUuid = true →
  ∃ g1 added1 g2 added2 line,
    _addItems targetUuid [mkItemData (mkItem id name type q1) (Some n)] false g
      = (g1, Ok added1)
    ∧ _addItems targetUuid [mkItemData (mkItem id name type q2) (Some m)] false g1
      = (g2, Ok added2)
    ∧ docs g2 !! targetUuid = Some (doc_with_items d [line])
    ∧ item_name line = name ∧ item_type line = type
    ∧ item_quantity line = n + m.
Proof.
  intros Hdoc Hempty Hmacro.
  destruct (_addItems_run g targetUuid d
              [mkItemData (mkItem id name type q1) (Some n)] false
              [] [mkItem id name type n] [] Hdoc) as [trace1 Hrun1].
  { by rewrite Hempty. }
  { done. }
  rewrite Hempty in Hrun1. simpl in Hrun1.
  set (line1 := set_id (randomID (ids_made g + 0)) (mkItem id name type n)) in *.
  set (g1 := logged (with_created targetUuid d [line1] (ids_made g + 1) g) trace1) in *.
  assert (Hdoc1 : docs g1 !! targetUuid = Some (doc_with_items d [line1])).
  { apply lookup_with_items. }
  destruct (_addItems_run g1 targetUuid (doc_with_items d [line1])
              [mkItemData (mkItem id name type q2) (Some m)] false
              [mkRecord (set_quantity (n + m) line1) m None] []
              [(item_id line1, n + m)] Hdoc1) as [trace2 Hrun2].
  { simpl. unfold add_step, getSimilarItem. simpl.
    rewrite !(bool_decide_eq_true_2 (name = name)) by done.
    rewrite !(bool_decide_eq_true_2 (type = type)) by done.
    by rewrite orb_true_r. }
  { intros _. subst g1.
    by rewrite macro_available_logged, macro_available_with_created. }
  simpl in Hrun2. rewrite bool_decide_eq_true_2 in Hrun2 by done.
  eexists _, _, _, _, (set_quantity (n + m) line1).
  split; [exact Hrun1|]. split; [exact Hrun2|]. split; [|done].
  simpl docs. rewrite lookup_insert_eq. done.
Qed.

Lemma _addItems_twice_merges_witness :
  ∃ g1 added1 g2 added2 line,
    _addItems "Scene.a.Token.empty" [mkItemData (mkItem "1" "Potion" "consumable" 3) (Some 2)]
      false loot_game = (g1, Ok added1)
    ∧ _addItems "Scene.a.Token.empty" [mkItemData (mkItem "1" "Potion" "consumable" 1) (Some 4)]
        false g1 = (g2, Ok added2)
    ∧ docs g2 !! "Scene.a.Token.empty" = Some (doc_with_items empty_pile [line])
    ∧ item_name line = "Potion" ∧ item_type line = "consumable"
    ∧ item_quantity line = 2 + 4.
Proof.
  apply (_addItems_twice_merges loot_game "Scene.a.Token.empty" empty_pile);
    vm_compute; reflexivity.
Defined.

(** C10.  One call whose list holds two entries of the same id, name and
    type, neither of which matches a line the actor had when the call
    started: both are created, each under its own id, after the lines that
    were there; the second is not merged into the first. *)
Theorem _addItems_same_identity_twice (g : Game) (targetUuid : string)
    (d : Document) (id name type : string) (q1 q2 : Z)
    (quantity1 quantity2 : option Z) (isTransfer : bool) :
  docs g !! targetUuid = Some d →
  getSimilarItem (items d) id name type = None →
  (isTransfer = false → macro_available g targetUuid = true) →
  let line1 := mkItem (randomID (ids_made g)) name type (default 1 quantity1) in
  let line2 := mkItem (randomID (S (ids_made g))) name type (default 1 quantity2) in
  ∃ g',
    _addItems targetUuid
      [mkItemData (mkItem id name type q1) quantity1;
       mkItemData (mkItem id name type q2) quantity2] isTransfer g
      = (g', Ok [mkRecord line1 (default 1 quantity1) None;
                 mkRecord line2 (default 1 quantity2) None])
    ∧ docs g' !! targetUuid = Some (doc_with_items d (items d ++ [line1; line2]))
    ∧ item_id line1 ≠ item_id line2.
Proof.
  intros Hdoc Hnone Hmacro line1 line2.
  destruct (_addItems_run g targetUuid d
              [mkItemData (mkItem id name type q1) quantity1;
               mkItemData (mkItem id name type q2) quantity2] isTransfer
              [] [mkItem id name type (default 1 quantity1);
                  mkItem id name type (default 1 quantity2)] [] Hdoc)
    as [trace Hrun]; [|done|].
  { simpl. unfold add_step. simpl. by rewrite Hnone. }
  rewrite !created_documents_cons in Hrun. simpl in Hrun.
  eexists. split; [exact Hrun|]. split.
  - simpl docs. by rewrite lookup_insert_eq.
  - simpl. unfold randomID. intros Heq. apply (inj pretty) in Heq. lia.
Qed.

Lemma _addItems_same_identity_twice_witness :
  ∃ g',
    _addItems "Actor.hero"
      [mkItemData (mkItem "9" "Arrow" "ammo" 20) (Some 2);
       mkItemData (mkItem "9" "Arrow" "ammo" 20) (Some 3)] true loot_game
      = (g', Ok [mkRecord (mkItem "3" "Arrow" "ammo" 2) 2 None;
                 mkRecord (mkItem "4" "Arrow" "ammo" 3) 3 None])
    ∧ docs g' !! "Actor.hero"
      = Some (doc_with_items hero
                ([sword; potion]
                 ++ [mkItem "3" "Arrow" "ammo" 2; mkItem "4" "Arrow" "ammo" 3]))
    ∧ "3" ≠ "4".
Proof.
  apply (_addItems_same_identity_twice loot_game "Actor.hero" hero "9" "Arrow" "ammo"
           20 20 (Some 2) (Some 3) true);
    vm_compute; reflexivity.
Defined.

(** ** The automatic deletion *)



Lemma update_attributes_run g target d updates :
  docs g !! target = Some d →
  update_attributes target updates g =
    (set_docs (insert target (doc_with_attributes d (updates ∪ attributes d))) g, Ok tt).
Proof.
  intros H. unfold update_attributes, modify, set_docs. by rewrite H.
Qed.




(** ** The validation of attribute quantities *)

(** The test [!lib.is_real_number(quantity) && quantity > 0] rejects no
    number, whatever its sign. *)
Lemma quantity_test_passes_numbers (quantity : Z) :
  negb (is_real_number quantity) && (0 <? quantity) = false.
Proof. done. Qed.

(** C9, at the input where the code departs from it.  [addAttributes] and
    [removeAttributes] are given the quantity [-5] for an attribute that
    holds 5: neither throws, both dispatch to the GM, and the attribute is
    written: 0 after the addition, 10 after the removal. *)
Theorem attributes_accept_negative_quantity :
  (let run := addAttributes "Actor.rich" {["currency.gold" := -5]} rich_game in
   snd run = Ok (Some {["currency.gold" := Some 0]})
   ∧ log (fst run) = [EHooksCall ATTRIBUTE_PRE_ADD; EExecuteAsGM ADD_ATTRIBUTE;
                      ECallHook ATTRIBUTE_ADD]
   ∧ attributes <$> docs (fst run) !! "Actor.rich"
     = Some {["currency.gold" := Some 0]})
  ∧ (let run := removeAttributes "Actor.rich"
                  (AttributesObject {["currency.gold" := -5]}) rich_game in
     snd run = Ok (Some {["currency.gold" := Some (-5)]})
     ∧ log (fst run) = [EHooksCall ATTRIBUTE_PRE_REMOVE; EExecuteAsGM REMOVE_ATTRIBUTES;
                        ECallHook ATTRIBUTE_REMOVE;
                        EExecuteForEveryone RERENDER_PILE_INVENTORY;
                        ERerender "Actor.rich" false]
     ∧ attributes <$> docs (fst run) !! "Actor.rich"
       = Some {["currency.gold" := Some 10]}).
Proof. vm_compute. repeat split. Qed.

(** ** The loops, entry by entry *)



Lemma removal_record_item item request :
  removal_record item request =
    mkRecord (set_quantity (record_quantity (removal_record item request)) item)
             (record_quantity (removal_record item request))
             (Some (negb (1 <=? quantity_left item (request_quantity request)))).
Proof. unfold removal_record. by destruct (1 <=? _). Qed.





(** ** The documents the host creates *)

Lemma created_documents_length made data :
  length (created_documents made data) = length data.
Proof. unfold created_documents. apply length_imap. Qed.







Lemma ids_generated_mono made made' lines :
  ids_generated made lines → (made ≤ made')%nat → ids_generated made' lines.
Proof.
  intros Hgen Hle line Hin. destruct (Hgen line Hin) as (k & Hk & Hid).
  exists k. split; [lia|done].
Qed.

(** ** Lists without repetition *)









(** ** Matching on the identity *)





(** ** The lines after a removal *)







(** ** The entries a transfer hands from the removal to the addition *)









(** ** The add step, line by line *)

Section AddStage.
Variables (lines : list Item) (entries : list ItemData) (made : nat).

Hypothesis lines_ids : NoDup (map item_id lines).
Hypothesis entries_ids :
  ∀ e, e ∈ entries → item_id (data_item e) ∉ map item_id lines.
Hypothesis entries_identities :
  NoDup (map (λ e, identity (data_item e)) entries).
Hypothesis lines_generated : ids_generated made lines.

Let updates := omap (change_of lines) entries.
Let created := created_documents made (omap (create_of lines) entries).











End AddStage.






(** ** The round trip of a transfer, on the lines of the two actors *)

Section RoundTrip.
Variables (LA LB : list Item) (requests : list ItemRequest) (made : nat).

Hypothesis HA_ids : NoDup (map item_id LA).
Hypothesis HA_identities : NoDup (map identity LA).
Hypothesis HB_ids : NoDup (map item_id LB).
Hypothesis HB_positive : ∀ line, line ∈ LB → 1 ≤ item_quantity line.
Hypothesis Hdisjoint : ∀ a b, a ∈ LA → b ∈ LB → item_id a ≠ item_id b.
Hypothesis HA_generated : ids_generated made LA.
Hypothesis HB_generated : ids_generated made LB.
Hypothesis Hrequests : NoDup (map request_id requests).


































End RoundTrip.


(** ** The round trip of a transfer, in the world *)













(** * Further properties of the coordinator *)

(** ** The container state machine *)

Lemma mergeObject_covering (data data' : PileData) :
  (∀ key, is_Some (data !! key) → is_Some (data' !! key)) →
  mergeObject data data' = data'.
Proof.
  intros Hcover. unfold mergeObject. apply map_eq. intros key.
  rewrite lookup_union. destruct (data' !! key) eqn:Hnew.
  - by destruct (data !! key).
  - destruct (data !! key) eqn:Hold; [|done].
    destruct (Hcover key) as [v Hv]; [by eexists|]. congruence.
Qed.

Lemma mergeObject_data_after operation (data : PileData) :
  mergeObject data (data_after operation data) = data_after operation data.
Proof.
  apply mergeObject_covering. intros key [v Hv].
  assert (Hinsert : ∀ (data' : PileData) k w,
            is_Some (data' !! key) → is_Some (<[k := w]> data' !! key)).
  { intros data' k w Hsome. destruct (decide (k = key)) as [->|].
    - rewrite lookup_insert_eq. by eexists.
    - by rewrite lookup_insert_ne. }
  assert (Hsome : is_Some (data !! key)) by by eexists.
  destruct operation; simpl; repeat case_match; auto.
Qed.

Lemma data_after_enabled operation (data : PileData) :
  prop (data_after operation data) "enabled" = prop data "enabled".
Proof.
  destruct operation; simpl; repeat case_match; by rewrite ?prop_insert_ne.
Qed.

Lemma data_after_isContainer operation (data : PileData) :
  prop (data_after operation data) "isContainer" = prop data "isContainer".
Proof.
  destruct operation; simpl; repeat case_match; by rewrite ?prop_insert_ne.
Qed.

Lemma with_pile_data_logged target d data g trace :
  with_pile_data target d data (logged g trace)
  = logged (with_pile_data target d data g) trace.
Proof. done. Qed.

(** [updateItemPile] either writes the merged data or writes nothing. *)
Lemma updateItemPile_state g trace0 target d newData interactingToken :
  docs g !! target = Some d →
  ∃ trace,
    fst (updateItemPile target newData interactingToken (logged g trace0))
      = logged g trace
    ∨ fst (updateItemPile target newData interactingToken (logged g trace0))
      = logged (with_pile_data target d (mergeObject (flags d) newData) g) trace.
Proof.
  intros Hdoc. unfold updateItemPile.
  case_bool_decide; [by eexists; left|].
  case_bool_decide; [by eexists; left|].
  rewrite (bind_Ok _ _ _ _ _ (Hooks_call_run _ _)), Hooks_passes_logged.
  destruct (Hooks_passes g PILE_PRE_UPDATE); cbn [negb].
  - unfold executeAsGM. rewrite bind_emit, !logged_logged.
    destruct (_updateItemPile_run (logged g (trace0 ++ [EHooksCall PILE_PRE_UPDATE]
                                             ++ [EExecuteAsGM UPDATE_PILE]))
                target newData d) as [trace Hrun]; [done|].
    rewrite Hrun. simpl fst.
    eexists. right.
    change (set_docs (insert target ?doc) ?g0)
      with (with_pile_data target d (mergeObject (flags d) newData) g0).
    by rewrite with_pile_data_logged, logged_logged.
  - eexists. left. unfold ret. simpl fst. by rewrite logged_logged.
Qed.

Lemma left_or_written_logged operation g trace0 target d data interactingToken :
  docs g !! target = Some d →
  truthy (prop (flags d) "enabled") = true →
  truthy (prop (flags d) "isContainer") = true →
  data = data_after operation (flags d) →
  left_or_written operation g target
    (fst (updateItemPile target data interactingToken (logged g trace0))).
Proof.
  intros Hdoc Henabled Hcontainer ->.
  destruct (updateItemPile_state g trace0 target d
              (data_after operation (flags d)) interactingToken Hdoc)
    as [trace [Hleft|Hwritten]].
  - left. by exists trace.
  - right. exists d, trace. rewrite mergeObject_data_after in Hwritten. done.
Qed.

Lemma getItemPileData_missing target g :
  docs g !! target = None → getItemPileData target g = (g, Ok ∅).
Proof. intros H. unfold getItemPileData, gets. by rewrite H. Qed.

Lemma left_unwritten operation g target :
  left_or_written operation g target g.
Proof. left. exists []. by rewrite logged_nil. Qed.

Lemma left_logged operation g target trace :
  left_or_written operation g target (logged g trace).
Proof. left. by exists trace. Qed.

(** The data an operation reads: that of the document, or none. *)
Lemma getItemPileData_cases target g :
  (∃ d, docs g !! target = Some d ∧ getItemPileData target g = (g, Ok (flags d)))
  ∨ (docs g !! target = None ∧ getItemPileData target g = (g, Ok ∅)).
Proof.
  destruct (docs g !! target) as [d|] eqn:Hdoc.
  - left. exists d. split; [done|]. by apply getItemPileData_run.
  - right. split; [done|]. by apply getItemPileData_missing.
Qed.

Ltac call_hook :=
  rewrite (bind_Ok _ _ _ _ _ (Hooks_call_run _ _)), ?Hooks_passes_logged,
    ?logged_logged;
  match goal with
  | |- context [Hooks_passes ?g ?hook] => destruct (Hooks_passes g hook)
  end; cbn [negb].

Ltac play_sound :=
  match goal with
  | |- context [bind (if ?c then AudioHelper_play _ else ret tt)] =>
      destruct c; [unfold AudioHelper_play; rewrite bind_emit, ?logged_logged
                  |rewrite bind_ret]
  end.

Lemma openItemPile_state g target interactingToken :
  left_or_written DoOpen g target (fst (openItemPile target interactingToken g)).
Proof.
  unfold openItemPile.
  destruct (getItemPileData_cases target g) as [(d & Hdoc & Hdata)|[Hdoc Hdata]];
    rewrite (bind_Ok _ _ _ _ _ Hdata).
  2: { rewrite prop_empty. apply left_unwritten. }
  destruct (truthy (prop (flags d) "enabled")) eqn:Henabled;
    [|apply left_unwritten].
  destruct (truthy (prop (flags d) "isContainer")) eqn:Hcontainer;
    [|apply left_unwritten].
  cbn [negb orb].
  destruct (truthy (prop (flags d) "locked")).
  - call_hook; [|apply left_logged].
    call_hook; [|apply left_logged].
    play_sound; by eapply left_or_written_logged.
  - rewrite bind_ret. cbn [negb].
    call_hook; [|apply left_logged].
    play_sound; by eapply left_or_written_logged.
Qed.

Lemma closeItemPile_state g target interactingToken :
  left_or_written DoClose g target (fst (closeItemPile target interactingToken g)).
Proof.
  unfold closeItemPile.
  destruct (getItemPileData_cases target g) as [(d & Hdoc & Hdata)|[Hdoc Hdata]];
    rewrite (bind_Ok _ _ _ _ _ Hdata).
  2: { rewrite prop_empty. apply left_unwritten. }
  destruct (truthy (prop (flags d) "enabled")) eqn:Henabled;
    [|apply left_unwritten].
  destruct (truthy (prop (flags d) "isContainer")) eqn:Hcontainer;
    [|apply left_unwritten].
  cbn [negb orb].
  call_hook; [|apply left_logged].
  play_sound; by eapply left_or_written_logged.
Qed.

Lemma lockItemPile_state g target interactingToken :
  left_or_written DoLock g target (fst (lockItemPile target interactingToken g)).
Proof.
  unfold lockItemPile.
  destruct (getItemPileData_cases target g) as [(d & Hdoc & Hdata)|[Hdoc Hdata]];
    rewrite (bind_Ok _ _ _ _ _ Hdata).
  2: { rewrite prop_empty. apply left_unwritten. }
  destruct (truthy (prop (flags d) "enabled")) eqn:Henabled;
    [|apply left_unwritten].
  destruct (truthy (prop (flags d) "isContainer")) eqn:Hcontainer;
    [|apply left_unwritten].
  cbn [negb orb].
  destruct (truthy (prop (flags d) "closed")); cbn [negb andb].
  - rewrite bind_ret. cbn [negb].
    call_hook; [|apply left_logged].
    rewrite bind_ret. by eapply left_or_written_logged.
  - call_hook; [|apply left_logged].
    call_hook; [|apply left_logged].
    play_sound; by eapply left_or_written_logged.
Qed.

Lemma unlockItemPile_state g target interactingToken :
  left_or_written DoUnlock g target (fst (unlockItemPile target interactingToken g)).
Proof.
  unfold unlockItemPile.
  destruct (getItemPileData_cases target g) as [(d & Hdoc & Hdata)|[Hdoc Hdata]];
    rewrite (bind_Ok _ _ _ _ _ Hdata).
  2: { rewrite prop_empty. apply left_unwritten. }
  destruct (truthy (prop (flags d) "enabled")) eqn:Henabled;
    [|apply left_unwritten].
  destruct (truthy (prop (flags d) "isContainer")) eqn:Hcontainer;
    [|apply left_unwritten].
  cbn [negb orb].
  rewrite (bind_Ok _ _ _ _ _ (Hooks_call_run _ _)).
  by eapply left_or_written_logged.
Qed.

Lemma fst_bind_ret {A B} (m : M A) (b : B) g :
  fst (bind m (λ _, ret b) g) = fst (m g).
Proof. unfold bind, ret. by destruct (m g) as [g' [a|e]]. Qed.

Lemma left_or_written_as operation operation' g target g' d :
  docs g !! target = Some d →
  data_after operation (flags d) = data_after operation' (flags d) →
  left_or_written operation g target g' →
  left_or_written operation' g target g'.
Proof.
  intros Hdoc Hsame [Hleft|(d' & trace & Hdoc' & He & Hc & ->)]; [by left|].
  right. exists d', trace. assert (d' = d) as -> by congruence.
  by rewrite <- Hsame.
Qed.

Lemma toggleItemPileClosed_state g target interactingToken :
  left_or_written DoToggleClosed g target
    (fst (toggleItemPileClosed target interactingToken g)).
Proof.
  unfold toggleItemPileClosed.
  destruct (getItemPileData_cases target g) as [(d & Hdoc & Hdata)|[Hdoc Hdata]];
    rewrite (bind_Ok _ _ _ _ _ Hdata).
  2: { rewrite prop_empty. apply left_unwritten. }
  destruct (negb _ || negb _); [apply left_unwritten|].
  rewrite fst_bind_ret.
  destruct (truthy (prop (flags d) "closed")) eqn:Hclosed.
  - apply (left_or_written_as DoOpen _ _ _ _ d); [done| |apply openItemPile_state].
    simpl. by rewrite Hclosed.
  - apply (left_or_written_as DoClose _ _ _ _ d); [done| |apply closeItemPile_state].
    simpl. by rewrite Hclosed.
Qed.

Lemma toggleItemPileLocked_state g target interactingToken :
  left_or_written DoToggleLocked g target
    (fst (toggleItemPileLocked target interactingToken g)).
Proof.
  unfold toggleItemPileLocked.
  destruct (getItemPileData_cases target g) as [(d & Hdoc & Hdata)|[Hdoc Hdata]];
    rewrite (bind_Ok _ _ _ _ _ Hdata).
  2: { rewrite prop_empty. apply left_unwritten. }
  destruct (negb _ || negb _); [apply left_unwritten|].
  destruct (truthy (prop (flags d) "locked")) eqn:Hlocked.
  - apply (left_or_written_as DoUnlock _ _ _ _ d); [done| |apply unlockItemPile_state].
    simpl. by rewrite Hlocked.
  - apply (left_or_written_as DoLock _ _ _ _ d); [done| |apply lockItemPile_state].
    simpl. by rewrite Hlocked.
Qed.

(** Every operation of the state machine leaves the game as it was, up to
    the log, or with its own data written on the container. *)
Lemma run_operation_state operation g target interactingToken :
  left_or_written operation g target
    (fst (run_operation operation target interactingToken g)).
Proof.
  destruct operation; simpl.
  - apply openItemPile_state.
  - apply closeItemPile_state.
  - apply lockItemPile_state.
  - apply unlockItemPile_state.
  - apply toggleItemPileClosed_state.
  - apply toggleItemPileLocked_state.
Qed.

Lemma isItemPileLocked_other target d data g uuid :
  uuid ≠ target →
  isItemPileLocked (with_pile_data target d data g) uuid = isItemPileLocked g uuid.
Proof.
  intros Hne. unfold isItemPileLocked, with_pile_data. simpl docs.
  by rewrite lookup_insert_ne.
Qed.

Lemma isItemPileClosed_other target d data g uuid :
  uuid ≠ target →
  isItemPileClosed (with_pile_data target d data g) uuid = isItemPileClosed g uuid.
Proof.
  intros Hne. unfold isItemPileClosed, with_pile_data. simpl docs.
  by rewrite lookup_insert_ne.
Qed.

Lemma isItemPileLocked_read g target d :
  docs g !! target = Some d →
  truthy (prop (flags d) "enabled") = true →
  truthy (prop (flags d) "isContainer") = true →
  isItemPileLocked g target = prop (flags d) "locked".
Proof. intros Hdoc He Hc. unfold isItemPileLocked. by rewrite Hdoc, He, Hc. Qed.

Lemma isItemPileClosed_read g target d :
  docs g !! target = Some d →
  truthy (prop (flags d) "enabled") = true →
  truthy (prop (flags d) "isContainer") = true →
  isItemPileClosed g target = prop (flags d) "closed".
Proof. intros Hdoc He Hc. unfold isItemPileClosed. by rewrite Hdoc, He, Hc. Qed.

(** What the container reads as after an operation wrote on it. *)
Lemma isItemPileLocked_written operation target d g trace :
  truthy (prop (flags d) "enabled") = true →
  truthy (prop (flags d) "isContainer") = true →
  isItemPileLocked
    (logged (with_pile_data target d (data_after operation (flags d)) g) trace) target
  = prop (data_after operation (flags d)) "locked".
Proof.
  intros He Hc. rewrite isItemPileLocked_logged.
  apply isItemPileLocked_with_pile_data.
  - by rewrite data_after_enabled.
  - by rewrite data_after_isContainer.
Qed.

Lemma isItemPileClosed_written operation target d g trace :
  truthy (prop (flags d) "enabled") = true →
  truthy (prop (flags d) "isContainer") = true →
  isItemPileClosed
    (logged (with_pile_data target d (data_after operation (flags d)) g) trace) target
  = prop (data_after operation (flags d)) "closed".
Proof.
  intros He Hc. rewrite isItemPileClosed_logged.
  apply isItemPileClosed_with_pile_data.
  - by rewrite data_after_enabled.
  - by rewrite data_after_isContainer.
Qed.

(** X1.  On a target that is not an enabled container (also one that does
    not resolve) the six operations of the state machine and the rattle do
    nothing at all: they answer [false], call no hook, play no sound and
    leave the game, log included, as it was; and the pile reads as neither
    locked nor closed. *)
Theorem operations_need_a_container (g : Game) (target : string)
    (interactingToken : option string) (operation : ContainerOperation) :
  truthy (isItemPileContainer g target) = false →
  run_operation operation target interactingToken g = (g, Ok (VBool false))
  ∧ rattleItemPile target interactingToken g = (g, Ok (VBool false))
  ∧ isItemPileLocked g target = VBool false
  ∧ isItemPileClosed g target = VBool false.
Proof.
  intros Hnot.
  assert (Hdata : ∃ data,
            getItemPileData target g = (g, Ok data)
            ∧ negb (truthy (prop data "enabled"))
              || negb (truthy (prop data "isContainer")) = true
            ∧ data = match docs g !! target with Some d => flags d | None => ∅ end).
  { unfold isItemPileContainer in Hnot. unfold getItemPileData, gets.
    eexists. split; [done|]. split; [|done].
    destruct (truthy (prop _ "enabled")); [|done]. by rewrite Hnot. }
  destruct Hdata as (data & Hread & Htest & Hdata).
  split; [|split; [|split]].
  - destruct operation; simpl;
      unfold openItemPile, closeItemPile, lockItemPile, unlockItemPile,
        toggleItemPileClosed, toggleItemPileLocked;
      by rewrite (bind_Ok _ _ _ _ _ Hread), Htest.
  - unfold rattleItemPile. by rewrite (bind_Ok _ _ _ _ _ Hread), Htest.
  - unfold isItemPileLocked. by rewrite <- Hdata, Htest.
  - unfold isItemPileClosed. by rewrite <- Hdata, Htest.
Qed.

Lemma operations_need_a_container_witness :
  run_operation DoToggleLocked "Actor.hero" None loot_game
    = (loot_game, Ok (VBool false))
  ∧ rattleItemPile "Actor.hero" None loot_game = (loot_game, Ok (VBool false))
  ∧ isItemPileLocked loot_game "Actor.hero" = VBool false
  ∧ isItemPileClosed loot_game "Actor.hero" = VBool false.
Proof.
  apply (operations_need_a_container loot_game "Actor.hero" None DoToggleLocked).
  reflexivity.
Defined.

(** X2.  The six operations of the state machine keep the invariant that a
    locked pile is closed, for every document of the game, and whether the
    operation went through, was vetoed or threw: if a pile read as closed
    whenever it read as locked before the call, it does so after it. *)
Theorem operations_keep_locked_closed (operation : ContainerOperation)
    (g : Game) (target : string) (interactingToken : option string)
    (uuid : string) :
  locked_implies_closed g uuid →
  locked_implies_closed
    (fst (run_operation operation target interactingToken g)) uuid.
Proof.
  intros Hbefore.
  destruct (run_operation_state operation g target interactingToken)
    as [[trace ->]|(d & trace & Hdoc & He & Hc & ->)].
  { exact Hbefore. }
  unfold locked_implies_closed.
  destruct (decide (uuid = target)) as [->|Hne].
  - rewrite isItemPileLocked_written, isItemPileClosed_written by done.
    unfold locked_implies_closed in Hbefore.
    rewrite (isItemPileLocked_read g target d),
      (isItemPileClosed_read g target d) in Hbefore by done.
    destruct operation; simpl; repeat case_match;
      rewrite ?prop_insert_eq, ?prop_insert_ne, ?prop_insert_eq by done;
      simpl; try done; auto.
  - rewrite isItemPileLocked_logged, isItemPileClosed_logged.
    by rewrite isItemPileLocked_other, isItemPileClosed_other.
Qed.

Lemma operations_keep_locked_closed_witness :
  locked_implies_closed
    (fst (run_operation DoOpen "Scene.a.Token.chest" None chest_game))
    "Scene.a.Token.chest".
Proof.
  apply (operations_keep_locked_closed DoOpen chest_game "Scene.a.Token.chest"
           None "Scene.a.Token.chest").
  intros _. reflexivity.
Defined.

(** X3.  Closing never touches the lock and unlocking never touches the
    lid: whatever the hooks answer, [closeItemPile] leaves what every pile
    reads as locked, and [unlockItemPile] what every pile reads as closed. *)
Theorem close_and_unlock_frames (g : Game) (target : string)
    (interactingToken : option string) (uuid : string) :
  isItemPileLocked (fst (closeItemPile target interactingToken g)) uuid
    = isItemPileLocked g uuid
  ∧ isItemPileClosed (fst (unlockItemPile target interactingToken g)) uuid
    = isItemPileClosed g uuid.
Proof.
  split.
  - destruct (closeItemPile_state g target interactingToken)
      as [[trace ->]|(d & trace & Hdoc & He & Hc & ->)]; [done|].
    destruct (decide (uuid = target)) as [->|Hne].
    + rewrite isItemPileLocked_written by done.
      rewrite (isItemPileLocked_read g target d) by done.
      simpl. by rewrite prop_insert_ne.
    + by rewrite isItemPileLocked_logged, isItemPileLocked_other.
  - destruct (unlockItemPile_state g target interactingToken)
      as [[trace ->]|(d & trace & Hdoc & He & Hc & ->)]; [done|].
    destruct (decide (uuid = target)) as [->|Hne].
    + rewrite isItemPileClosed_written by done.
      rewrite (isItemPileClosed_read g target d) by done.
      simpl. by rewrite prop_insert_ne.
    + by rewrite isItemPileClosed_logged, isItemPileClosed_other.
Qed.

Lemma updateItemPile_written operation g trace0 target d interactingToken :
  target ≠ "" →
  interactingToken ≠ Some "" →
  docs g !! target = Some d →
  Hooks_passes g PILE_PRE_UPDATE = true →
  ∃ trace,
    updateItemPile target (data_after operation (flags d)) interactingToken
      (logged g trace0)
    = (logged (with_pile_data target d (data_after operation (flags d)) g) trace,
       Ok VUndef).
Proof.
  intros Htarget Htoken Hdoc Hupdate.
  destruct (updateItemPile_run (logged g trace0) target
              (data_after operation (flags d)) interactingToken d)
    as [trace Hrun]; try done.
  rewrite Hrun, mergeObject_data_after, with_pile_data_logged, logged_logged.
  by eexists.
Qed.

Ltac hook_passes H :=
  rewrite (bind_Ok _ _ _ _ _ (Hooks_call_run _ _)), ?Hooks_passes_logged,
    ?logged_logged, H; cbn [negb].

(** The four operations, when nothing is vetoed. *)
Lemma openItemPile_run g target interactingToken d :
  target ≠ "" →
  interactingToken ≠ Some "" →
  docs g !! target = Some d →
  truthy (prop (flags d) "enabled") = true →
  truthy (prop (flags d) "isContainer") = true →
  nothing_vetoed g →
  ∃ trace,
    openItemPile target interactingToken g
    = (logged (with_pile_data target d (data_after DoOpen (flags d)) g) trace,
       Ok VUndef).
Proof.
  intros Htarget Htoken Hdoc He Hc Hveto. unfold openItemPile.
  rewrite (bind_Ok _ _ _ _ _ (getItemPileData_run _ _ _ Hdoc)), He, Hc.
  cbn [negb orb].
  destruct (truthy (prop (flags d) "locked")).
  - hook_passes (Hveto PILE_PRE_UNLOCK). hook_passes (Hveto PILE_PRE_OPEN).
    play_sound; by apply (updateItemPile_written DoOpen).
  - rewrite bind_ret. cbn [negb]. hook_passes (Hveto PILE_PRE_OPEN).
    play_sound; by apply (updateItemPile_written DoOpen).
Qed.

Lemma closeItemPile_run g target interactingToken d :
  target ≠ "" →
  interactingToken ≠ Some "" →
  docs g !! target = Some d →
  truthy (prop (flags d) "enabled") = true →
  truthy (prop (flags d) "isContainer") = true →
  nothing_vetoed g →
  ∃ trace,
    closeItemPile target interactingToken g
    = (logged (with_pile_data target d (data_after DoClose (flags d)) g) trace,
       Ok VUndef).
Proof.
  intros Htarget Htoken Hdoc He Hc Hveto. unfold closeItemPile.
  rewrite (bind_Ok _ _ _ _ _ (getItemPileData_run _ _ _ Hdoc)), He, Hc.
  cbn [negb orb].
  hook_passes (Hveto PILE_PRE_CLOSE).
  play_sound; by apply (updateItemPile_written DoClose).
Qed.

Lemma lockItemPile_run g target interactingToken d :
  target ≠ "" →
  interactingToken ≠ Some "" →
  docs g !! target = Some d →
  truthy (prop (flags d) "enabled") = true →
  truthy (prop (flags d) "isContainer") = true →
  nothing_vetoed g →
  ∃ trace,
    lockItemPile target interactingToken g
    = (logged (with_pile_data target d (data_after DoLock (flags d)) g) trace,
       Ok VUndef).
Proof.
  intros Htarget Htoken Hdoc He Hc Hveto. unfold lockItemPile.
  rewrite (bind_Ok _ _ _ _ _ (getItemPileData_run _ _ _ Hdoc)), He, Hc.
  cbn [negb orb].
  destruct (truthy (prop (flags d) "closed")); cbn [negb andb].
  - rewrite bind_ret. cbn [negb]. hook_passes (Hveto PILE_PRE_LOCK).
    rewrite bind_ret. by apply (updateItemPile_written DoLock).
  - hook_passes (Hveto PILE_PRE_CLOSE). hook_passes (Hveto PILE_PRE_LOCK).
    play_sound; by apply (updateItemPile_written DoLock).
Qed.

Lemma unlockItemPile_run g target interactingToken d :
  target ≠ "" →
  interactingToken ≠ Some "" →
  docs g !! target = Some d →
  truthy (prop (flags d) "enabled") = true →
  truthy (prop (flags d) "isContainer") = true →
  Hooks_passes g PILE_PRE_UPDATE = true →
  ∃ trace,
    unlockItemPile target interactingToken g
    = (logged (with_pile_data target d (data_after DoUnlock (flags d)) g) trace,
       Ok VUndef).
Proof.
  intros Htarget Htoken Hdoc He Hc Hupdate. unfold unlockItemPile.
  rewrite (bind_Ok _ _ _ _ _ (getItemPileData_run _ _ _ Hdoc)), He, Hc.
  cbn [negb orb].
  rewrite (bind_Ok _ _ _ _ _ (Hooks_call_run _ _)).
  by apply (updateItemPile_written DoUnlock).
Qed.

Lemma nothing_vetoed_written target d data g trace :
  nothing_vetoed g → nothing_vetoed (logged (with_pile_data target d data g) trace).
Proof. intros Hveto hook. apply Hveto. Qed.

Lemma docs_written target d data g trace :
  docs (logged (with_pile_data target d data g) trace)
  = <[target := mkDocument (kind d) data (items d) (attributes d)]> (docs g).
Proof. done. Qed.

(** X4.  When nothing is vetoed, [toggleItemPileClosed] flips what an
    enabled container reads as closed and answers whether it is closed
    now, and [toggleItemPileLocked] flips what it reads as locked. *)
Theorem toggles_flip (g : Game) (target : string)
    (interactingToken : option string) (d : Document) :
  target ≠ "" →
  interactingToken ≠ Some "" →
  docs g !! target = Some d →
  truthy (prop (flags d) "enabled") = true →
  truthy (prop (flags d) "isContainer") = true →
  nothing_vetoed g →
  (∃ g',
     toggleItemPileClosed target interactingToken g
       = (g', Ok (VBool (truthy (isItemPileClosed g' target))))
     ∧ truthy (isItemPileClosed g' target)
       = negb (truthy (isItemPileClosed g target)))
  ∧ (∃ g',
       toggleItemPileLocked target interactingToken g = (g', Ok VUndef)
       ∧ truthy (isItemPileLocked g' target)
         = negb (truthy (isItemPileLocked g target))).
Proof.
  intros Htarget Htoken Hdoc He Hc Hveto. split.
  - unfold toggleItemPileClosed.
    rewrite (bind_Ok _ _ _ _ _ (getItemPileData_run _ _ _ Hdoc)), He, Hc.
    cbn [negb orb].
    rewrite (isItemPileClosed_read g target d) by done.
    destruct (truthy (prop (flags d) "closed")) eqn:Hclosed.
    + destruct (openItemPile_run g target interactingToken d) as [trace Hrun];
        try done.
      rewrite (bind_Ok _ _ _ _ _ Hrun). unfold ret. eexists.
      rewrite (isItemPileClosed_written DoOpen) by done. simpl.
      rewrite prop_insert_ne, prop_insert_eq by done. done.
    + destruct (closeItemPile_run g target interactingToken d) as [trace Hrun];
        try done.
      rewrite (bind_Ok _ _ _ _ _ Hrun). unfold ret. eexists.
      rewrite (isItemPileClosed_written DoClose) by done. simpl.
      rewrite prop_insert_eq. done.
  - unfold toggleItemPileLocked.
    rewrite (bind_Ok _ _ _ _ _ (getItemPileData_run _ _ _ Hdoc)), He, Hc.
    cbn [negb orb].
    rewrite (isItemPileLocked_read g target d) by done.
    destruct (truthy (prop (flags d) "locked")) eqn:Hlocked.
    + destruct (unlockItemPile_run g target interactingToken d) as [trace Hrun];
        try done.
      rewrite Hrun. eexists. split; [done|].
      rewrite (isItemPileLocked_written DoUnlock) by done. simpl.
      by rewrite prop_insert_eq.
    + destruct (lockItemPile_run g target interactingToken d) as [trace Hrun];
        try done.
      rewrite Hrun. eexists. split; [done|].
      rewrite (isItemPileLocked_written DoLock) by done. simpl.
      by rewrite prop_insert_eq.
Qed.

Lemma toggles_flip_witness :
  (∃ g',
     toggleItemPileClosed "Scene.a.Token.chest" None chest_game
       = (g', Ok (VBool (truthy (isItemPileClosed g' "Scene.a.Token.chest"))))
     ∧ truthy (isItemPileClosed g' "Scene.a.Token.chest")
       = negb (truthy (isItemPileClosed chest_game "Scene.a.Token.chest")))
  ∧ (∃ g',
       toggleItemPileLocked "Scene.a.Token.chest" None chest_game = (g', Ok VUndef)
       ∧ truthy (isItemPileLocked g' "Scene.a.Token.chest")
         = negb (truthy (isItemPileLocked chest_game "Scene.a.Token.chest"))).
Proof.
  apply (toggles_flip chest_game "Scene.a.Token.chest" None chest);
    try done; try (vm_compute; reflexivity).
Defined.

(** X5.  On a closed container that is not locked, and with nothing
    vetoed, opening and then closing, and locking and then unlocking, both
    run to their end and leave every document of the game as it was; the
    macro of the pile is started without being awaited, so this holds also
    when the pile names a macro that does not exist. *)
Theorem open_close_lock_unlock_round_trips (g : Game) (target : string)
    (interactingToken : option string) (d : Document) :
  target ≠ "" →
  interactingToken ≠ Some "" →
  docs g !! target = Some d →
  truthy (prop (flags d) "enabled") = true →
  truthy (prop (flags d) "isContainer") = true →
  flags d !! "closed" = Some (VBool true) →
  flags d !! "locked" = Some (VBool false) →
  nothing_vetoed g →
  (∃ g1 g2,
     openItemPile target interactingToken g = (g1, Ok VUndef)
     ∧ isItemPileClosed g1 target = VBool false
     ∧ closeItemPile target interactingToken g1 = (g2, Ok VUndef)
     ∧ docs g2 = docs g)
  ∧ (∃ g1 g2,
       lockItemPile target interactingToken g = (g1, Ok VUndef)
       ∧ isItemPileLocked g1 target = VBool true
       ∧ unlockItemPile target interactingToken g1 = (g2, Ok VUndef)
       ∧ docs g2 = docs g).
Proof.
  intros Htarget Htoken Hdoc He Hc Hclosed Hlocked Hveto.
  assert (Hback : ∀ data : PileData, data = flags d →
            <[target := mkDocument (kind d) data (items d) (attributes d)]> (docs g)
            = docs g).
  { intros data ->. apply insert_id. rewrite Hdoc. by destruct d. }
  split.
  - destruct (openItemPile_run g target interactingToken d) as [trace1 Hrun1];
      try done.
    set (d1 := mkDocument (kind d) (data_after DoOpen (flags d)) (items d) (attributes d)).
    destruct (closeItemPile_run
                (logged (with_pile_data target d (data_after DoOpen (flags d)) g) trace1)
                target interactingToken d1) as [trace2 Hrun2];
      [done|done| | | | |].
    { rewrite docs_written. apply lookup_insert_eq. }
    { subst d1. cbn [flags]. by rewrite data_after_enabled. }
    { subst d1. cbn [flags]. by rewrite data_after_isContainer. }
    { by apply nothing_vetoed_written. }
    eexists _, _. split; [exact Hrun1|]. split; [|split; [exact Hrun2|]].
    + rewrite (isItemPileClosed_written DoOpen) by done. simpl.
      by rewrite prop_insert_ne, prop_insert_eq.
    + rewrite !docs_written, insert_insert_eq. apply Hback. simpl.
      apply map_eq. intros key.
      destruct (decide ("closed" = key)) as [<-|]; [by rewrite lookup_insert_eq|].
      rewrite lookup_insert_ne by done.
      destruct (decide ("locked" = key)) as [<-|]; [by rewrite lookup_insert_eq|].
      by rewrite !lookup_insert_ne.
  - destruct (lockItemPile_run g target interactingToken d) as [trace1 Hrun1];
      try done.
    set (d1 := mkDocument (kind d) (data_after DoLock (flags d)) (items d) (attributes d)).
    destruct (unlockItemPile_run
                (logged (with_pile_data target d (data_after DoLock (flags d)) g) trace1)
                target interactingToken d1) as [trace2 Hrun2];
      [done|done| | | | |].
    { rewrite docs_written. apply lookup_insert_eq. }
    { subst d1. cbn [flags]. by rewrite data_after_enabled. }
    { subst d1. cbn [flags]. by rewrite data_after_isContainer. }
    { apply Hveto. }
    eexists _, _. split; [exact Hrun1|]. split; [|split; [exact Hrun2|]].
    + rewrite (isItemPileLocked_written DoLock) by done. simpl.
      by rewrite prop_insert_eq.
    + rewrite !docs_written, insert_insert_eq. apply Hback. simpl.
      apply map_eq. intros key.
      destruct (decide ("locked" = key)) as [<-|]; [by rewrite lookup_insert_eq|].
      rewrite !(lookup_insert_ne _ "locked") by done.
      destruct (decide ("closed" = key)) as [<-|]; [by rewrite lookup_insert_eq|].
      by rewrite !lookup_insert_ne.
Qed.

Lemma open_close_lock_unlock_round_trips_witness :
  (∃ g1 g2,
     openItemPile "Scene.a.Token.trunk" None cursed_game = (g1, Ok VUndef)
     ∧ isItemPileClosed g1 "Scene.a.Token.trunk" = VBool false
     ∧ closeItemPile "Scene.a.Token.trunk" None g1 = (g2, Ok VUndef)
     ∧ docs g2 = docs cursed_game)
  ∧ (∃ g1 g2,
       lockItemPile "Scene.a.Token.trunk" None cursed_game = (g1, Ok VUndef)
       ∧ isItemPileLocked g1 "Scene.a.Token.trunk" = VBool true
       ∧ unlockItemPile "Scene.a.Token.trunk" None g1 = (g2, Ok VUndef)
       ∧ docs g2 = docs cursed_game).
Proof.
  apply (open_close_lock_unlock_round_trips cursed_game "Scene.a.Token.trunk"
           None cursed_trunk);
    try done; try (vm_compute; reflexivity).
Defined.

(** X6.  An update that changes nothing is silent: when every key of the new
    data already has that value on the pile, [updateItemPile] leaves the game
    as it was and its effects are the PRE_UPDATE hook, the dispatch to the GM
    and the broadcast of an empty diff; no macro runs and no notification
    fires. *)
Theorem updateItemPile_without_change (g : Game) (target : string)
    (newData : PileData) (interactingToken : option string) (d : Document) :
  target ≠ "" →
  interactingToken ≠ Some "" →
  docs g !! target = Some d →
  newData ⊆ flags d →
  Hooks_passes g PILE_PRE_UPDATE = true →
  updateItemPile target newData interactingToken g
  = (logged g [EHooksCall PILE_PRE_UPDATE; EExecuteAsGM UPDATE_PILE;
               EExecuteForEveryone UPDATED_PILE; EUpdatedPile target ∅],
     Ok VUndef).
Proof.
  intros Htarget Htoken Hdoc Hsub Hupdate. unfold updateItemPile.
  rewrite (bool_decide_eq_false_2 _ Htarget), (bool_decide_eq_false_2 _ Htoken).
  rewrite (bind_Ok _ _ _ _ _ (Hooks_call_run _ _)), Hupdate. cbn [negb].
  unfold executeAsGM. rewrite bind_emit, logged_logged.
  unfold _updateItemPile.
  rewrite (bind_Ok _ _ _ _ _ (getItemPileData_run target (logged g _) d Hdoc)).
  assert (Hmerge : mergeObject (flags d) newData = flags d).
  { unfold mergeObject. by apply map_subseteq_union. }
  rewrite Hmerge, diffObject_same.
  assert (Hwrite : ∀ g0, docs g0 = docs g →
            lib_updateItemPile target (flags d) g0 = (g0, Ok tt)).
  { intros g0 Hdocs. unfold lib_updateItemPile. rewrite Hdocs, Hdoc.
    f_equal. destruct g0 as [ds ? ? ? ? ? ? ? ? ? ? ?]. unfold set_docs. simpl in *.
    f_equal. subst ds. apply insert_id. rewrite Hdoc. by destruct d. }
  rewrite (bind_Ok _ _ _ _ _ (Hwrite (logged g _) eq_refl)).
  rewrite !prop_empty. cbn [is_true is_false].
  assert (Hnone : ∀ g0 : Game,
            (if truthy (prop (flags d) "enabled") && truthy (prop (flags d) "isContainer")
             then do (ret tt) then do (ret tt) then do (ret tt) then ret tt
             else ret tt) g0 = (g0, Ok tt)).
  { intros g0. by destruct (_ && _). }
  rewrite (bind_Ok _ _ _ _ _ (Hnone (logged g _))).
  unfold executeForEveryone, _updatedItemPile.
  rewrite bind_assoc, bind_emit, bind_assoc, bind_emit, isObjectEmpty_empty.
  rewrite bind_ret. unfold ret. by rewrite !logged_logged.
Qed.

Lemma updateItemPile_without_change_witness :
  updateItemPile "Scene.a.Token.chest" {["locked" := VBool true]} None chest_game
  = (logged chest_game
       [EHooksCall PILE_PRE_UPDATE; EExecuteAsGM UPDATE_PILE;
        EExecuteForEveryone UPDATED_PILE; EUpdatedPile "Scene.a.Token.chest" ∅],
     Ok VUndef).
Proof.
  apply (updateItemPile_without_change chest_game "Scene.a.Token.chest"
           {["locked" := VBool true]} None chest); try done.
  apply map_singleton_subseteq_l. reflexivity.
Defined.

(** ** Clicking a pile *)

Lemma sort_insert_elem token sorted other :
  other ∈ sort_insert token sorted → other = token ∨ other ∈ sorted.
Proof.
  induction sorted as [|first rest IH]; simpl.
  - intros Hin. apply list_elem_of_singleton in Hin. by left.
  - destruct (token_grids token <=? token_grids first).
    + intros Hin. apply elem_of_cons in Hin as [->|Hin]; [by left|by right].
    + intros Hin. apply elem_of_cons in Hin as [->|Hin]; [right; left|].
      destruct (IH Hin) as [->|Hrest]; [by left|right; by right].
Qed.

Lemma sort_by_grids_elem tokens other :
  other ∈ sort_by_grids tokens → other ∈ tokens.
Proof.
  induction tokens as [|token tokens IH]; simpl; [done|].
  intros Hin. apply sort_insert_elem in Hin as [->|Hin]; [left|right; auto].
Qed.

(** The handler up to the choice of the tokens. *)
Lemma _itemPileClicked_tokens g pileDocument d :
  docs g !! pileDocument = Some d →
  truthy (prop (flags d) "enabled") = true →
  gmConnected g = true →
  _itemPileClicked pileDocument g =
    (let validTokens := click_tokens g pileDocument (flags d) in
     if bool_decide (validTokens = []) && negb (isGM g) then
       do emit (EWarning "ITEM-PILES.Errors.PileTooFar") then ret VUndef
     else
     let interactingToken :=
       if bool_decide (validTokens = []) then None
       else if bool_decide (_token g ∈ map Some validTokens)
            then token_document <$> _token g
            else token_document <$> head (sort_by_grids validTokens) in
     let show :=
       do emit (EShowInventory pileDocument interactingToken) then ret VUndef in
     if truthy (prop (flags d) "isContainer") && bool_decide (is_Some interactingToken)
     then
       if truthy (prop (flags d) "locked") && negb (isGM g) then
         rattleItemPile pileDocument interactingToken
       else
         do (if truthy (prop (flags d) "closed")
             then do openItemPile pileDocument interactingToken then ret tt
             else ret tt) then
         show
     else show) g.
Proof.
  intros Hdoc Henabled Hconnected. unfold _itemPileClicked.
  assert (Hvalid : isValidItemPile pileDocument g = (g, Ok true)).
  { unfold isValidItemPile, gets. by rewrite Hdoc, Henabled. }
  rewrite (bind_Ok _ _ _ _ _ Hvalid). cbn [negb].
  rewrite bind_gets, Hconnected. cbn [negb].
  rewrite (bind_Ok _ _ _ _ _ (getItemPileData_run _ _ _ Hdoc)).
  rewrite !bind_gets. done.
Qed.

(** X7.  A click that cannot be served changes nothing.  When no GM is
    connected, or when the user is not the GM and has no owned token within
    reach of the pile (other than the pile itself), the click on a valid pile
    warns the user and does nothing else: nothing is opened, rattled or
    shown, and the documents are as they were. *)
Theorem _itemPileClicked_refused (g : Game) (pileDocument : string) (d : Document) :
  docs g !! pileDocument = Some d →
  truthy (prop (flags d) "enabled") = true →
  gmConnected g = false
  ∨ (isGM g = false ∧ click_tokens g pileDocument (flags d) = []) →
  ∃ message,
    _itemPileClicked pileDocument g = (logged g [EWarning message], Ok VUndef).
Proof.
  intros Hdoc Henabled Hrefused.
  destruct (gmConnected g) eqn:Hconnected.
  - destruct Hrefused as [?|[Hgm Hnone]]; [done|].
    rewrite (_itemPileClicked_tokens g pileDocument d) by done.
    cbv zeta. rewrite Hnone, Hgm. rewrite bool_decide_eq_true_2 by done.
    cbn [andb negb]. rewrite bind_emit. by eexists.
  - unfold _itemPileClicked.
    assert (Hvalid : isValidItemPile pileDocument g = (g, Ok true)).
    { unfold isValidItemPile, gets. by rewrite Hdoc, Henabled. }
    rewrite (bind_Ok _ _ _ _ _ Hvalid). cbn [negb].
    rewrite bind_gets, Hconnected. cbn [negb]. rewrite bind_emit. by eexists.
Qed.

Lemma _itemPileClicked_refused_witness :
  ∃ message,
    _itemPileClicked "Scene.a.Token.chest" far_game
    = (logged far_game [EWarning message], Ok VUndef).
Proof.
  apply (_itemPileClicked_refused far_game "Scene.a.Token.chest" chest).
  - reflexivity.
  - reflexivity.
  - right. split; reflexivity.
Defined.

(** X8.  The lock does not hold the GM.  When the GM clicks a locked, closed
    container with an owned token to act with, and nothing is vetoed, the
    pile is unlocked and opened through [openItemPile], and then the
    inventory is shown to the GM for that token. *)
Theorem _itemPileClicked_gm_opens_locked (g : Game) (pileDocument : string)
    (d : Document) :
  pileDocument ≠ "" →
  docs g !! pileDocument = Some d →
  truthy (prop (flags d) "enabled") = true →
  truthy (prop (flags d) "isContainer") = true →
  truthy (prop (flags d) "locked") = true →
  truthy (prop (flags d) "closed") = true →
  gmConnected g = true →
  isGM g = true →
  click_tokens g pileDocument (flags d) ≠ [] →
  (∀ token, token ∈ click_candidates g → token_document token ≠ "") →
  nothing_vetoed g →
  ∃ g' token trace,
    _itemPileClicked pileDocument g = (g', Ok VUndef)
    ∧ isItemPileLocked g' pileDocument = VBool false
    ∧ isItemPileClosed g' pileDocument = VBool false
    ∧ token ∈ click_tokens g pileDocument (flags d)
    ∧ log g' = log g ++ trace
               ++ [EShowInventory pileDocument (Some (token_document token))].
Proof.
  intros Hpile Hdoc He Hc Hlocked Hclosed Hconnected Hgm Hsome Hdocuments Hveto.
  rewrite (_itemPileClicked_tokens g pileDocument d) by done.
  cbv zeta.
  set (validTokens := click_tokens g pileDocument (flags d)) in *.
  rewrite !(bool_decide_eq_false_2 _ Hsome), Hgm, Hc, Hlocked, Hclosed.
  cbn [andb negb].
  assert (Hchosen : ∃ token,
            token ∈ validTokens
            ∧ (if bool_decide (_token g ∈ map Some validTokens)
               then token_document <$> _token g
               else token_document <$> head (sort_by_grids validTokens))
              = Some (token_document token)).
  { case_bool_decide as Hcur.
    - apply list_elem_of_fmap in Hcur as (current & Hcur & Hin).
      exists current. rewrite Hcur. done.
    - destruct (sort_by_grids validTokens) as [|first rest] eqn:Hsort.
      { by apply sort_by_grids_not_nil in Hsort. }
      exists first. split; [|done]. apply sort_by_grids_elem.
      rewrite Hsort. left. }
  destruct Hchosen as (token & Hin & ->).
  rewrite bool_decide_eq_true_2 by by eexists.
  assert (Htoken : Some (token_document token) ≠ Some "").
  { intros [= Hempty]. apply (Hdocuments token); [|done].
    unfold validTokens, click_tokens in Hin.
    rewrite !list_elem_of_In, !filter_In, <- list_elem_of_In in Hin. tauto. }
  destruct (openItemPile_run g pileDocument (Some (token_document token)) d)
    as [trace Hrun]; try done.
  rewrite bind_assoc, (bind_Ok _ _ _ _ _ Hrun), !bind_ret, bind_emit.
  unfold ret. rewrite logged_logged.
  eexists _, token, trace. split; [done|].
  split; [|split; [|split; [done|]]].
  - rewrite (isItemPileLocked_written DoOpen) by done. simpl.
    by rewrite prop_insert_eq.
  - rewrite (isItemPileClosed_written DoOpen) by done. simpl.
    by rewrite prop_insert_ne, prop_insert_eq.
  - done.
Qed.

Lemma _itemPileClicked_gm_opens_locked_witness :
  ∃ g' token trace,
    _itemPileClicked "Scene.a.Token.chest" gm_game = (g', Ok VUndef)
    ∧ isItemPileLocked g' "Scene.a.Token.chest" = VBool false
    ∧ isItemPileClosed g' "Scene.a.Token.chest" = VBool false
    ∧ token ∈ click_tokens gm_game "Scene.a.Token.chest" (flags chest)
    ∧ log g' = log gm_game ++ trace
               ++ [EShowInventory "Scene.a.Token.chest" (Some (token_document token))].
Proof.
  apply (_itemPileClicked_gm_opens_locked gm_game "Scene.a.Token.chest" chest);
    try done; try (vm_compute; reflexivity).
  intros token Hin. apply list_elem_of_In in Hin.
  destruct Hin as [<-|[]]. discriminate.
Defined.

(** ** Items: refusals, failures and what a transfer keeps *)

Lemma remove_loop_None lines requests request :
  request ∈ requests →
  items_get lines (request_id request) = None →
  remove_loop lines requests = None.
Proof.
  induction requests as [|r requests IH]; intros Hin Hnone.
  { by apply elem_of_nil in Hin. }
  simpl. apply elem_of_cons in Hin as [<-|Hin].
  - unfold remove_step. by rewrite Hnone.
  - rewrite (IH Hin Hnone). by destruct (remove_step lines r) as [[[? ?] ?]|].
Qed.

(** X9.  A removal checks every request before it writes anything.  When
    one request of the list names a line the actor does not have,
    [_removeItems] throws and the game is exactly as it was, whatever the
    other requests are; so does [_transferItems], which leaves both the
    source and the target untouched. *)
Theorem removal_of_unknown_line_writes_nothing (g : Game)
    (sourceUuid targetUuid : string) (d : Document)
    (requests : list ItemRequest) (request : ItemRequest)
    (isTransfer isEverything : bool) :
  docs g !! sourceUuid = Some d →
  request ∈ requests →
  items_get (items d) (request_id request) = None →
  _removeItems sourceUuid requests isTransfer g
    = (g, Throw "Cannot read properties of undefined")
  ∧ _transferItems sourceUuid targetUuid requests isEverything g
    = (g, Throw "Cannot read properties of undefined").
Proof.
  intros Hdoc Hin Hnone.
  assert (Hremove : ∀ b, _removeItems sourceUuid requests b g
                         = (g, Throw "Cannot read properties of undefined")).
  { intros b. unfold _removeItems.
    rewrite (bind_Ok _ _ _ _ _ (fromUuid_run _ _)), Hdoc.
    by rewrite (remove_loop_None _ _ _ Hin Hnone). }
  split; [apply Hremove|].
  unfold _transferItems. by rewrite (bind_Throw _ _ _ _ _ (Hremove true)).
Qed.

Lemma removal_of_unknown_line_writes_nothing_witness :
  _removeItems "Actor.hero" [mkRequest "0" 1; mkRequest "7" 1] false loot_game
    = (loot_game, Throw "Cannot read properties of undefined")
  ∧ _transferItems "Actor.hero" "Scene.a.Token.keep"
      [mkRequest "0" 1; mkRequest "7" 1] false loot_game
    = (loot_game, Throw "Cannot read properties of undefined").
Proof.
  apply (removal_of_unknown_line_writes_nothing loot_game "Actor.hero"
           "Scene.a.Token.keep" hero [mkRequest "0" 1; mkRequest "7" 1]
           (mkRequest "7" 1) false false).
  - reflexivity.
  - right. left.
  - reflexivity.
Defined.

(** X10.  [transferItems] refuses, before anything is dispatched, a list in
    which one entry names an item that is not among the lines of the source
    the type filters let through: it throws after the PRE_TRANSFER hook and
    nothing is moved, also not the items of the other entries. *)
Theorem transferItems_refuses_unknown_item (g : Game) (source target : string)
    (d : Document) (entries : list ItemArgument) (entry : ItemArgument) :
  source ≠ "" →
  docs g !! source = Some d →
  Hooks_passes g ITEM_PRE_TRANSFER = true →
  entry ∈ entries →
  transferItems_entry (getDocumentItems (ITEM_TYPE_FILTERS g) (items d)) entry = None →
  transferItems source target entries g
  = (logged g [EHooksCall ITEM_PRE_TRANSFER],
     Throw "TransferItems | Could not find item on target").
Proof.
  intros Hsource Hdoc Hhook Hin Hnone. unfold transferItems.
  rewrite (bind_Ok _ _ _ _ _ (Hooks_call_run _ _)), Hhook. cbn [negb].
  rewrite bool_decide_eq_false_2 by done.
  unfold getItemPileItems. rewrite bind_gets, docs_logged, Hdoc.
  change (ITEM_TYPE_FILTERS (logged g _)) with (ITEM_TYPE_FILTERS g).
  assert (Hmap : mapM (transferItems_entry
                         (getDocumentItems (ITEM_TYPE_FILTERS g) (items d))) entries
                 = None).
  { apply mapM_None, Exists_exists. by exists entry. }
  by rewrite Hmap.
Qed.

Lemma transferItems_refuses_unknown_item_witness :
  transferItems "Actor.hero" "Scene.a.Token.keep"
    [ArgId "0" (Some 1); ArgString "7"] loot_game
  = (logged loot_game [EHooksCall ITEM_PRE_TRANSFER],
     Throw "TransferItems | Could not find item on target").
Proof.
  apply (transferItems_refuses_unknown_item loot_game "Actor.hero"
           "Scene.a.Token.keep" hero [ArgId "0" (Some 1); ArgString "7"]
           (ArgString "7")).
  - discriminate.
  - reflexivity.
  - reflexivity.
  - right. left.
  - reflexivity.
Defined.

Lemma _executeItemPileMacro_missing g uuid action :
  macro_available g uuid = false →
  _executeItemPileMacro uuid action g = (g, Throw "Could not find macro").
Proof.
  intros Hmissing. unfold _executeItemPileMacro, macro_available in *.
  unfold isValidItemPile, getItemPileData. rewrite bind_gets.
  destruct (docs g !! uuid) as [d|] eqn:Hdoc; [|done].
  destruct (truthy (prop (flags d) "enabled")); [|done]. cbn [negb].
  rewrite bind_gets, Hdoc.
  destruct (truthy (prop (flags d) "macro")); [|done]. cbn [negb].
  rewrite bind_gets. simpl in Hmissing.
  destruct (prop (flags d) "macro"); try done.
  by rewrite Hmissing.
Qed.

(** X11.  A missing macro fails the call after the write.  When the pile
    names a macro the game does not have, [_addItems] called for itself
    creates and updates the lines, fires the ITEM_ADD hook, and only then
    throws: the items stay added, the inventory is not re-rendered and the
    caller gets an error instead of the records. *)
Theorem _addItems_missing_macro (g : Game) (targetUuid : string) (d : Document)
    (entries : list ItemData) (added : list TransferRecord)
    (toCreate : list Item) (toUpdate : list (string * Z)) :
  docs g !! targetUuid = Some d →
  macro_available g targetUuid = false →
  add_loop (items d) entries = (added, toCreate, toUpdate) →
  _addItems targetUuid entries false g
  = (logged (with_created targetUuid d
               (updateEmbeddedDocuments toUpdate
                  (items d ++ created_documents (ids_made g) toCreate))
               (ids_made g + length toCreate) g)
            [ECallHook ITEM_ADD],
     Throw "Could not find macro").
Proof.
  intros Hdoc Hmissing Hloop. unfold _addItems.
  rewrite (bind_Ok _ _ _ _ _ (fromUuid_run _ _)), Hdoc, Hloop.
  unfold createEmbeddedDocuments.
  unfold gets at 1, modify at 1. unfold bind at 1 2 3 4.
  assert (Hcreate : set_items targetUuid
                      (λ lines : list Item,
                         lines ++ created_documents (ids_made g) toCreate)
                      (set_ids_made (ids_made g + length toCreate) g)
                    = (with_items targetUuid d
                         (items d ++ created_documents (ids_made g) toCreate)
                         (set_ids_made (ids_made g + length toCreate) g), Ok tt)).
  { by apply set_items_run. }
  rewrite Hcreate. unfold ret at 1.
  rewrite (bind_Ok _ _ _ _ _ (set_items_run _ _ _ _ (lookup_with_items _ _ _ _))).
  simpl items. rewrite with_items_twice.
  unfold call_hook_for_everyone. rewrite bind_emit. cbn [negb].
  change (with_items targetUuid d ?l (set_ids_made ?n g))
    with (with_created targetUuid d l n g).
  assert (Hmacro : macro_available
                     (logged (with_created targetUuid d
                                (updateEmbeddedDocuments toUpdate
                                   (items d ++ created_documents (ids_made g) toCreate))
                                (ids_made g + length toCreate) g)
                             [ECallHook ITEM_ADD]) targetUuid = false).
  { by rewrite macro_available_logged, macro_available_with_created. }
  rewrite bind_assoc.
  rewrite (bind_Throw _ _ _ _ _ (_executeItemPileMacro_missing _ _ "addItems" Hmacro)).
  done.
Qed.

Lemma _addItems_missing_macro_witness :
  _addItems "Scene.a.Token.trunk" [mkItemData sword (Some 2)] false cursed_game
  = (logged (with_created "Scene.a.Token.trunk" cursed_trunk
               (updateEmbeddedDocuments []
                  (items cursed_trunk
                   ++ created_documents (ids_made cursed_game) [set_quantity 2 sword]))
               (ids_made cursed_game + length [set_quantity 2 sword]) cursed_game)
            [ECallHook ITEM_ADD],
     Throw "Could not find macro").
Proof.
  apply (_addItems_missing_macro cursed_game "Scene.a.Token.trunk" cursed_trunk
           [mkItemData sword (Some 2)] [] [set_quantity 2 sword] []);
    reflexivity.
Defined.



Lemma should_be_deleted_with_lines default_setting d :
  items d ≠ [] → should_be_deleted default_setting d = false.
Proof.
  intros Hlines. unfold should_be_deleted, isItemPileEmpty.
  rewrite (bool_decide_eq_false_2 (items d = [])) by done.
  by rewrite !andb_false_r.
Qed.

Lemma getSimilarItem_elem lines id name type found :
  getSimilarItem lines id name type = Some found → found ∈ lines.
Proof.
  unfold getSimilarItem. intros Hfound. apply find_some in Hfound as [Hin _].
  by apply list_elem_of_In.
Qed.



(** *** What a transfer keeps: the number of items *)

Lemma total_quantity_app lines lines' :
  total_quantity (lines ++ lines') = total_quantity lines + total_quantity lines'.
Proof.
  induction lines as [|line lines IH]; simpl; [done|]. rewrite IH. lia.
Qed.

Lemma sum_of_app (l k : list Z) : sum_of (l ++ k) = sum_of l + sum_of k.
Proof. induction l as [|x l IH]; simpl; [done|]. rewrite IH. lia. Qed.

Lemma total_quantity_sum lines :
  total_quantity lines = sum_of (map item_quantity lines).
Proof. induction lines as [|line lines IH]; simpl; [done|]. by rewrite IH. Qed.


(** One update on lines of distinct ids changes the total by what it changes
    on the line it names. *)
Lemma total_update_one lines id q :
  NoDup (map item_id lines) →
  total_quantity (map (λ item, if bool_decide (item_id item = id)
                               then set_quantity q item else item) lines)
  = total_quantity lines
    + match items_get lines id with
      | Some item => q - item_quantity item
      | None => 0
      end.
Proof.
  induction lines as [|x lines IH]; intros Hnodup; [done|].
  simpl in Hnodup. apply NoDup_cons in Hnodup as [Hfresh Hnodup].
  simpl. unfold items_get. simpl. case_bool_decide as Hid.
  - assert (Hnone : items_get lines id = None).
    { apply items_get_None. by rewrite <- Hid. }
    rewrite IH, Hnone by done. simpl. lia.
  - rewrite IH by done. unfold items_get. lia.
Qed.




Lemma created_documents_item_quantity made data :
  map item_quantity (created_documents made data) = map item_quantity data.
Proof.
  unfold created_documents. revert made.
  induction data as [|item data IH]; intros made; [done|].
  simpl. f_equal. rewrite <- (IH (S made)). f_equal.
  apply imap_ext. intros i x _. simpl. f_equal. f_equal. lia.
Qed.


Lemma line_after_removal_nil line : line_after_removal [] line = Some line.
Proof. done. Qed.


Lemma line_after_removal_unrequested requests line :
  item_id line ∉ map request_id requests →
  line_after_removal requests line = Some line.
Proof.
  intros Hnot. unfold line_after_removal.
  destruct (request_for requests (item_id line)) as [request|] eqn:Hrequest;
    [|done].
  apply request_for_Some in Hrequest as [Hin Hid].
  exfalso. apply Hnot. rewrite <- Hid. by apply list_elem_of_fmap_2.
Qed.







(** X23.  A removal touches only the lines it is asked about.  When the
    lines of the actor have distinct ids and the requests name existing
    lines, each once at most, [_removeItems] runs to its end and every line
    that no request names is still on the actor afterwards, as it was; with
    such a line left the pile is never deleted. *)
Theorem _removeItems_leaves_other_lines (g : Game) (targetUuid : string)
    (d : Document) (requests : list ItemRequest) (isTransfer : bool)
    (line : Item) :
  docs g !! targetUuid = Some d →
  NoDup (map item_id (items d)) →
  NoDup (map request_id requests) →
  (∀ request, request ∈ requests →
     is_Some (items_get (items d) (request_id request))) →
  (isTransfer = false → macro_available g targetUuid = true) →
  line ∈ items d →
  item_id line ∉ map request_id requests →
  ∃ g' itemsRemoved,
    _removeItems targetUuid requests isTransfer g = (g', Ok itemsRemoved)
    ∧ document_line g' targetUuid (item_id line) = Some line.
Proof.
  intros Hdoc Hlines Hrequests Hall Hmacro Hin Hother.
  destruct (remove_loop_is_Some _ _ Hall) as [[[removed updates] deletes] Hloop].
  pose proof (remove_loop_lines _ _ _ _ _ Hlines Hrequests Hloop) as Hleft.
  assert (Hline : items_get (omap (line_after_removal requests) (items d))
                    (item_id line) = Some line).
  { rewrite items_get_after_removal by done.
    by apply line_after_removal_unrequested. }
  destruct isTransfer.
  - rewrite (_removeItems_transfer_run _ _ _ _ _ _ _ Hdoc Hloop).
    eexists _, _. split; [done|].
    unfold document_line. simpl docs. rewrite lookup_insert_eq. simpl items.
    by rewrite Hleft.
  - destruct (_removeItems_run _ _ _ _ _ _ _ Hdoc Hloop (Hmacro eq_refl))
      as [trace ->].
    eexists _, _. split; [done|].
    rewrite should_be_deleted_with_lines.
    + unfold document_line. simpl docs. rewrite lookup_insert_eq. simpl items.
      by rewrite Hleft.
    + simpl. rewrite Hleft. intros Hnil. rewrite Hnil in Hline. done.
Qed.

Lemma _removeItems_leaves_other_lines_witness :
  ∃ g' itemsRemoved,
    _removeItems "Actor.hero" [mkRequest "0" 9] false loot_game
      = (g', Ok itemsRemoved)
    ∧ document_line g' "Actor.hero" (item_id potion) = Some potion.
Proof.
  apply (_removeItems_leaves_other_lines loot_game "Actor.hero" hero
           [mkRequest "0" 9] false potion);
    try reflexivity;
    try (apply (bool_decide_unpack _); vm_compute; exact I).
  intros request Hin. apply list_elem_of_In in Hin.
  destruct Hin as [<-|[]]. vm_compute. by eexists.
Defined.

(** ** Attributes *)

Lemma _addAttributes_run g target d quantities isTransfer :
  docs g !! target = Some d →
  (isTransfer = true → macro_available g target = true) →
  ∃ trace,
    _addAttributes target quantities isTransfer g
    = (logged (set_docs (insert target
                 (doc_with_attributes d (attributes_added d quantities ∪ attributes d)))
                 g) trace,
       Ok (attributes_added d quantities))
    ∧ (isTransfer = false → trace = [ECallHook ATTRIBUTE_ADD]).
Proof.
  intros Hdoc Hmacro. unfold _addAttributes.
  rewrite (bind_Ok _ _ _ _ _ (fromUuid_run _ _)), Hdoc.
  fold (attributes_added d quantities).
  rewrite (bind_Ok _ _ _ _ _ (update_attributes_run _ _ d _ Hdoc)).
  unfold call_hook_for_everyone. rewrite bind_emit.
  destruct isTransfer.
  - match goal with |- ∃ trace, bind (bind _ _) _ ?g1 = _ ∧ _ =>
      destruct (_executeItemPileMacro_run g1 target "addAttributes") as [trace Hrun]
    end.
    { rewrite macro_available_logged. unfold macro_available in *. simpl docs.
      simpl macros. rewrite lookup_insert_eq. simpl.
      specialize (Hmacro eq_refl). by rewrite Hdoc in Hmacro. }
    rewrite bind_assoc, (bind_Ok _ _ _ _ _ Hrun).
    rewrite (bind_Ok _ _ _ _ _ (rerender_run _ _ _)). unfold ret.
    rewrite !logged_logged. eexists. split; [done|]. done.
  - rewrite bind_ret. unfold ret. eexists. split; [done|]. done.
Qed.


Lemma _removeAttributes_direct_run g target d data :
  docs g !! target = Some d →
  macro_available g target = true →
  let d' := doc_with_attributes d (attributes_after_removal d data) in
  ∃ trace,
    _removeAttributes target data false g
    = (logged (set_docs (λ ds, if should_be_deleted (deleteEmptyPiles g) d'
                               then delete target ds else <[target := d']> ds) g)
              trace,
       Ok (attributes_removed d data)).
Proof.
  intros Hdoc Havailable d'. unfold _removeAttributes.
  rewrite (bind_Ok _ _ _ _ _ (fromUuid_run _ _)), Hdoc.
  rewrite (bind_Ok _ _ _ _ _ (update_attributes_run _ _ d _ Hdoc)).
  unfold call_hook_for_everyone. rewrite bind_emit. cbn [negb].
  match goal with |- ∃ trace, bind _ _ ?g1 = _ =>
    destruct (removal_tail_run g1 target d' "removeAttributes") as [trace Htail]
  end.
  { simpl docs. apply lookup_insert_eq. }
  { rewrite macro_available_logged. unfold macro_available in *. simpl docs.
    simpl macros. rewrite lookup_insert_eq. simpl. by rewrite Hdoc in Havailable. }
  rewrite (bind_Ok _ _ _ _ _ Htail). unfold ret. simpl deleteEmptyPiles.
  eexists ([ECallHook ATTRIBUTE_REMOVE] ++ trace).
  f_equal. fold d'.
  destruct (should_be_deleted (deleteEmptyPiles g) d').
  - rewrite set_docs_logged, logged_logged. f_equal.
    unfold set_docs. simpl. by rewrite delete_insert_eq.
  - by rewrite logged_logged.
Qed.

(** What the removal makes of an attribute that holds a number, and what it
    reports for it. *)
Lemma attributes_after_removal_lookup d data attribute c r :
  attributes d !! attribute = Some (Some c) →
  removal_quantities d data !! attribute = Some (Some r) →
  attributes_after_removal d data !! attribute = Some (Some (Z.max 0 (c - r)))
  ∧ attributes_removed d data !! attribute = Some (Some (taken c r)).
Proof.
  intros Hc Hr.
  unfold attributes_after_removal, attributes_removed.
  rewrite lookup_union, !map_lookup_imap, Hr. simpl.
  unfold attribute_number. rewrite Hc. simpl. split; [done|].
  unfold taken. do 2 f_equal.
  destruct (r <? c) eqn:Hlt.
  - apply Z.ltb_lt in Hlt. rewrite (proj2 (Z.eqb_neq _ 0)) by lia. done.
  - apply Z.ltb_ge in Hlt. rewrite (proj2 (Z.eqb_eq _ 0)) by lia. done.
Qed.

Lemma quantities_pass_the_test (quantities : gmap string Z) :
  map_Forall (λ _ quantity,
                (negb (is_real_number quantity) && (0 <? quantity)) = false)
             quantities.
Proof. intros key quantity _. done. Qed.




Lemma list_to_map_function {A} (f : string → A) (l : list (string * A)) key :
  (∀ entry, entry ∈ l → entry.2 = f entry.1) →
  key ∈ map fst l →
  (list_to_map l : gmap string A) !! key = Some (f key).
Proof.
  induction l as [|[k v] l IH]; intros Hf Hin.
  { by apply elem_of_nil in Hin. }
  simpl. destruct (decide (k = key)) as [->|Hne].
  - rewrite lookup_insert_eq. f_equal. apply (Hf (key, v)). left.
  - rewrite lookup_insert_ne by done. apply IH.
    + intros entry Hentry. apply Hf. by right.
    + simpl in Hin. apply elem_of_cons in Hin as [?|?]; [congruence|done].
Qed.

Lemma removal_quantities_array d paths attribute :
  attribute ∈ paths →
  removal_quantities d (DataArray paths) !! attribute
  = Some (attribute_number d attribute).
Proof.
  intros Hin. simpl.
  apply (list_to_map_function (attribute_number d)).
  - intros entry Hentry. apply elem_of_reverse, list_elem_of_fmap in Hentry
      as (path & -> & _). done.
  - apply list_elem_of_fmap. exists (attribute, attribute_number d attribute).
    split; [done|]. apply elem_of_reverse.
    by apply (list_elem_of_fmap_2 (λ a, (a, attribute_number d a))).
Qed.

(** X15.  [removeAttributes] with an array of paths drains them.  Every
    attribute named in the array that holds a number [c] holds 0 afterwards,
    and the call reports [c] for it. *)
Theorem removeAttributes_array_drains (g : Game) (target : string) (d : Document)
    (paths : list string) (attribute : string) (c : Z) :
  target ≠ "" →
  docs g !! target = Some d →
  Hooks_passes g ATTRIBUTE_PRE_REMOVE = true →
  macro_available g target = true →
  (∀ path, path ∈ paths → is_Some (attributes d !! path)) →
  attribute ∈ paths →
  attributes d !! attribute = Some (Some c) →
  ∃ g' removed d',
    removeAttributes target (AttributesArray paths) g = (g', Ok (Some removed))
    ∧ removed !! attribute = Some (Some c)
    ∧ attributes d' !! attribute = Some (Some 0)
    ∧ docs g' !! target
      = (if should_be_deleted (deleteEmptyPiles g) d' then None else Some d').
Proof.
  intros Htarget Hdoc Hhook Hmacro Hall Hin Hc. unfold removeAttributes.
  rewrite (bind_Ok _ _ _ _ _ (Hooks_call_run _ _)), Hhook. cbn [negb].
  rewrite bool_decide_eq_false_2 by done.
  rewrite (bind_Ok _ _ _ _ _ (fromUuid_run _ _)), docs_logged, Hdoc.
  assert (Hforall : forallb (λ attribute,
                       bool_decide (is_Some (attributes d !! attribute))) paths
                    = true).
  { apply forallb_forall. intros path Hpath. apply bool_decide_eq_true_2.
    apply Hall. by apply list_elem_of_In. }
  rewrite Hforall. cbn [negb].
  unfold executeAsGM. rewrite bind_assoc, bind_emit, logged_logged.
  match goal with |- ∃ _ _ _, bind _ _ ?g1 = _ ∧ _ =>
    destruct (_removeAttributes_direct_run g1 target d
                (DataArray paths) Hdoc Hmacro) as [trace Hrun]
  end.
  cbv zeta in Hrun. rewrite (bind_Ok _ _ _ _ _ Hrun). unfold ret.
  destruct (attributes_after_removal_lookup d (DataArray paths) attribute c c)
    as [Hafter Hremoved]; [done| |].
  { rewrite removal_quantities_array by done.
    unfold attribute_number. by rewrite Hc. }
  eexists _, _, (doc_with_attributes d
                   (attributes_after_removal d (DataArray paths))).
  split; [done|]. split; [|split].
  - rewrite Hremoved. unfold taken. by rewrite Z.ltb_irrefl.
  - cbn [attributes doc_with_attributes]. rewrite Hafter. do 2 f_equal. lia.
  - simpl docs. change (deleteEmptyPiles (logged g _)) with (deleteEmptyPiles g).
    destruct (should_be_deleted _ _).
    + apply lookup_delete_eq.
    + apply lookup_insert_eq.
Qed.

Lemma removeAttributes_array_drains_witness :
  ∃ g' removed d',
    removeAttributes "Scene.a.Token.purse"
      (AttributesArray ["currency.gold"; "currency.silver"]) purse_game
      = (g', Ok (Some removed))
    ∧ removed !! "currency.gold" = Some (Some 5)
    ∧ attributes d' !! "currency.gold" = Some (Some 0)
    ∧ docs g' !! "Scene.a.Token.purse"
      = (if should_be_deleted (deleteEmptyPiles purse_game) d' then None else Some d').
Proof.
  apply (removeAttributes_array_drains purse_game "Scene.a.Token.purse" purse
           ["currency.gold"; "currency.silver"] "currency.gold" 5);
    try discriminate; try reflexivity.
  - intros path Hin. apply list_elem_of_In in Hin.
    destruct Hin as [<-|[<-|[]]]; by eexists.
  - left.
Defined.

(** X16.  [addAttributes], called for itself, adds the quantity to the
    attribute and does nothing more: each attribute of the call that holds
    the number [c] holds [c + q] afterwards, the other attributes and
    documents are as they were, and the effects are the PRE_ADD hook, the
    dispatch to the GM and the ADD hook: the macro of the pile is not run and
    its inventory is not re-rendered, which the handler does only as a step
    of a transfer. *)
Theorem addAttributes_adds (g : Game) (target : string) (d : Document)
    (quantities : gmap string Z) :
  target ≠ "" →
  docs g !! target = Some d →
  Hooks_passes g ATTRIBUTE_PRE_ADD = true →
  map_Forall (λ key _, is_Some (attributes d !! key)) quantities →
  ∃ d',
    addAttributes target quantities g
    = (logged (set_docs (insert target d') g)
         [EHooksCall ATTRIBUTE_PRE_ADD; EExecuteAsGM ADD_ATTRIBUTE;
          ECallHook ATTRIBUTE_ADD],
       Ok (Some (attributes_added d (Some <$> quantities))))
    ∧ kind d' = kind d ∧ flags d' = flags d ∧ items d' = items d
    ∧ (∀ attribute, quantities !! attribute = None →
         attributes d' !! attribute = attributes d !! attribute)
    ∧ (∀ attribute c q,
         attributes d !! attribute = Some (Some c) →
         quantities !! attribute = Some q →
         attributes d' !! attribute = Some (Some (c + q))).
Proof.
  intros Htarget Hdoc Hhook Hall. unfold addAttributes.
  rewrite (bind_Ok _ _ _ _ _ (Hooks_call_run _ _)), Hhook. cbn [negb].
  rewrite bool_decide_eq_false_2 by done.
  rewrite (bind_Ok _ _ _ _ _ (fromUuid_run _ _)), docs_logged, Hdoc.
  rewrite (bool_decide_eq_true_2 _ Hall). cbn [negb].
  rewrite (bool_decide_eq_true_2 _ (quantities_pass_the_test quantities)).
  cbn [negb].
  unfold executeAsGM. rewrite bind_assoc, bind_emit, logged_logged.
  match goal with |- ∃ _, bind _ _ ?g1 = _ ∧ _ =>
    destruct (_addAttributes_run g1 target d (Some <$> quantities) false Hdoc)
      as (trace & Hrun & Htrace); [done|]
  end.
  rewrite (bind_Ok _ _ _ _ _ Hrun). unfold ret.
  rewrite (Htrace eq_refl), set_docs_logged, logged_logged.
  eexists. split; [done|]. split; [done|]. split; [done|]. split; [done|].
  split.
  - intros attribute Hnone. simpl.
    rewrite lookup_union. unfold attributes_added.
    rewrite map_lookup_imap, lookup_fmap, Hnone. simpl.
    by destruct (attributes d !! attribute).
  - intros attribute c q Hc Hq. simpl.
    rewrite lookup_union. unfold attributes_added.
    rewrite map_lookup_imap, lookup_fmap, Hq. simpl.
    unfold attribute_number. by rewrite Hc.
Qed.

Lemma addAttributes_adds_witness :
  ∃ d',
    addAttributes "Actor.rich" {["currency.gold" := 3]} rich_game
    = (logged (set_docs (insert "Actor.rich" d') rich_game)
         [EHooksCall ATTRIBUTE_PRE_ADD; EExecuteAsGM ADD_ATTRIBUTE;
          ECallHook ATTRIBUTE_ADD],
       Ok (Some (attributes_added rich (Some <$> {["currency.gold" := 3]}))))
    ∧ kind d' = kind rich ∧ flags d' = flags rich ∧ items d' = items rich
    ∧ (∀ attribute, ({["currency.gold" := 3]} : gmap string Z) !! attribute = None →
         attributes d' !! attribute = attributes rich !! attribute)
    ∧ (∀ attribute c q,
         attributes rich !! attribute = Some (Some c) →
         ({["currency.gold" := 3]} : gmap string Z) !! attribute = Some q →
         attributes d' !! attribute = Some (Some (c + q))).
Proof.
  apply (addAttributes_adds rich_game "Actor.rich" rich {["currency.gold" := 3]});
    try discriminate; try reflexivity.
  apply map_Forall_singleton. by eexists.
Defined.





Lemma head_omap_all {A B} (f : A → option B) (l : list A) (b : B) x :
  x ∈ l → f x = Some b →
  (∀ y c, y ∈ l → f y = Some c → c = b) →
  head (omap f l) = Some b.
Proof.
  intros Hin Hx Hall.
  destruct (omap f l) as [|c rest] eqn:Hlist.
  - assert (Hmem : b ∈ omap f l) by (apply list_elem_of_omap; by exists x).
    rewrite Hlist in Hmem. by apply elem_of_nil in Hmem.
  - simpl. f_equal.
    assert (Hc : c ∈ omap f l) by (rewrite Hlist; left).
    apply list_elem_of_omap in Hc as (y & Hy & Hfy). by eapply Hall.
Qed.

(** X18.  [transferAttributes] refuses an attribute the target does not
    have.  When every attribute of the call is on the source and one of them
    is not on the target, the call throws after the PRE_TRANSFER hook,
    before anything is dispatched: nothing is taken from the source. *)
Theorem transferAttributes_refuses_missing_attribute (g : Game)
    (source target : string) (dS dT : Document)
    (quantities : gmap string Z) (attribute : string) :
  source ≠ "" → target ≠ "" →
  docs g !! source = Some dS →
  docs g !! target = Some dT →
  Hooks_passes g ATTRIBUTE_PRE_TRANSFER = true →
  map_Forall (λ key _, is_Some (attributes dS !! key)) quantities →
  is_Some (quantities !! attribute) →
  attributes dT !! attribute = None →
  transferAttributes source target (AttributesObject quantities) g
  = (logged g [EHooksCall ATTRIBUTE_PRE_TRANSFER],
     Throw "TransferAttributes | Could not find attribute on target's actor").
Proof.
  intros Hsource Htarget HdS HdT Hhook Hall [q Hq] Hmissing.
  unfold transferAttributes.
  rewrite (bind_Ok _ _ _ _ _ (Hooks_call_run _ _)), Hhook. cbn [negb].
  rewrite !bool_decide_eq_false_2 by done.
  rewrite (bind_Ok _ _ _ _ _ (fromUuid_run _ _)), docs_logged, HdS.
  rewrite (bind_Ok _ _ _ _ _ (fromUuid_run _ _)), docs_logged, HdT.
  assert (Hcheck : ∀ entry : string * Z,
            entry ∈ map_to_list quantities →
            is_Some (attributes dS !! entry.1)).
  { intros [key value] Hentry. apply elem_of_map_to_list in Hentry.
    by apply (Hall key value). }
  rewrite (head_omap_all _ _
             "TransferAttributes | Could not find attribute on target's actor"
             (attribute, q)).
  - done.
  - by apply elem_of_map_to_list.
  - unfold transfer_entry_check, transfer_path_check. simpl.
    rewrite (bool_decide_eq_true_2 (is_Some (attributes dS !! attribute)))
      by (by apply (Hall attribute q)).
    rewrite Hmissing. cbn [negb].
    rewrite bool_decide_eq_false_2; [done|]. by intros [? ?].
  - intros entry message Hentry.
    unfold transfer_entry_check, transfer_path_check.
    rewrite (bool_decide_eq_true_2 _ (Hcheck entry Hentry)). cbn [negb].
    case_bool_decide; cbn [negb]; [|congruence]. done.
Qed.

Lemma transferAttributes_refuses_missing_attribute_witness :
  transferAttributes "Scene.a.Token.purse" "Actor.carrier"
    (AttributesObject {["currency.silver" := 1]}) purse_game
  = (logged purse_game [EHooksCall ATTRIBUTE_PRE_TRANSFER],
     Throw "TransferAttributes | Could not find attribute on target's actor").
Proof.
  apply (transferAttributes_refuses_missing_attribute purse_game
           "Scene.a.Token.purse" "Actor.carrier" purse carrier
           {["currency.silver" := 1]} "currency.silver");
    try discriminate; try reflexivity.
  - apply map_Forall_singleton. by eexists.
  - by eexists.
Defined.

(** ** Deleting a pile *)

Lemma isValidItemPile_run g target :
  isValidItemPile target g = (g, Ok (valid_pile g target)).
Proof. done. Qed.

(** X19.  [deleteItemPile] on a valid pile whose uuid names a token, when no
    consumer of PRE_DELETE vetoes, removes that document and no other: the
    effects are the hook and the dispatch to the GM, the pile no longer
    resolves, and every other document is as it was. *)
Theorem deleteItemPile_deletes (g : Game) (target : string) :
  valid_pile g target = true →
  includes target "Token" = true →
  Hooks_passes g PILE_PRE_DELETE = true →
  deleteItemPile target g
  = (logged (set_docs (delete target) g)
       [EHooksCall PILE_PRE_DELETE; EExecuteAsGM DELETE_PILE],
     Ok (Some tt))
  ∧ docs (fst (deleteItemPile target g)) !! target = None
  ∧ ∀ uuid, uuid ≠ target →
      docs (fst (deleteItemPile target g)) !! uuid = docs g !! uuid.
Proof.
  intros Hvalid Htoken Hhook.
  assert (Hrun : deleteItemPile target g
                 = (logged (set_docs (delete target) g)
                      [EHooksCall PILE_PRE_DELETE; EExecuteAsGM DELETE_PILE],
                    Ok (Some tt))).
  { unfold deleteItemPile.
    rewrite (bind_Ok _ _ _ _ _ (isValidItemPile_run _ _)), Hvalid. cbn [negb].
    assert (Hne : target ≠ "") by (intros ->; done).
    rewrite (bool_decide_eq_false_2 _ Hne), Htoken. cbn [negb].
    rewrite (bind_Ok _ _ _ _ _ (Hooks_call_run _ _)), Hhook. cbn [negb].
    unfold executeAsGM. rewrite bind_assoc, bind_emit, logged_logged.
    unfold valid_pile in Hvalid.
    destruct (docs g !! target) as [d|] eqn:Hdoc; [|done].
    rewrite (bind_Ok _ _ _ _ _ (_deleteItemPile_run (logged g _) target d Hdoc)).
    unfold ret. by rewrite set_docs_logged. }
  rewrite Hrun. split; [done|]. split.
  - simpl. apply lookup_delete_eq.
  - intros uuid Hne. simpl. by apply lookup_delete_ne.
Qed.

Lemma deleteItemPile_deletes_witness :
  deleteItemPile "Scene.a.Token.loot" loot_game
  = (logged (set_docs (delete "Scene.a.Token.loot") loot_game)
       [EHooksCall PILE_PRE_DELETE; EExecuteAsGM DELETE_PILE],
     Ok (Some tt))
  ∧ docs (fst (deleteItemPile "Scene.a.Token.loot" loot_game))
      !! "Scene.a.Token.loot" = None
  ∧ ∀ uuid, uuid ≠ "Scene.a.Token.loot" →
      docs (fst (deleteItemPile "Scene.a.Token.loot" loot_game)) !! uuid
      = docs loot_game !! uuid.
Proof.
  apply (deleteItemPile_deletes loot_game "Scene.a.Token.loot"); reflexivity.
Defined.

(** X20.  [deleteItemPile] deletes nothing unless the target is a valid
    pile, its uuid names a token and no consumer of PRE_DELETE vetoes: when
    one of the three fails, the call leaves every document as it was and
    does not answer as a deletion does; it throws for the first two and
    answers [undefined] on a veto. *)
Theorem deleteItemPile_refuses (g : Game) (target : string) :
  valid_pile g target = false
  ∨ includes target "Token" = false
  ∨ Hooks_passes g PILE_PRE_DELETE = false →
  ∃ trace outcome,
    deleteItemPile target g = (logged g trace, outcome)
    ∧ outcome ≠ Ok (Some tt)
    ∧ (valid_pile g target = false ∨ includes target "Token" = false →
       ∃ message, outcome = Throw message)
    ∧ (valid_pile g target = true → includes target "Token" = true →
       outcome = Ok None).
Proof.
  intros Hrefused. unfold deleteItemPile.
  rewrite (bind_Ok _ _ _ _ _ (isValidItemPile_run _ _)).
  destruct (valid_pile g target) eqn:Hvalid; cbn [negb].
  2: { exists [], (Throw "Cannot access 'targetUuid' before initialization").
       rewrite logged_nil. split; [done|]. split; [done|].
       split; [by eexists|done]. }
  case_bool_decide as Hempty.
  { eexists [], _. rewrite logged_nil. split; [done|]. split; [done|].
    split; [by eexists|]. intros _ Htoken. subst target. done. }
  destruct (includes target "Token") eqn:Htoken; cbn [negb].
  2: { eexists [], _. rewrite logged_nil. split; [done|]. split; [done|].
       split; [by eexists|done]. }
  destruct Hrefused as [?|[?|Hveto]]; [done|done|].
  rewrite (bind_Ok _ _ _ _ _ (Hooks_call_run _ _)), Hveto. cbn [negb].
  eexists _, _. split; [done|]. split; [done|].
  split; [|done]. intros [?|?]; done.
Qed.

Lemma deleteItemPile_refuses_witness :
  ∃ trace outcome,
    deleteItemPile "Scene.a.Token.chest" veto_delete_game
      = (logged veto_delete_game trace, outcome)
    ∧ outcome ≠ Ok (Some tt)
    ∧ (valid_pile veto_delete_game "Scene.a.Token.chest" = false
       ∨ includes "Scene.a.Token.chest" "Token" = false →
       ∃ message, outcome = Throw message)
    ∧ (valid_pile veto_delete_game "Scene.a.Token.chest" = true →
       includes "Scene.a.Token.chest" "Token" = true →
       outcome = Ok None).
Proof.
  apply (deleteItemPile_refuses veto_delete_game "Scene.a.Token.chest").
  right. right. reflexivity.
Defined.

(** ** Vetoes *)

Ltac no_dispatch :=
  let handler := fresh "handler" in
  let Hin := fresh "Hin" in
  intros handler Hin;
  repeat first
    [ apply elem_of_app in Hin as [Hin|Hin]
    | apply elem_of_cons in Hin as [Hin|Hin]
    | by apply elem_of_nil in Hin
    | discriminate Hin ].

Ltac stop := eexists; split; [reflexivity|no_dispatch].

Lemma updateItemPile_vetoed g trace0 target newData interactingToken :
  target ≠ "" →
  interactingToken ≠ Some "" →
  Hooks_passes g PILE_PRE_UPDATE = false →
  updateItemPile target newData interactingToken (logged g trace0)
  = (logged g (trace0 ++ [EHooksCall PILE_PRE_UPDATE]), Ok VUndef).
Proof.
  intros Htarget Htoken Hveto.
  rewrite updateItemPile_veto by done. by rewrite logged_logged.
Qed.

(** X21.  The vetoes of the container operations.  On an enabled container,
    a consumer that returns [false] on PRE_OPEN stops [openItemPile], on
    PRE_UNLOCK it stops the opening of a locked pile, on PRE_CLOSE it stops
    [closeItemPile] and the locking of an open pile, on PRE_LOCK it stops
    [lockItemPile], and on PRE_UPDATE it stops [updateItemPile]: the game is
    as it was up to the log, nothing is dispatched to the GM and the call
    returns [undefined]. *)
Theorem vetoes_stop_container_operations (g : Game) (target : string)
    (interactingToken : option string) (d : Document) :
  docs g !! target = Some d →
  truthy (prop (flags d) "enabled") = true →
  truthy (prop (flags d) "isContainer") = true →
  (Hooks_passes g PILE_PRE_OPEN = false →
   stopped (openItemPile target interactingToken g) g VUndef)
  ∧ (Hooks_passes g PILE_PRE_UNLOCK = false →
     truthy (prop (flags d) "locked") = true →
     stopped (openItemPile target interactingToken g) g VUndef)
  ∧ (Hooks_passes g PILE_PRE_CLOSE = false →
     stopped (closeItemPile target interactingToken g) g VUndef)
  ∧ (Hooks_passes g PILE_PRE_CLOSE = false →
     truthy (prop (flags d) "closed") = false →
     stopped (lockItemPile target interactingToken g) g VUndef)
  ∧ (Hooks_passes g PILE_PRE_LOCK = false →
     stopped (lockItemPile target interactingToken g) g VUndef)
  ∧ (Hooks_passes g PILE_PRE_UPDATE = false →
     target ≠ "" → interactingToken ≠ Some "" →
     ∀ newData, stopped (updateItemPile target newData interactingToken g) g VUndef).
Proof.
  intros Hdoc He Hc.
  split; [|split; [|split; [|split; [|split]]]].
  - intros Hveto. unfold openItemPile.
    rewrite (bind_Ok _ _ _ _ _ (getItemPileData_run _ _ _ Hdoc)), He, Hc.
    cbn [negb orb].
    destruct (truthy (prop (flags d) "locked")).
    + call_hook; [|stop]. hook_passes Hveto. stop.
    + rewrite bind_ret. cbn [negb]. hook_passes Hveto. stop.
  - intros Hveto Hlocked.
    rewrite (openItemPile_veto_unlock g target interactingToken d) by done. stop.
  - intros Hveto.
    rewrite (closeItemPile_veto g target interactingToken d) by done. stop.
  - intros Hveto Hopen. unfold lockItemPile.
    rewrite (bind_Ok _ _ _ _ _ (getItemPileData_run _ _ _ Hdoc)), He, Hc, Hopen.
    cbn [negb orb]. hook_passes Hveto. stop.
  - intros Hveto. unfold lockItemPile.
    rewrite (bind_Ok _ _ _ _ _ (getItemPileData_run _ _ _ Hdoc)), He, Hc.
    cbn [negb orb].
    destruct (truthy (prop (flags d) "closed")); cbn [negb andb].
    + rewrite bind_ret. cbn [negb]. hook_passes Hveto. stop.
    + call_hook; [|stop]. hook_passes Hveto. stop.
  - intros Hveto Htarget Htoken newData.
    rewrite updateItemPile_veto by done. stop.
Qed.

Lemma vetoes_stop_container_operations_witness :
  stopped (openItemPile "Scene.a.Token.chest" None veto_all_game) veto_all_game VUndef
  ∧ stopped (closeItemPile "Scene.a.Token.chest" None veto_all_game) veto_all_game VUndef
  ∧ stopped (lockItemPile "Scene.a.Token.chest" None veto_all_game) veto_all_game VUndef
  ∧ stopped (updateItemPile "Scene.a.Token.chest" ∅ None veto_all_game)
      veto_all_game VUndef.
Proof.
  destruct (vetoes_stop_container_operations veto_all_game "Scene.a.Token.chest"
              None chest) as (Hopen & _ & Hclose & _ & Hlock & Hupdate);
    try reflexivity.
  split; [by apply Hopen|]. split; [by apply Hclose|]. split; [by apply Hlock|].
  by apply Hupdate.
Defined.

(** X22.  The vetoes of the item, attribute and deletion operations.  A
    consumer that returns [false] on the pre-operation hook stops [addItems],
    [transferItems], [addAttributes], [removeAttributes],
    [transferAttributes] and, for a valid pile addressed through a token,
    [deleteItemPile]: the only effect is the call of the hook, nothing is
    dispatched or written, and the call returns [undefined]. *)
Theorem vetoes_stop_item_operations (g : Game) (target : string) :
  (Hooks_passes g ITEM_PRE_ADD = false →
   ∀ entries, stopped (addItems target entries g) g None)
  ∧ (Hooks_passes g ITEM_PRE_TRANSFER = false →
     ∀ other entries, stopped (transferItems target other entries g) g None)
  ∧ (Hooks_passes g ATTRIBUTE_PRE_ADD = false →
     ∀ quantities, stopped (addAttributes target quantities g) g None)
  ∧ (Hooks_passes g ATTRIBUTE_PRE_REMOVE = false →
     ∀ quantities, stopped (removeAttributes target quantities g) g None)
  ∧ (Hooks_passes g ATTRIBUTE_PRE_TRANSFER = false →
     ∀ other quantities, stopped (transferAttributes target other quantities g) g None)
  ∧ (Hooks_passes g PILE_PRE_DELETE = false →
     valid_pile g target = true → includes target "Token" = true →
     stopped (deleteItemPile target g) g None).
Proof.
  split; [|split; [|split; [|split; [|split]]]].
  - intros Hveto entries. rewrite addItems_veto by done. stop.
  - intros Hveto other entries. rewrite transferItems_veto by done. stop.
  - intros Hveto quantities. unfold addAttributes.
    rewrite (bind_Ok _ _ _ _ _ (Hooks_call_run _ _)), Hveto. stop.
  - intros Hveto quantities. unfold removeAttributes.
    rewrite (bind_Ok _ _ _ _ _ (Hooks_call_run _ _)), Hveto. stop.
  - intros Hveto other quantities. unfold transferAttributes.
    rewrite (bind_Ok _ _ _ _ _ (Hooks_call_run _ _)), Hveto. stop.
  - intros Hveto Hvalid Htoken. unfold deleteItemPile.
    rewrite (bind_Ok _ _ _ _ _ (isValidItemPile_run _ _)), Hvalid. cbn [negb].
    assert (Hne : target ≠ "") by (intros ->; done).
    rewrite (bool_decide_eq_false_2 _ Hne), Htoken. cbn [negb].
    rewrite (bind_Ok _ _ _ _ _ (Hooks_call_run _ _)), Hveto. stop.
Qed.

Lemma vetoes_stop_item_operations_witness :
  stopped (addItems "Scene.a.Token.chest" [mkItemData sword None] veto_all_game)
    veto_all_game None
  ∧ stopped (transferItems "Scene.a.Token.chest" "Actor.rich" [ArgString "0"]
               veto_all_game) veto_all_game None
  ∧ stopped (addAttributes "Actor.rich" {["currency.gold" := 1]} veto_all_game)
      veto_all_game None
  ∧ stopped (deleteItemPile "Scene.a.Token.chest" veto_all_game) veto_all_game None.
Proof.
  destruct (vetoes_stop_item_operations veto_all_game "Scene.a.Token.chest")
    as (Hadd & Htransfer & _ & _ & _ & Hdelete).
  destruct (vetoes_stop_item_operations veto_all_game "Actor.rich")
    as (_ & _ & Hattribute & _).
  split; [by apply Hadd|]. split; [by apply Htransfer|].
  split; [by apply Hattribute|]. by apply Hdelete.
Defined.
(** ** A locked pile: opened by the API, rattled by a click *)






(** ** The automatic deletion after a removal *)



(** ** An addition without a quantity *)

(** X24.  An entry given to [addItems] without a quantity adds one piece,
    whatever quantity the item in the entry carries: the default of the
    API reads the quantity below [item.data], where the path finds nothing,
    so the handler falls back on 1.  The call runs to its end, reports a
    quantity of 1, and the lines of the target hold one piece more. *)
Theorem addItems_without_quantity_adds_one (g : Game) (target : string)
    (d : Document) (item : Item) :
  target ≠ "" →
  docs g !! target = Some d →
  Hooks_passes g ITEM_PRE_ADD = true →
  macro_available g target = true →
  NoDup (map item_id (items d)) →
  ∃ g' record,
    addItems target [mkItemData item None] g = (g', Ok (Some [record]))
    ∧ record_quantity record = 1
    ∧ total_quantity (items_of g' target) = total_quantity (items d) + 1.
Proof.
  intros Htarget Hdoc Hpass Hmacro Hlines. unfold addItems.
  rewrite (bind_Ok _ _ _ _ _ (Hooks_call_run _ _)), Hpass. cbn [negb].
  rewrite (bool_decide_eq_false_2 _ Htarget).
  unfold executeAsGM. rewrite bind_assoc, bind_emit. cbn [map data_item data_quantity].
  destruct (add_loop (items d) [mkItemData item None])
    as [[added toCreate] toUpdate] eqn:Hloop.
  destruct (_addItems_run (logged (logged g [EHooksCall ITEM_PRE_ADD])
                             [EExecuteAsGM ADD_ITEMS]) target d
              [mkItemData item None] false added toCreate toUpdate)
    as [trace Hrun]; try done.
  rewrite (bind_Ok _ _ _ _ _ Hrun). unfold ret.
  simpl in Hloop. unfold add_step in Hloop. cbn [data_item data_quantity default] in Hloop.
  unfold items_of.
  destruct (getSimilarItem (items d) (item_id item) (item_name item) (item_type item))
    as [found|] eqn:Hfound; injection Hloop as <- <- <-.
  - eexists _, _. split; [reflexivity|]. split; [reflexivity|].
    simpl docs. rewrite lookup_insert_eq. simpl items.
    rewrite app_nil_r. simpl updateEmbeddedDocuments.
    rewrite total_update_one by done.
    rewrite (items_get_in _ _ Hlines (getSimilarItem_elem _ _ _ _ _ Hfound)). lia.
  - eexists _, _. split; [reflexivity|]. split; [reflexivity|].
    simpl docs. rewrite lookup_insert_eq. simpl items.
    simpl updateEmbeddedDocuments. rewrite total_quantity_app.
    rewrite (total_quantity_sum (created_documents _ _)),
      created_documents_item_quantity. simpl. lia.
Qed.

Lemma addItems_without_quantity_adds_one_witness :
  item_quantity sword = 5
  ∧ ∃ g' record,
      addItems "Actor.hero" [mkItemData sword None] loot_game
      = (g', Ok (Some [record]))
      ∧ record_quantity record = 1
      ∧ total_quantity (items_of g' "Actor.hero") = total_quantity (items hero) + 1.
Proof.
  split; [reflexivity|].
  apply (addItems_without_quantity_adds_one loot_game "Actor.hero" hero sword);
    try done.
  apply (bool_decide_unpack _). vm_compute. exact I.
Defined.
